(** * go-ports: the relay registry and its relay loops

    A shallow embedding of the port forwarder (type [Forwarder] and the
    goroutine bodies it launches) together with the properties of its
    start / stop / status operations, of the per-connection byte pump and
    of the datagram receive loop.

    The registry operations run in a small state monad over the forwarder,
    the operating system's network state and a log of observable events
    (lock operations, map accesses, network calls, goroutine launches, log
    lines).  The network is an interface ([Net]): every theorem about the
    registry holds for every implementation of it.  The goroutine bodies
    are reactive loops; they are embedded as transition functions driven
    by the results of their blocking calls. *)

From Stdlib Require Import Ascii.
From stdpp Require Import gmap strings list fin_maps.

(** ** Errors

    Go errors built by [fmt.Errorf]: a message, and for the [%w] verb the
    wrapped cause.  Errors returned by package [net] are opaque. *)

Inductive error : Type :=
| NetError (msg : string)
| Errorf (msg : string)
| Wrapf (msg : string) (cause : error).

(** The result pair [(v, err)] of a Go call. *)
Inductive result (A : Type) : Type :=
| Ok (v : A)
| Err (e : error).
Arguments Ok {A} v.
Arguments Err {A} e.

(** ** Network resources *)

(** [net.Listener] held by the TCP map (the map stores a pointer to it). *)
Inductive Listener : Type := ListenerFD (fd : nat).

(** [*net.UDPConn]. *)
Inductive UDPConn : Type := UDPConnFD (fd : nat).

(** [*net.UDPAddr]. *)
Record UDPAddr : Type := mkUDPAddr { IP : string; Port : Z }.

(** The calls of package [net] the registry makes.  [W] is the state of the
    operating system's network stack. *)
Class Net (W : Type) : Type := {
  net_Listen : string -> string -> W -> result Listener * W;
  Listener_Close : Listener -> W -> option error * W;
  net_ResolveUDPAddr : string -> string -> W -> result UDPAddr * W;
  net_ListenUDP : string -> UDPAddr -> W -> result UDPConn * W;
  UDPConn_Close : UDPConn -> W -> option error * W
}.

(** ** The forwarder *)

Record Forwarder : Type := mkForwarder {
  tcpListeners : gmap string Listener;
  udpListeners : gmap string UDPConn;
  mu : bool  (* [true] while the mutex is held *)
}.

Definition NewForwarder : Forwarder :=
  {| tcpListeners := ∅; udpListeners := ∅; mu := false |}.

Inductive Proto : Type := TCP | UDP.

(** Goroutines launched with [go], with the values they capture. *)
Inductive Goroutine : Type :=
| GoHandleTCPForward (listener : Listener) (targetAddr targetPort : string)
| GoHandleUDPForward (conn : UDPConn) (targetAddr targetPort : string).

Inductive IOCall : Type :=
| IOListen (network address : string)
| IOListenerClose (l : Listener)
| IOResolveUDPAddr (network address : string)
| IOListenUDP (network : string) (laddr : UDPAddr)
| IOUDPConnClose (c : UDPConn).

Inductive Event : Type :=
| EvLock
| EvUnlock
| EvLookup (p : Proto) (key : string)
| EvInsert (p : Proto) (key : string)
| EvDelete (p : Proto) (key : string)
| EvIO (c : IOCall)
| EvGo (g : Goroutine)
| EvLog (msg : string).

Record State (W : Type) : Type := mkState {
  fw : Forwarder;
  os : W;
  trace : list Event
}.
Arguments mkState {W} fw os trace.
Arguments fw {W} s.
Arguments os {W} s.
Arguments trace {W} s.

(** A call either returns, or never does because it waits for a mutex that
    is never released, or brings the process down (unlock of an unlocked
    mutex). *)
Inductive Outcome (W A : Type) : Type :=
| Returns (a : A) (s : State W)
| Blocks
| Fatal.
Arguments Returns {W A} a s.
Arguments Blocks {W A}.
Arguments Fatal {W A}.

Definition M (W A : Type) : Type := State W -> Outcome W A.

Definition ret {W A} (a : A) : M W A := fun s => Returns a s.

Definition bind {W A B} (m : M W A) (k : A -> M W B) : M W B :=
  fun s => match m s with
           | Returns a s' => k a s'
           | Blocks => Blocks
           | Fatal => Fatal
           end.

Declare Scope go_scope.
Delimit Scope go_scope with go.
Notation "x <- m ;; k" := (bind m (fun x => k))
  (at level 100, m at next level, right associativity) : go_scope.
Notation "m ;;; k" := (bind m (fun _ => k))
  (at level 100, right associativity) : go_scope.

Definition emit {W} (e : Event) : M W unit :=
  fun s => Returns tt (mkState (fw s) (os s) (trace s ++ [e])).

Definition mu_Lock {W} : M W unit :=
  fun s => if mu (fw s) then Blocks
           else Returns tt
                  (mkState (mkForwarder (tcpListeners (fw s)) (udpListeners (fw s)) true)
                           (os s) (trace s ++ [EvLock])).

Definition mu_Unlock {W} : M W unit :=
  fun s => if mu (fw s)
           then Returns tt
                  (mkState (mkForwarder (tcpListeners (fw s)) (udpListeners (fw s)) false)
                           (os s) (trace s ++ [EvUnlock]))
           else Fatal.

(** [f.mu.Lock(); defer f.mu.Unlock()] around a function body: the unlock
    runs when the body returns, whatever its return statement. *)
Definition locked {W A} (body : M W A) : M W A :=
  (mu_Lock ;;; r <- body ;; mu_Unlock ;;; ret r)%go.

Definition lookup_tcp {W} (key : string) : M W (option Listener) :=
  fun s => Returns (tcpListeners (fw s) !! key)
                   (mkState (fw s) (os s) (trace s ++ [EvLookup TCP key])).

Definition lookup_udp {W} (key : string) : M W (option UDPConn) :=
  fun s => Returns (udpListeners (fw s) !! key)
                   (mkState (fw s) (os s) (trace s ++ [EvLookup UDP key])).

Definition insert_tcp {W} (key : string) (l : Listener) : M W unit :=
  fun s => Returns tt
             (mkState (mkForwarder (<[key := l]> (tcpListeners (fw s)))
                                   (udpListeners (fw s)) (mu (fw s)))
                      (os s) (trace s ++ [EvInsert TCP key])).

Definition insert_udp {W} (key : string) (c : UDPConn) : M W unit :=
  fun s => Returns tt
             (mkState (mkForwarder (tcpListeners (fw s))
                                   (<[key := c]> (udpListeners (fw s))) (mu (fw s)))
                      (os s) (trace s ++ [EvInsert UDP key])).

Definition delete_tcp {W} (key : string) : M W unit :=
  fun s => Returns tt
             (mkState (mkForwarder (delete key (tcpListeners (fw s)))
                                   (udpListeners (fw s)) (mu (fw s)))
                      (os s) (trace s ++ [EvDelete TCP key])).

Definition delete_udp {W} (key : string) : M W unit :=
  fun s => Returns tt
             (mkState (mkForwarder (tcpListeners (fw s))
                                   (delete key (udpListeners (fw s))) (mu (fw s)))
                      (os s) (trace s ++ [EvDelete UDP key])).

(** A call into package [net]: it acts on the operating system's state only
    and is logged. *)
Definition syscall {W A} (c : IOCall) (f : W -> A * W) : M W A :=
  fun s => let r := f (os s) in
           Returns r.1 (mkState (fw s) r.2 (trace s ++ [EvIO c])).

Definition go_ {W} (g : Goroutine) : M W unit := emit (EvGo g).
Definition log_Printf {W} (msg : string) : M W unit := emit (EvLog msg).

(** [fmt.Sprintf("tcp:%s:%s", listenAddr, listenPort)] and its UDP twin. *)
Definition tcp_key (listenAddr listenPort : string) : string :=
  "tcp:" +:+ listenAddr +:+ ":" +:+ listenPort.

Definition udp_key (listenAddr listenPort : string) : string :=
  "udp:" +:+ listenAddr +:+ ":" +:+ listenPort.

(** [fmt.Sprintf("%s:%s", addr, port)]. *)
Definition host_port (addr port : string) : string := addr +:+ ":" +:+ port.

Arguments tcp_key : simpl never.
Arguments udp_key : simpl never.
Arguments host_port : simpl never.

Section Registry.
Context {W : Type} {net : Net W}.

Definition StartTCPForward (listenAddr listenPort targetAddr targetPort : string)
  : M W (option error) :=
  let key := tcp_key listenAddr listenPort in
  locked (
    found <- lookup_tcp key ;;
    match found with
    | Some _ =>
        ret (Some (Errorf ("TCP forward already running on "
                             +:+ listenAddr +:+ ":" +:+ listenPort)))
    | None =>
        let addr := host_port listenAddr listenPort in
        r <- syscall (IOListen "tcp" addr) (net_Listen "tcp" addr) ;;
        match r with
        | Err err => ret (Some (Wrapf ("failed to listen on " +:+ addr) err))
        | Ok listener =>
            insert_tcp key listener ;;;
            go_ (GoHandleTCPForward listener targetAddr targetPort) ;;;
            log_Printf ("Started TCP forward: " +:+ listenAddr +:+ ":" +:+ listenPort
                          +:+ " -> " +:+ targetAddr +:+ ":" +:+ targetPort) ;;;
            ret None
        end
    end)%go.

Definition StopTCPForward (listenAddr listenPort : string) : M W (option error) :=
  let key := tcp_key listenAddr listenPort in
  locked (
    found <- lookup_tcp key ;;
    match found with
    | None =>
        ret (Some (Errorf ("TCP forward not running on "
                             +:+ listenAddr +:+ ":" +:+ listenPort)))
    | Some listener =>
        r <- syscall (IOListenerClose listener) (Listener_Close listener) ;;
        match r with
        | Some err => ret (Some (Wrapf "failed to close listener" err))
        | None =>
            delete_tcp key ;;;
            log_Printf ("Stopped TCP forward: " +:+ listenAddr +:+ ":" +:+ listenPort) ;;;
            ret None
        end
    end)%go.

Definition StartUDPForward (listenAddr listenPort targetAddr targetPort : string)
  : M W (option error) :=
  let key := udp_key listenAddr listenPort in
  locked (
    found <- lookup_udp key ;;
    match found with
    | Some _ =>
        ret (Some (Errorf ("UDP forward already running on "
                             +:+ listenAddr +:+ ":" +:+ listenPort)))
    | None =>
        let a := host_port listenAddr listenPort in
        r <- syscall (IOResolveUDPAddr "udp" a) (net_ResolveUDPAddr "udp" a) ;;
        match r with
        | Err err => ret (Some (Wrapf "failed to resolve listen address" err))
        | Ok addr =>
            r' <- syscall (IOListenUDP "udp" addr) (net_ListenUDP "udp" addr) ;;
            match r' with
            | Err err =>
                ret (Some (Wrapf ("failed to listen on "
                                    +:+ listenAddr +:+ ":" +:+ listenPort) err))
            | Ok conn =>
                insert_udp key conn ;;;
                go_ (GoHandleUDPForward conn targetAddr targetPort) ;;;
                log_Printf ("Started UDP forward: " +:+ listenAddr +:+ ":" +:+ listenPort
                              +:+ " -> " +:+ targetAddr +:+ ":" +:+ targetPort) ;;;
                ret None
            end
        end
    end)%go.

Definition StopUDPForward (listenAddr listenPort : string) : M W (option error) :=
  let key := udp_key listenAddr listenPort in
  locked (
    found <- lookup_udp key ;;
    match found with
    | None =>
        ret (Some (Errorf ("UDP forward not running on "
                             +:+ listenAddr +:+ ":" +:+ listenPort)))
    | Some conn =>
        r <- syscall (IOUDPConnClose conn) (UDPConn_Close conn) ;;
        match r with
        | Some err => ret (Some (Wrapf "failed to close UDP connection" err))
        | None =>
            delete_udp key ;;;
            log_Printf ("Stopped UDP forward: " +:+ listenAddr +:+ ":" +:+ listenPort) ;;;
            ret None
        end
    end)%go.

Definition IsTCPRunning (listenAddr listenPort : string) : M W bool :=
  let key := tcp_key listenAddr listenPort in
  locked (found <- lookup_tcp key ;; ret (bool_decide (is_Some found)))%go.

Definition IsUDPRunning (listenAddr listenPort : string) : M W bool :=
  let key := udp_key listenAddr listenPort in
  locked (found <- lookup_udp key ;; ret (bool_decide (is_Some found)))%go.

End Registry.

(** ** Events of a call and the lock *)

(** The network calls of a trace that execute while the mutex is held;
    [held] is the state of the mutex before the first event. *)
Fixpoint io_while_locked (held : bool) (t : list Event) : list IOCall :=
  match t with
  | [] => []
  | EvLock :: t' => io_while_locked true t'
  | EvUnlock :: t' => io_while_locked false t'
  | EvIO c :: t' =>
      if held then c :: io_while_locked held t' else io_while_locked held t'
  | _ :: t' => io_while_locked held t'
  end.

(** All network calls of a trace. *)
Fixpoint io_calls (t : list Event) : list IOCall :=
  match t with
  | [] => []
  | EvIO c :: t' => c :: io_calls t'
  | _ :: t' => io_calls t'
  end.

Definition is_lock_event (e : Event) : bool :=
  match e with
  | EvLock | EvUnlock => true
  | _ => false
  end.

(** A trace that is one critical section: lock, a body without lock
    operations, unlock. *)
Definition one_critical_section (t body : list Event) : Prop :=
  t = EvLock :: body ++ [EvUnlock] /\ forallb (fun e => negb (is_lock_event e)) body = true.

(** The body of a trace that is one critical section, computed. *)
Fixpoint body_until_unlock (t : list Event) : option (list Event) :=
  match t with
  | [] => None
  | [EvUnlock] => Some []
  | e :: t' =>
      if is_lock_event e then None
      else match body_until_unlock t' with
           | Some b => Some (e :: b)
           | None => None
           end
  end.

Definition critical_body (t : list Event) : option (list Event) :=
  match t with
  | EvLock :: t' => body_until_unlock t'
  | _ => None
  end.

(** ** Session keys and port strings *)

Definition is_colon (c : Ascii.ascii) : bool := Ascii.eqb c ":"%char.

Fixpoint has_colon (s : string) : bool :=
  match s with
  | EmptyString => false
  | String c s' => is_colon c || has_colon s'
  end.

(** Splits [host:port] at its last colon. *)
Fixpoint split_last_colon (s : string) : option (string * string) :=
  match s with
  | EmptyString => None
  | String c s' =>
      match split_last_colon s' with
      | Some (h, p) => Some (String c h, p)
      | None => if is_colon c then Some (EmptyString, s') else None
      end
  end.

Definition digit_of (c : Ascii.ascii) : option N :=
  let n := Ascii.N_of_ascii c in
  if (48 <=? n)%N && (n <=? 57)%N then Some (n - 48)%N else None.

Fixpoint parse_digits (acc : N) (s : string) : option N :=
  match s with
  | EmptyString => Some acc
  | String c s' =>
      match digit_of c with
      | Some d => parse_digits (acc * 10 + d)%N s'
      | None => None
      end
  end.

(** The number a non-empty string of decimal digits denotes. *)
Definition parse_port (s : string) : option N :=
  match s with
  | EmptyString => None
  | _ => parse_digits 0%N s
  end.

(** The port strings the specification calls valid: numeric and in the
    range 1 to 65535. *)
Definition spec_valid_port (s : string) : bool :=
  match parse_port s with
  | Some n => (1 <=? n)%N && (n <=? 65535)%N
  | None => false
  end.

(** ** A sample network

    An implementation of [Net] on which the operations can be run: a table
    of open sockets.  As with Go's [net.Listen], the port of an address is
    a decimal number from 0 to 65535, and port 0 asks for a free port
    chosen by the system, so it is never in use.  [close_faults] lists the
    sockets whose close the system reports as failed. *)

Record SimWorld : Type := mkSim {
  next_fd : nat;
  open_fds : list (nat * (string * string * N));
  close_faults : list nat
}.

Definition sim_resolve (address : string) : result (string * N) :=
  match split_last_colon address with
  | None => Err (NetError "missing port in address")
  | Some (h, p) =>
      match parse_port p with
      | None => Err (NetError "unknown port")
      | Some n => if (n <=? 65535)%N then Ok (h, n) else Err (NetError "invalid port")
      end
  end.

Definition sim_in_use (network host : string) (port : N) (w : SimWorld) : bool :=
  negb (port =? 0)%N &&
  existsb (fun e => String.eqb (e.2.1.1) network && String.eqb (e.2.1.2) host
                    && (e.2.2 =? port)%N)
          (open_fds w).

Definition sim_bind (network host : string) (port : N) (w : SimWorld) : result nat * SimWorld :=
  if sim_in_use network host port w
  then (Err (NetError "bind: address already in use"), w)
  else (Ok (next_fd w),
        mkSim (S (next_fd w)) ((next_fd w, (network, host, port)) :: open_fds w)
              (close_faults w)).

Definition sim_close (fd : nat) (w : SimWorld) : option error * SimWorld :=
  if existsb (Nat.eqb fd) (close_faults w)
  then (Some (NetError "close: input/output error"), w)
  else if existsb (fun e => Nat.eqb fd e.1) (open_fds w)
  then (None, mkSim (next_fd w)
                    (filter (fun e => negb (Nat.eqb fd e.1)) (open_fds w))
                    (close_faults w))
  else (Some (NetError "use of closed network connection"), w).

#[export] Instance SimNet : Net SimWorld := {|
  net_Listen network address w :=
    match sim_resolve address with
    | Err e => (Err e, w)
    | Ok (h, n) =>
        match sim_bind network h n w with
        | (Ok fd, w') => (Ok (ListenerFD fd), w')
        | (Err e, w') => (Err e, w')
        end
    end;
  Listener_Close l w := match l with ListenerFD fd => sim_close fd w end;
  net_ResolveUDPAddr network address w :=
    match sim_resolve address with
    | Err e => (Err e, w)
    | Ok (h, n) => (Ok (mkUDPAddr h (Z.of_N n)), w)
    end;
  net_ListenUDP network laddr w :=
    match sim_bind network (IP laddr) (Z.to_N (Port laddr)) w with
    | (Ok fd, w') => (Ok (UDPConnFD fd), w')
    | (Err e, w') => (Err e, w')
    end;
  UDPConn_Close c w := match c with UDPConnFD fd => sim_close fd w end
|}.

Definition sim_empty : SimWorld := mkSim 3 [] [].

(** The same network, where the close of the first socket will fail. *)
Definition sim_close_fails : SimWorld := mkSim 3 [] [3].

(** The state of a freshly started process. *)
Definition init {W} (w : W) : State W := mkState NewForwarder w [].

(** ** The per-connection handler and its byte pump

    The goroutine [handleTCPForward] launches for an accepted connection:
    it dials the target, runs [forwardData] and, when that returns, the
    deferred closes.  The handler is driven by the results of its blocking
    calls; an event that does not answer a call in progress is refused. *)

Module TCPRelay.

Definition io_EOF : error := NetError "EOF".

(** The two goroutines of [forwardData]. *)
Inductive Dir : Type :=
| SrcToDst   (* reads [src], the accepted connection; writes [dst] *)
| DstToSrc.  (* reads [dst], the target connection; writes [src] *)

Inductive CopyTask : Type :=
| InRead                            (* blocked in [Read(buf)] *)
| InWrite (data : list Byte.byte)   (* in [Write(buf[:n])] *)
| Exited.                           (* left its loop; [wg.Done()] ran *)

Inductive ConnEvent : Type :=
| DialReturns (err : option error)
| ReadReturns (d : Dir) (data : list Byte.byte) (err : option error)
| WriteReturns (d : Dir) (err : option error).

(** [n, err := Read(buf)], [data] being the [n] bytes read:
    [if err != nil { break }; if n > 0 { Write(buf[:n]) }]. *)
Definition after_read (data : list Byte.byte) (err : option error) : CopyTask :=
  match err with
  | Some _ => Exited
  | None => if (0 <? length data)%nat then InWrite data else InRead
  end.

(** [if _, err := Write(buf[:n]); err != nil { break }]. *)
Definition after_write (err : option error) : CopyTask :=
  match err with
  | Some _ => Exited
  | None => InRead
  end.

Record Pump : Type := mkPump {
  src_to_dst : CopyTask;
  dst_to_src : CopyTask;
  dst_written : list Byte.byte;   (* bytes delivered to the target *)
  src_written : list Byte.byte    (* bytes delivered to the client *)
}.

Definition task (d : Dir) (p : Pump) : CopyTask :=
  match d with
  | SrcToDst => src_to_dst p
  | DstToSrc => dst_to_src p
  end.

Definition is_exited (t : CopyTask) : bool :=
  match t with
  | Exited => true
  | _ => false
  end.

(** [wg.Wait()] returns once both goroutines have called [wg.Done()]. *)
Definition wait_returns (p : Pump) : bool :=
  is_exited (src_to_dst p) && is_exited (dst_to_src p).

Definition forwardData_start : Pump := mkPump InRead InRead [] [].

Definition forwardData_step (p : Pump) (ev : ConnEvent) : option Pump :=
  match ev with
  | DialReturns _ => None
  | ReadReturns SrcToDst data err =>
      match src_to_dst p with
      | InRead => Some (mkPump (after_read data err) (dst_to_src p)
                               (dst_written p) (src_written p))
      | _ => None
      end
  | ReadReturns DstToSrc data err =>
      match dst_to_src p with
      | InRead => Some (mkPump (src_to_dst p) (after_read data err)
                               (dst_written p) (src_written p))
      | _ => None
      end
  | WriteReturns SrcToDst err =>
      match src_to_dst p with
      | InWrite data =>
          Some (mkPump (after_write err) (dst_to_src p)
                       (match err with Some _ => dst_written p | None => dst_written p ++ data end)
                       (src_written p))
      | _ => None
      end
  | WriteReturns DstToSrc err =>
      match dst_to_src p with
      | InWrite data =>
          Some (mkPump (src_to_dst p) (after_write err)
                       (dst_written p)
                       (match err with Some _ => src_written p | None => src_written p ++ data end))
      | _ => None
      end
  end.

Inductive Stage : Type :=
| Dialing      (* in [net.Dial("tcp", target)] *)
| Forwarding   (* in [forwardData(conn, targetConn)] *)
| Finished.    (* returned; the deferred closes have run *)

Record Handler : Type := mkHandler {
  stage : Stage;
  conn_open : bool;         (* the accepted connection *)
  targetConn_open : bool;   (* the connection to the target *)
  pump : Pump;
  logged : list string
}.

(** The handler as it is launched, holding the accepted connection. *)
Definition accepted : Handler :=
  mkHandler Dialing true false forwardData_start [].

Definition handler_step (target : string) (h : Handler) (ev : ConnEvent)
  : option Handler :=
  match stage h with
  | Dialing =>
      match ev with
      | DialReturns (Some _) =>
          (* log, return; [defer conn.Close()] runs *)
          Some (mkHandler Finished false false (pump h)
                  (logged h ++ ["Error connecting to target " +:+ target]))
      | DialReturns None =>
          Some (mkHandler Forwarding true true forwardData_start (logged h))
      | _ => None
      end
  | Forwarding =>
      match forwardData_step (pump h) ev with
      | None => None
      | Some p =>
          if wait_returns p
          then (* [forwardData] returns; [targetConn.Close()] and
                  [conn.Close()] run *)
            Some (mkHandler Finished false false p (logged h))
          else Some (mkHandler Forwarding (conn_open h) (targetConn_open h) p (logged h))
      end
  | Finished => None
  end.

Fixpoint handler_run (target : string) (h : Handler) (evs : list ConnEvent)
  : option Handler :=
  match evs with
  | [] => Some h
  | ev :: evs' =>
      match handler_step target h ev with
      | Some h' => handler_run target h' evs'
      | None => None
      end
  end.

(** Direction [d] has seen a read or a write come back with an error
    (end of stream is the error [io.EOF]). *)
Definition fails_in (d : Dir) (ev : ConnEvent) : bool :=
  match ev, d with
  | ReadReturns SrcToDst _ (Some _), SrcToDst
  | ReadReturns DstToSrc _ (Some _), DstToSrc
  | WriteReturns SrcToDst (Some _), SrcToDst
  | WriteReturns DstToSrc (Some _), DstToSrc => true
  | _, _ => false
  end.

Definition dir_failed (d : Dir) (evs : list ConnEvent) : bool :=
  existsb (fails_in d) evs.

(** What holds of the handler once the dial has succeeded: inside
    [forwardData] both connections are open and a copy task is still in
    its loop; after it, both tasks have left and both closes have run. *)
Definition dialed_inv (h : Handler) : Prop :=
  match stage h with
  | Dialing => False
  | Forwarding =>
      conn_open h = true /\ targetConn_open h = true /\ wait_returns (pump h) = false
  | Finished =>
      conn_open h = false /\ targetConn_open h = false /\ wait_returns (pump h) = true
  end.

End TCPRelay.

(** ** The datagram relay

    [handleUDPForward], driven by what the network answers: the result of
    resolving the target, and the datagrams (or the error) its reads on
    the bound socket return, each datagram with the result of the write
    that forwards it. *)

Module UDPRelay.

Inductive Recv : Type :=
| RecvError (e : error)
| Datagram (payload : list Byte.byte) (from : UDPAddr) (werr : option error).

Record Answers : Type := mkAnswers {
  resolved : result UDPAddr;
  inbox : list Recv
}.

Inductive RelayEvent : Type :=
| RResolve (network address : string)
| RReadFrom (c : UDPConn) (n : nat) (from : UDPAddr)
| RReadFailed (c : UDPConn)
| RWriteTo (c : UDPConn) (payload : list Byte.byte) (to : UDPAddr)
| RGoReply (c : UDPConn) (clientAddr target : UDPAddr)
| RLog (msg : string) (err : error).

Inductive Status : Type :=
| Returned        (* the goroutine is over *)
| BlockedInRead.  (* waiting in [conn.ReadFromUDP] *)

(** [make([]byte, n)]. *)
Definition make (n : nat) : list Byte.byte := replicate n Byte.x00.

Definition buf_len : nat := Z.to_nat 65535.

(** [n, addr, err := conn.ReadFromUDP(buf)] on a datagram [dg]: the
    first [n] bytes of [buf] are overwritten. *)
Definition ReadFromUDP (buf dg : list Byte.byte) : nat * list Byte.byte :=
  let n := Nat.min (length dg) (length buf) in
  (n, take n dg ++ drop n buf).
Arguments ReadFromUDP : simpl never.

Fixpoint receive_loop (conn : UDPConn) (target : UDPAddr)
    (buf : list Byte.byte) (inbox : list Recv) : list RelayEvent * Status :=
  match inbox with
  | [] => ([], BlockedInRead)
  | RecvError e :: _ =>
      ([RReadFailed conn; RLog "Error reading UDP data" e], Returned)
  | Datagram dg from werr :: rest =>
      let '(n, buf') := ReadFromUDP buf dg in
      let '(t, st) := receive_loop conn target buf' rest in
      match werr with
      | Some e =>
          (RReadFrom conn n from :: RWriteTo conn (take n buf') target
             :: RLog "Error forwarding UDP data" e :: t, st)
      | None =>
          (RReadFrom conn n from :: RWriteTo conn (take n buf') target
             :: RGoReply conn from target :: t, st)
      end
  end.

(** The receiver [f] is passed along: the goroutine has it in hand. *)
Definition handleUDPForward (f : Forwarder) (conn : UDPConn)
    (targetAddr targetPort : string) (env : Answers)
  : Forwarder * list RelayEvent * Status :=
  let a := host_port targetAddr targetPort in
  match resolved env with
  | Err e => (f, [RResolve "udp" a; RLog "Error resolving target address" e], Returned)
  | Ok target =>
      let '(t, st) := receive_loop conn target (make buf_len) (inbox env) in
      (f, RResolve "udp" a :: t, st)
  end.

(** Projections of a relay trace. *)
Definition resolves (t : list RelayEvent) : list string :=
  omap (fun e => match e with RResolve _ a => Some a | _ => None end) t.

Definition writes (t : list RelayEvent)
  : list (UDPConn * list Byte.byte * UDPAddr) :=
  omap (fun e => match e with RWriteTo c p a => Some (c, p, a) | _ => None end) t.

Definition reads (t : list RelayEvent) : list (UDPConn * UDPAddr) :=
  omap (fun e => match e with RReadFrom c _ a => Some (c, a) | _ => None end) t.

Definition replies (t : list RelayEvent) : list UDPAddr :=
  omap (fun e => match e with RGoReply _ a _ => Some a | _ => None end) t.

(** The datagrams read before the first failed read. *)
Fixpoint received (inbox : list Recv) : list (list Byte.byte * UDPAddr * option error) :=
  match inbox with
  | Datagram dg from werr :: rest => (dg, from, werr) :: received rest
  | _ => []
  end.

Definition is_RecvError (r : Recv) : bool :=
  match r with
  | RecvError _ => true
  | Datagram _ _ _ => false
  end.

End UDPRelay.

(** ** Names for what the operations return

    The errors of the operations, under the names of the error taxonomy. *)

Definition AlreadyRunning (p : Proto) (listenAddr listenPort : string) : error :=
  match p with
  | TCP => Errorf ("TCP forward already running on " +:+ listenAddr +:+ ":" +:+ listenPort)
  | UDP => Errorf ("UDP forward already running on " +:+ listenAddr +:+ ":" +:+ listenPort)
  end.

Definition NotRunning (p : Proto) (listenAddr listenPort : string) : error :=
  match p with
  | TCP => Errorf ("TCP forward not running on " +:+ listenAddr +:+ ":" +:+ listenPort)
  | UDP => Errorf ("UDP forward not running on " +:+ listenAddr +:+ ":" +:+ listenPort)
  end.

Definition BindFailed (listenAddr listenPort : string) (cause : error) : error :=
  Wrapf ("failed to listen on " +:+ listenAddr +:+ ":" +:+ listenPort) cause.

Definition ResolveFailed (cause : error) : error :=
  Wrapf "failed to resolve listen address" cause.

Definition CloseFailed (p : Proto) (cause : error) : error :=
  match p with
  | TCP => Wrapf "failed to close listener" cause
  | UDP => Wrapf "failed to close UDP connection" cause
  end.

Definition is_CloseFailed (r : option error) : bool :=
  match r with
  | Some (Wrapf msg _) =>
      String.eqb msg "failed to close listener"
      || String.eqb msg "failed to close UDP connection"
  | _ => false
  end.

Definition is_Ok {A} (r : result A) : bool :=
  match r with
  | Ok _ => true
  | Err _ => false
  end.

(** The value a call returned. *)
Definition returned {W A} (o : Outcome W A) : option A :=
  match o with
  | Returns a _ => Some a
  | _ => None
  end.

(** The events a call added to the trace. *)
Definition emitted {W} (s s' : State W) : list Event :=
  drop (length (trace s)) (trace s').

(** The bind of the TCP start succeeds in the network state [w]. *)
Definition tcp_bind_ok {W} {net : Net W} (listenAddr listenPort : string) (w : W) : bool :=
  is_Ok (net_Listen "tcp" (host_port listenAddr listenPort) w).1.

(** The resolution and the bind of the UDP start succeed in [w]. *)
Definition udp_bind_ok {W} {net : Net W} (listenAddr listenPort : string) (w : W) : bool :=
  match net_ResolveUDPAddr "udp" (host_port listenAddr listenPort) w with
  | (Ok addr, w') => is_Ok (net_ListenUDP "udp" addr w').1
  | (Err _, _) => false
  end.

(** The whole call is one critical section, so every network call it makes
    is made with the mutex held. *)
Definition whole_call_locked (t : list Event) : Prop :=
  exists body, one_critical_section t body /\ io_while_locked false t = io_calls body.

(** ** Sequences of registry calls

    The HTTP layer calls the six operations in any order; a run of calls
    is what the registry sees over the life of the process. *)

Inductive Call : Type :=
| CallStartTCPForward (listenAddr listenPort targetAddr targetPort : string)
| CallStopTCPForward (listenAddr listenPort : string)
| CallStartUDPForward (listenAddr listenPort targetAddr targetPort : string)
| CallStopUDPForward (listenAddr listenPort : string)
| CallIsTCPRunning (listenAddr listenPort : string)
| CallIsUDPRunning (listenAddr listenPort : string).

Inductive Reply : Type :=
| ReplyError (err : option error)
| ReplyBool (b : bool).

Definition call {W} {net : Net W} (c : Call) : M W Reply :=
  match c with
  | CallStartTCPForward la lp ta tp =>
      (r <- StartTCPForward la lp ta tp ;; ret (ReplyError r))%go
  | CallStopTCPForward la lp =>
      (r <- StopTCPForward la lp ;; ret (ReplyError r))%go
  | CallStartUDPForward la lp ta tp =>
      (r <- StartUDPForward la lp ta tp ;; ret (ReplyError r))%go
  | CallStopUDPForward la lp =>
      (r <- StopUDPForward la lp ;; ret (ReplyError r))%go
  | CallIsTCPRunning la lp =>
      (b <- IsTCPRunning la lp ;; ret (ReplyBool b))%go
  | CallIsUDPRunning la lp =>
      (b <- IsUDPRunning la lp ;; ret (ReplyBool b))%go
  end.

Fixpoint calls {W} {net : Net W} (cs : list Call) : M W (list Reply) :=
  match cs with
  | [] => ret []
  | c :: cs' => (r <- call c ;; rs <- calls cs' ;; ret (r :: rs))%go
  end.

Definition is_start (p : Proto) (c : Call) : bool :=
  match c, p with
  | CallStartTCPForward _ _ _ _, TCP | CallStartUDPForward _ _ _ _, UDP => true
  | _, _ => false
  end.

Definition is_stop (p : Proto) (c : Call) : bool :=
  match c, p with
  | CallStopTCPForward _ _, TCP | CallStopUDPForward _ _, UDP => true
  | _, _ => false
  end.

Definition succeeded (r : Reply) : bool :=
  match r with
  | ReplyError None => true
  | _ => false
  end.

(** How many starts (stops) of protocol [p] returned without error. *)
Fixpoint count_started (p : Proto) (cs : list Call) (rs : list Reply) : nat :=
  match cs, rs with
  | c :: cs', r :: rs' =>
      (if is_start p c && succeeded r then 1 else 0) + count_started p cs' rs'
  | _, _ => 0
  end.

Fixpoint count_stopped (p : Proto) (cs : list Call) (rs : list Reply) : nat :=
  match cs, rs with
  | c :: cs', r :: rs' =>
      (if is_stop p c && succeeded r then 1 else 0) + count_stopped p cs' rs'
  | _, _ => 0
  end.

(** The number of sessions of protocol [p]. *)
Definition sessions (p : Proto) (f : Forwarder) : nat :=
  match p with
  | TCP => size (tcpListeners f)
  | UDP => size (udpListeners f)
  end.

(** ** The accept loop

    [handleTCPForward], driven by what its calls to [listener.Accept]
    return.  A temporary error is one whose [net.Error] reports
    [Temporary()]. *)

Module TCPAccept.




Inductive Status : Type :=
| Returned          (* the loop was left with [break] *)
| BlockedInAccept.  (* waiting in [listener.Accept()] *)






End TCPAccept.

(** ** Bytes through the pump *)

Module PumpData.
Import TCPRelay.

(** The bytes direction [d] has delivered to the side it writes. *)
Definition written (d : Dir) (p : Pump) : list Byte.byte :=
  match d with
  | SrcToDst => dst_written p
  | DstToSrc => src_written p
  end.

(** The chunk direction [d] is writing. *)
Definition in_flight (d : Dir) (p : Pump) : list Byte.byte :=
  match task d p with
  | InWrite data => data
  | _ => []
  end.

Definition dir_eqb (d d' : Dir) : bool :=
  match d, d' with
  | SrcToDst, SrcToDst | DstToSrc, DstToSrc => true
  | _, _ => false
  end.

(** The bytes a read of direction [d] handed over without an error. *)
Definition read_of (d : Dir) (ev : ConnEvent) : list Byte.byte :=
  match ev with
  | ReadReturns d' data None => if dir_eqb d d' then data else []
  | _ => []
  end.

Fixpoint bytes_read (d : Dir) (evs : list ConnEvent) : list Byte.byte :=
  match evs with
  | [] => []
  | ev :: evs' => read_of d ev ++ bytes_read d evs'
  end.

Definition is_failed_write (d : Dir) (ev : ConnEvent) : bool :=
  match ev with
  | WriteReturns d' (Some _) => dir_eqb d d'
  | _ => false
  end.

Definition write_failed (d : Dir) (evs : list ConnEvent) : bool :=
  existsb (is_failed_write d) evs.

End PumpData.

(** ** Rules, templates and their storage (storage.go)

    The data the HTTP layer keeps: the rule list and the template list,
    held in package variables and written through to one JSON file.  The
    file system and the JSON codec are an interface ([Store]): [D] is the
    state of the disk, [B] the type of file contents. *)

Record Rule : Type := mkRule {
  ID : string;
  Seq : Z;
  ListenAddr : string;
  ListenPort : string;
  TargetAddr : string;
  TargetPort : string
}.

Record Template : Type := mkTemplate {
  Name : string;
  Rules : list string;   (* rule IDs *)
  CreatedAt : string
}.

Module AppData.
Record t : Type := mk {
  Rules : list Rule;
  Templates : list Template
}.
End AppData.

Record Storage : Type := mkStorage { dataFile : string }.

(** [err.Error()] of an error built with ["...: %w"]. *)
Fixpoint Error (e : error) : string :=
  match e with
  | NetError msg => msg
  | Errorf msg => msg
  | Wrapf msg cause => msg +:+ ": " +:+ Error cause
  end.

Class Store (D B : Type) : Type := {
  (* [_, err := os.Stat(path); os.IsNotExist(err)] *)
  os_Stat_IsNotExist : string -> D -> bool;
  os_ReadFile : string -> D -> result B;
  os_WriteFile : string -> B -> D -> option error * D;
  json_Unmarshal : B -> result AppData.t;
  json_MarshalIndent : AppData.t -> result B
}.

Inductive LogLine : Type :=
| LogSaved (nrules ntemplates : nat)   (* "Saved app data: %d rules, %d templates" *)
| LogLoadedRules (n : nat)             (* "Loaded %d rules" *)
| LogLoadedTemplates (n : nat)         (* "Loaded %d templates" *)
| LogText (msg : string).

Section StorageOps.
Context {D B : Type} {store : Store D B}.

Definition loadAppData (s : Storage) (d : D) : result AppData.t :=
  if os_Stat_IsNotExist (dataFile s) d
  then Ok (AppData.mk [] [])
  else match os_ReadFile (dataFile s) d with
       | Err err => Err (Wrapf "failed to read data file" err)
       | Ok data =>
           match json_Unmarshal data with
           | Err err => Err (Wrapf "failed to unmarshal app data" err)
           | Ok appData => Ok appData
           end
       end.

Definition saveAppData (s : Storage) (appData : AppData.t) (d : D)
  : option error * D * list LogLine :=
  match json_MarshalIndent appData with
  | Err err => (Some (Wrapf "failed to marshal app data" err), d, [])
  | Ok data =>
      match os_WriteFile (dataFile s) data d with
      | (Some err, d') => (Some (Wrapf "failed to write data file" err), d', [])
      | (None, d') =>
          (None, d', [LogSaved (length (AppData.Rules appData))
                               (length (AppData.Templates appData))])
      end
  end.

Definition SaveRules (s : Storage) (rules : list Rule) (d : D)
  : option error * D * list LogLine :=
  match loadAppData s d with
  | Err err => (Some err, d, [])
  | Ok appData => saveAppData s (AppData.mk rules (AppData.Templates appData)) d
  end.

Definition LoadRules (s : Storage) (d : D) : result (list Rule) * list LogLine :=
  match loadAppData s d with
  | Err err => (Err err, [])
  | Ok appData =>
      (Ok (AppData.Rules appData), [LogLoadedRules (length (AppData.Rules appData))])
  end.

Definition SaveTemplates (s : Storage) (templates : list Template) (d : D)
  : option error * D * list LogLine :=
  match loadAppData s d with
  | Err err => (Some err, d, [])
  | Ok appData => saveAppData s (AppData.mk (AppData.Rules appData) templates) d
  end.

Definition LoadTemplates (s : Storage) (d : D) : result (list Template) * list LogLine :=
  match loadAppData s d with
  | Err err => (Err err, [])
  | Ok appData =>
      (Ok (AppData.Templates appData),
       [LogLoadedTemplates (length (AppData.Templates appData))])
  end.

End StorageOps.

(** ** The rule and template handlers (main.go)

    The package variables [storage], [rules] and [templates], with the
    disk and the log the handlers write to.  A handler receives the
    request's method and the result of decoding its JSON body, and
    returns the response it writes. *)

Record Globals (D : Type) : Type := mkGlobals {
  storage : Storage;
  rules : list Rule;
  templates : list Template;
  disk : D;
  logs : list LogLine
}.
Arguments mkGlobals {D} storage rules templates disk logs.
Arguments storage {D} g.
Arguments rules {D} g.
Arguments templates {D} g.
Arguments disk {D} g.
Arguments logs {D} g.

(** A sample store: the disk maps a path to the contents written there.
    Contents are either a marshalled value, kept as the value itself, or
    bytes that are no JSON. *)
Inductive MemBytes : Type :=
| Marshalled (a : AppData.t)
| Garbage.

#[export] Instance MemStore : Store (list (string * MemBytes)) MemBytes := {|
  os_Stat_IsNotExist path d :=
    negb (existsb (fun e => String.eqb e.1 path) d);
  os_ReadFile path d :=
    match find (fun e => String.eqb e.1 path) d with
    | Some e => Ok e.2
    | None => Err (NetError "no such file or directory")
    end;
  os_WriteFile path data d :=
    (None, (path, data) :: filter (fun e => negb (String.eqb e.1 path)) d);
  json_Unmarshal data :=
    match data with
    | Marshalled a => Ok a
    | Garbage => Err (NetError "invalid character")
    end;
  json_MarshalIndent appData := Ok (Marshalled appData)
|}.

(** Package variables of a process started on an empty disk. *)
Definition fresh_globals : Globals (list (string * MemBytes)) :=
  mkGlobals (mkStorage "db/data.json") [] [] [] [].

Inductive Response : Type :=
| http_Error (msg : string) (code : Z)
| json_success                            (* [{"success": true}] *)
| json_success_rules (rs : list Rule).    (* [{"success": true, "rules": ...}] *)

(** Go's [int], 64 bits wide, wrapping on overflow. *)
Definition int_min : Z := - 2 ^ 63.
Definition int_max : Z := 2 ^ 63 - 1.
Definition int_wrap (z : Z) : Z := ((z - int_min) mod 2 ^ 64 + int_min)%Z.

(** [for _, x := range ids { if id == x { found = true; break } }]. *)
Fixpoint contains (id : string) (ids : list string) : bool :=
  match ids with
  | [] => false
  | x :: rest => if String.eqb id x then true else contains id rest
  end.

(** The maximum of [maxSeq] and the [Seq] fields, as [apiAddRule] scans. *)
Fixpoint max_Seq (maxSeq : Z) (rs : list Rule) : Z :=
  match rs with
  | [] => maxSeq
  | rule :: rest =>
      max_Seq (if (Seq rule >? maxSeq)%Z then Seq rule else maxSeq) rest
  end.

(** The filter loop of [apiDeleteRules] over the rules. *)
Fixpoint keep_rules (ids : list string) (rs : list Rule) : list Rule :=
  match rs with
  | [] => []
  | rule :: rest =>
      if contains (ID rule) ids then keep_rules ids rest
      else rule :: keep_rules ids rest
  end.

(** Its filter loop over the rule IDs of one template. *)
Fixpoint keep_ids (ids : list string) (ruleIDs : list string) : list string :=
  match ruleIDs with
  | [] => []
  | ruleID :: rest =>
      if contains ruleID ids then keep_ids ids rest
      else ruleID :: keep_ids ids rest
  end.

(** [for i, template := range templates { ...; templates[i].Rules = ... }]. *)
Fixpoint strip_templates (ids : list string) (ts : list Template) : list Template :=
  match ts with
  | [] => []
  | template :: rest =>
      mkTemplate (Name template) (keep_ids ids (Rules template)) (CreatedAt template)
        :: strip_templates ids rest
  end.

(** The body of [apiUpdateRule]'s request. *)
Record UpdateRuleReq : Type := mkUpdateRuleReq {
  req_ID : string;
  req_ListenAddr : string;
  req_ListenPort : string;
  req_TargetAddr : string;
  req_TargetPort : string
}.

(** Its loop: the first rule with the ID gets the four fields, [break]. *)
Fixpoint update_rule (req : UpdateRuleReq) (rs : list Rule) : list Rule :=
  match rs with
  | [] => []
  | rule :: rest =>
      if String.eqb (ID rule) (req_ID req)
      then mkRule (ID rule) (Seq rule) (req_ListenAddr req) (req_ListenPort req)
                  (req_TargetAddr req) (req_TargetPort req) :: rest
      else rule :: update_rule req rest
  end.

(** The inner loop of [apiSaveAsTemplate]: [existing] is [template.Rules]
    of the loop variable, a copy taken before the first append; [cur] is
    [templates[i].Rules]. *)
Fixpoint add_new_ids (existing cur : list string) (newIDs : list string) : list string :=
  match newIDs with
  | [] => cur
  | newID :: rest =>
      if contains newID existing
      then add_new_ids existing cur rest
      else add_new_ids existing (cur ++ [newID]) rest
  end.

(** Its outer loop: the first template of that name is extended, [break];
    [None] when there is none ([exists] stays false). *)
Fixpoint extend_template (name : string) (newIDs : list string) (ts : list Template)
  : option (list Template) :=
  match ts with
  | [] => None
  | template :: rest =>
      if String.eqb (Name template) name
      then Some (mkTemplate (Name template)
                            (add_new_ids (Rules template) (Rules template) newIDs)
                            (CreatedAt template) :: rest)
      else match extend_template name newIDs rest with
           | Some rest' => Some (template :: rest')
           | None => None
           end
  end.

(** [for i, t := range templates { if t.Name == name { template =
    &templates[i]; break } }]. *)
Fixpoint find_template (name : string) (ts : list Template) : option Template :=
  match ts with
  | [] => None
  | t :: rest => if String.eqb (Name t) name then Some t else find_template name rest
  end.

(** [for _, rule := range rules { if rule.ID == ruleID { ...; break } }]. *)
Fixpoint find_rule (ruleID : string) (rs : list Rule) : option Rule :=
  match rs with
  | [] => None
  | rule :: rest => if String.eqb (ID rule) ruleID then Some rule else find_rule ruleID rest
  end.

(** The rules of a template, as [apiApplyTemplate] collects them. *)
Fixpoint template_rules (ruleIDs : list string) (rs : list Rule) : list Rule :=
  match ruleIDs with
  | [] => []
  | ruleID :: rest =>
      match find_rule ruleID rs with
      | Some rule => rule :: template_rules rest rs
      | None => template_rules rest rs
      end
  end.

(** The filter loop of [apiDeleteTemplate]. *)
Fixpoint drop_template (name : string) (ts : list Template) : list Template :=
  match ts with
  | [] => []
  | template :: rest =>
      if negb (String.eqb (Name template) name)
      then template :: drop_template name rest
      else drop_template name rest
  end.

(** The loop of [apiUpdateTemplate]: the first template named [oldName] is
    renamed, [break]; [None] when [updated] stays false. *)
Fixpoint rename_template (oldName newName : string) (ts : list Template)
  : option (list Template) :=
  match ts with
  | [] => None
  | template :: rest =>
      if String.eqb (Name template) oldName
      then Some (mkTemplate newName (Rules template) (CreatedAt template) :: rest)
      else match rename_template oldName newName rest with
           | Some rest' => Some (template :: rest')
           | None => None
           end
  end.

Section Handlers.
Context {D B : Type} {store : Store D B}.
Implicit Types (g : Globals D).

Definition log_line (l : LogLine) g : Globals D :=
  mkGlobals (storage g) (rules g) (templates g) (disk g) (logs g ++ [l]).

(** [if err := storage.SaveRules(rules); err != nil { log.Printf(...) }]. *)
Definition save_rules g : Globals D :=
  let r := SaveRules (storage g) (rules g) (disk g) in
  mkGlobals (storage g) (rules g) (templates g) r.1.2
    (logs g ++ r.2 ++
     match r.1.1 with
     | Some err => [LogText ("Failed to save rules: " +:+ Error err)]
     | None => []
     end).

(** [if err := storage.SaveTemplates(templates); err != nil { ... }]. *)
Definition save_templates g : Globals D :=
  let r := SaveTemplates (storage g) (templates g) (disk g) in
  mkGlobals (storage g) (rules g) (templates g) r.1.2
    (logs g ++ r.2 ++
     match r.1.1 with
     | Some err => [LogText ("Failed to save templates: " +:+ Error err)]
     | None => []
     end).

Definition set_rules (rs : list Rule) g : Globals D :=
  mkGlobals (storage g) rs (templates g) (disk g) (logs g).

Definition set_templates (ts : list Template) g : Globals D :=
  mkGlobals (storage g) (rules g) ts (disk g) (logs g).

Definition method_not_allowed : Response := http_Error "Method not allowed" 405.

(** The reply to a body that does not decode. *)
Definition invalid_body (err : error) g : Response * Globals D :=
  (http_Error "Invalid request body" 400,
   log_line (LogText ("Failed to decode request body: " +:+ Error err)) g).

(** [id] is what [uuid.New().String()] returns. *)
Definition apiAddRule (method : string) (id : string) g : Response * Globals D :=
  if negb (String.eqb method "POST") then (method_not_allowed, g)
  else
    let maxSeq := max_Seq 0 (rules g) in
    let seq := int_wrap (maxSeq + 1) in
    let newRule := mkRule id seq "" "" "" "" in
    (json_success, save_rules (set_rules (rules g ++ [newRule]) g)).

Definition apiDeleteRules (method : string) (body : result (list string)) g
  : Response * Globals D :=
  if negb (String.eqb method "POST") then (method_not_allowed, g)
  else match body with
       | Err err => invalid_body err g
       | Ok ids =>
           let g1 := save_rules (set_rules (keep_rules ids (rules g)) g) in
           let g2 := save_templates (set_templates (strip_templates ids (templates g1)) g1) in
           (json_success, g2)
       end.

Definition apiUpdateRule (method : string) (body : result UpdateRuleReq) g
  : Response * Globals D :=
  if negb (String.eqb method "POST") then (method_not_allowed, g)
  else match body with
       | Err err => invalid_body err g
       | Ok req => (json_success, save_rules (set_rules (update_rule req (rules g)) g))
       end.

(** The body is [(Name, IDs)]; [now] is
    [time.Now().Format("2006-01-02 15:04:05")]. *)
Definition apiSaveAsTemplate (method : string) (body : result (string * list string))
    (now : string) g : Response * Globals D :=
  if negb (String.eqb method "POST") then (method_not_allowed, g)
  else match body with
       | Err err => invalid_body err g
       | Ok (name, ids) =>
           let ts := match extend_template name ids (templates g) with
                     | Some ts' => ts'
                     | None => templates g ++ [mkTemplate name ids now]
                     end in
           (json_success, save_templates (set_templates ts g))
       end.

Definition apiApplyTemplate (method : string) (body : result string) g
  : Response * Globals D :=
  if negb (String.eqb method "POST") then (method_not_allowed, g)
  else match body with
       | Err err => invalid_body err g
       | Ok name =>
           match find_template name (templates g) with
           | None =>
               (http_Error "Template not found" 404,
                log_line (LogText ("Template " +:+ name +:+ " not found")) g)
           | Some template =>
               (json_success_rules (template_rules (Rules template) (rules g)), g)
           end
       end.

Definition apiDeleteTemplate (method : string) (body : result string) g
  : Response * Globals D :=
  if negb (String.eqb method "POST") then (method_not_allowed, g)
  else match body with
       | Err err => invalid_body err g
       | Ok name =>
           if String.eqb name ""
           then (http_Error "Template name is required" 400, g)
           else (json_success,
                 save_templates (set_templates (drop_template name (templates g)) g))
       end.

(** The body is [(OldName, NewName)]. *)
Definition apiUpdateTemplate (method : string) (body : result (string * string)) g
  : Response * Globals D :=
  if negb (String.eqb method "POST") then (method_not_allowed, g)
  else match body with
       | Err err => invalid_body err g
       | Ok (oldName, newName) =>
           if String.eqb oldName "" || String.eqb newName ""
           then (http_Error "Both old and new template names are required" 400, g)
           else match rename_template oldName newName (templates g) with
                | None =>
                    (http_Error "Template not found" 404,
                     log_line (LogText ("Template " +:+ oldName +:+ " not found")) g)
                | Some ts => (json_success, save_templates (set_templates ts g))
                end
       end.

(** [loadConfig]: a load that fails leaves the empty list. *)
Definition loadConfig g : Globals D :=
  let g0 := log_line (LogText "Loading configuration...") g in
  let r := LoadRules (storage g0) (disk g0) in
  let g1 :=
    match r.1 with
    | Ok rs => mkGlobals (storage g0) rs (templates g0) (disk g0) (logs g0 ++ r.2)
    | Err err =>
        mkGlobals (storage g0) [] (templates g0) (disk g0)
          (logs g0 ++ r.2 ++ [LogText ("Failed to load rules: " +:+ Error err)])
    end in
  let t := LoadTemplates (storage g1) (disk g1) in
  match t.1 with
  | Ok ts => mkGlobals (storage g1) (rules g1) ts (disk g1) (logs g1 ++ t.2)
  | Err err =>
      mkGlobals (storage g1) (rules g1) [] (disk g1)
        (logs g1 ++ t.2 ++ [LogText ("Failed to load templates: " +:+ Error err)])
  end.

End Handlers.

(** ** The template handlers that drive the registry (main.go) *)

Section TemplateForward.
Context {W : Type} {net : Net W}.

(** [for _, rule := range rules { if rule.ID == ruleID { start both;
    break } }]; the errors of the starts are dropped. *)
Fixpoint start_rule (ruleID : string) (rs : list Rule) : M W unit :=
  match rs with
  | [] => ret tt
  | rule :: rest =>
      if String.eqb (ID rule) ruleID
      then (StartTCPForward (ListenAddr rule) (ListenPort rule)
                            (TargetAddr rule) (TargetPort rule) ;;;
            StartUDPForward (ListenAddr rule) (ListenPort rule)
                            (TargetAddr rule) (TargetPort rule) ;;;
            ret tt)%go
      else start_rule ruleID rest
  end.

Fixpoint start_rules (ruleIDs : list string) (rs : list Rule) : M W unit :=
  match ruleIDs with
  | [] => ret tt
  | ruleID :: rest => (start_rule ruleID rs ;;; start_rules rest rs)%go
  end.

Fixpoint stop_rule (ruleID : string) (rs : list Rule) : M W unit :=
  match rs with
  | [] => ret tt
  | rule :: rest =>
      if String.eqb (ID rule) ruleID
      then (StopTCPForward (ListenAddr rule) (ListenPort rule) ;;;
            StopUDPForward (ListenAddr rule) (ListenPort rule) ;;;
            ret tt)%go
      else stop_rule ruleID rest
  end.

Fixpoint stop_rules (ruleIDs : list string) (rs : list Rule) : M W unit :=
  match ruleIDs with
  | [] => ret tt
  | ruleID :: rest => (stop_rule ruleID rs ;;; stop_rules rest rs)%go
  end.

(** [ts] and [rs] are the package variables [templates] and [rules], which
    these handlers only read. *)
Definition apiStartTemplateForward (method : string) (body : result string)
    (ts : list Template) (rs : list Rule) : M W Response :=
  if negb (String.eqb method "POST") then ret method_not_allowed
  else match body with
       | Err err =>
           (log_Printf ("Failed to decode request body: " +:+ Error err) ;;;
            ret (http_Error "Invalid request body" 400))%go
       | Ok name =>
           match find_template name ts with
           | None =>
               (log_Printf ("Template " +:+ name +:+ " not found") ;;;
                ret (http_Error "Template not found" 404))%go
           | Some template =>
               (start_rules (Rules template) rs ;;; ret json_success)%go
           end
       end.

Definition apiStopTemplateForward (method : string) (body : result string)
    (ts : list Template) (rs : list Rule) : M W Response :=
  if negb (String.eqb method "POST") then ret method_not_allowed
  else match body with
       | Err err =>
           (log_Printf ("Failed to decode request body: " +:+ Error err) ;;;
            ret (http_Error "Invalid request body" 400))%go
       | Ok name =>
           match find_template name ts with
           | None =>
               (log_Printf ("Template " +:+ name +:+ " not found") ;;;
                ret (http_Error "Template not found" 404))%go
           | Some template =>
               (stop_rules (Rules template) rs ;;; ret json_success)%go
           end
       end.

End TemplateForward.

(** The registry keys of a list of rules. *)
Definition tcp_keys (rs : list Rule) : list string :=
  map (fun r => tcp_key (ListenAddr r) (ListenPort r)) rs.

Definition udp_keys (rs : list Rule) : list string :=
  map (fun r => udp_key (ListenAddr r) (ListenPort r)) rs.

(** ** What a store may be relied on for *)

Section StoreProperties.
Context {D B : Type} {store : Store D B}.

(** What was marshalled unmarshals to the same value. *)
Definition codec_round_trip : Prop :=
  forall a b, json_MarshalIndent a = Ok b -> json_Unmarshal b = Ok a.

(** A file that was written exists and reads back as written. *)
Definition write_then_read : Prop :=
  forall path b d d',
    os_WriteFile path b d = (None, d') ->
    os_Stat_IsNotExist path d' = false /\ os_ReadFile path d' = Ok b.

(** Marshalling and writing never fail. *)
Definition never_fails : Prop :=
  (forall a, is_Ok (json_MarshalIndent a) = true)
  /\ (forall path b d, (os_WriteFile path b d).1 = None).

(** The data file is missing, or is there and loads. *)
Definition loadable (s : Storage) (d : D) : Prop :=
  is_Ok (loadAppData s d) = true.

End StoreProperties.

(** ** The reply task of the datagram relay

    The goroutine [handleUDPForward] launches after forwarding a datagram:
    it dials the target on a socket of its own, reads one response and
    sends it to the client through the relay's socket.  It is driven by
    the results of its three calls.  The read has no deadline (the call
    of [SetReadDeadline] is commented out), so it returns a datagram,
    returns an error, or never returns. *)

Module UDPReply.
Import UDPRelay.

(** [n, err := targetConn.Read(responseBuf)]. *)
Inductive ReadOutcome : Type :=
| Response (dg : list Byte.byte)   (* a datagram arrived *)
| ReadError (e : error)            (* the read returned an error *)
| NoResponse.                      (* nothing arrives: the read never returns *)

Record Answers : Type := mkAnswers {
  dialed : result UDPConn;    (* [net.DialUDP("udp", nil, target)] *)
  response : ReadOutcome;     (* [targetConn.Read(responseBuf)] *)
  write_err : option error    (* [conn.WriteToUDP(..., clientAddr)] *)
}.

Inductive ReplyEvent : Type :=
| QDialUDP (target : UDPAddr)
| QRead (c : UDPConn)
| QWriteTo (c : UDPConn) (payload : list Byte.byte) (to : UDPAddr)
| QClose (c : UDPConn)
| QLog (msg : string) (e : error).

Inductive Progress : Type :=
| Done                            (* the goroutine is over *)
| WaitingInRead (c : UDPConn).    (* still in [c.Read], for ever *)

(** The deferred [targetConn.Close()] runs when the function returns,
    which it does not while the read is waiting. *)
Definition reply_task (conn : UDPConn) (target clientAddr : UDPAddr) (env : Answers)
  : list ReplyEvent * Progress :=
  let responseBuf := make buf_len in
  match dialed env with
  | Err err =>
      ([QDialUDP target; QLog "Error connecting to target for response" err], Done)
  | Ok targetConn =>
      match response env with
      | NoResponse => ([QDialUDP target; QRead targetConn], WaitingInRead targetConn)
      | ReadError _ => ([QDialUDP target; QRead targetConn; QClose targetConn], Done)
      | Response dg =>
          let rd := ReadFromUDP responseBuf dg in
          ([QDialUDP target; QRead targetConn; QWriteTo conn (take rd.1 rd.2) clientAddr]
           ++ match write_err env with
              | Some err => [QLog "Error forwarding UDP response" err]
              | None => []
              end
           ++ [QClose targetConn], Done)
      end
  end.

Definition sends (t : list ReplyEvent) : list (UDPConn * list Byte.byte * UDPAddr) :=
  omap (fun e => match e with QWriteTo c p a => Some (c, p, a) | _ => None end) t.

Definition closes (t : list ReplyEvent) : list UDPConn :=
  omap (fun e => match e with QClose c => Some c | _ => None end) t.

Definition dials (t : list ReplyEvent) : list UDPAddr :=
  omap (fun e => match e with QDialUDP a => Some a | _ => None end) t.

End UDPReply.

(** * Properties *)

(** ** What each registry operation does, case by case *)

Ltac go_unfold :=
  unfold StartTCPForward, StopTCPForward, StartUDPForward, StopUDPForward,
    IsTCPRunning, IsUDPRunning, locked, bind, ret, mu_Lock, mu_Unlock,
    lookup_tcp, lookup_udp, insert_tcp, insert_udp, delete_tcp, delete_udp,
    syscall, go_, log_Printf, emit.

Ltac go_trace := repeat (rewrite <- app_assoc; simpl); try reflexivity.

Section RegistryEquations.
Context {W : Type} {net : Net W}.
Implicit Types (s : State W) (listenAddr listenPort targetAddr targetPort : string).

Lemma StartTCPForward_running s listenAddr listenPort targetAddr targetPort l :
  mu (fw s) = false ->
  tcpListeners (fw s) !! tcp_key listenAddr listenPort = Some l ->
  StartTCPForward listenAddr listenPort targetAddr targetPort s =
    Returns (Some (AlreadyRunning TCP listenAddr listenPort))
      (mkState (fw s) (os s)
         (trace s ++ [EvLock; EvLookup TCP (tcp_key listenAddr listenPort); EvUnlock])).
Proof.
  destruct s as [[tl ul m] w t]; simpl; intros -> Hk.
  go_unfold; simpl. rewrite Hk. go_trace.
Qed.

Lemma StartTCPForward_bind_failed s listenAddr listenPort targetAddr targetPort e w :
  mu (fw s) = false ->
  tcpListeners (fw s) !! tcp_key listenAddr listenPort = None ->
  net_Listen "tcp" (host_port listenAddr listenPort) (os s) = (Err e, w) ->
  StartTCPForward listenAddr listenPort targetAddr targetPort s =
    Returns (Some (BindFailed listenAddr listenPort e))
      (mkState (fw s) w
         (trace s ++ [EvLock; EvLookup TCP (tcp_key listenAddr listenPort);
                      EvIO (IOListen "tcp" (host_port listenAddr listenPort));
                      EvUnlock])).
Proof.
  destruct s as [[tl ul m] w0 t]; simpl; intros -> Hk Hl.
  go_unfold; simpl. rewrite Hk; simpl. rewrite Hl; simpl. go_trace.
Qed.

Lemma StartTCPForward_started s listenAddr listenPort targetAddr targetPort l w :
  mu (fw s) = false ->
  tcpListeners (fw s) !! tcp_key listenAddr listenPort = None ->
  net_Listen "tcp" (host_port listenAddr listenPort) (os s) = (Ok l, w) ->
  StartTCPForward listenAddr listenPort targetAddr targetPort s =
    Returns None
      (mkState
         (mkForwarder (<[tcp_key listenAddr listenPort := l]> (tcpListeners (fw s)))
                      (udpListeners (fw s)) false)
         w
         (trace s ++ [EvLock; EvLookup TCP (tcp_key listenAddr listenPort);
                      EvIO (IOListen "tcp" (host_port listenAddr listenPort));
                      EvInsert TCP (tcp_key listenAddr listenPort);
                      EvGo (GoHandleTCPForward l targetAddr targetPort);
                      EvLog ("Started TCP forward: " +:+ listenAddr +:+ ":" +:+ listenPort
                               +:+ " -> " +:+ targetAddr +:+ ":" +:+ targetPort);
                      EvUnlock])).
Proof.
  destruct s as [[tl ul m] w0 t]; simpl; intros -> Hk Hl.
  go_unfold; simpl. rewrite Hk; simpl. rewrite Hl; simpl. go_trace.
Qed.

Lemma StopTCPForward_not_running s listenAddr listenPort :
  mu (fw s) = false ->
  tcpListeners (fw s) !! tcp_key listenAddr listenPort = None ->
  StopTCPForward listenAddr listenPort s =
    Returns (Some (NotRunning TCP listenAddr listenPort))
      (mkState (fw s) (os s)
         (trace s ++ [EvLock; EvLookup TCP (tcp_key listenAddr listenPort); EvUnlock])).
Proof.
  destruct s as [[tl ul m] w t]; simpl; intros -> Hk.
  go_unfold; simpl. rewrite Hk. go_trace.
Qed.

Lemma StopTCPForward_close_failed s listenAddr listenPort l e w :
  mu (fw s) = false ->
  tcpListeners (fw s) !! tcp_key listenAddr listenPort = Some l ->
  Listener_Close l (os s) = (Some e, w) ->
  StopTCPForward listenAddr listenPort s =
    Returns (Some (CloseFailed TCP e))
      (mkState (fw s) w
         (trace s ++ [EvLock; EvLookup TCP (tcp_key listenAddr listenPort);
                      EvIO (IOListenerClose l); EvUnlock])).
Proof.
  destruct s as [[tl ul m] w0 t]; simpl; intros -> Hk Hc.
  go_unfold; simpl. rewrite Hk; simpl. rewrite Hc; simpl. go_trace.
Qed.

Lemma StopTCPForward_stopped s listenAddr listenPort l w :
  mu (fw s) = false ->
  tcpListeners (fw s) !! tcp_key listenAddr listenPort = Some l ->
  Listener_Close l (os s) = (None, w) ->
  StopTCPForward listenAddr listenPort s =
    Returns None
      (mkState
         (mkForwarder (delete (tcp_key listenAddr listenPort) (tcpListeners (fw s)))
                      (udpListeners (fw s)) false)
         w
         (trace s ++ [EvLock; EvLookup TCP (tcp_key listenAddr listenPort);
                      EvIO (IOListenerClose l);
                      EvDelete TCP (tcp_key listenAddr listenPort);
                      EvLog ("Stopped TCP forward: " +:+ listenAddr +:+ ":" +:+ listenPort);
                      EvUnlock])).
Proof.
  destruct s as [[tl ul m] w0 t]; simpl; intros -> Hk Hc.
  go_unfold; simpl. rewrite Hk; simpl. rewrite Hc; simpl. go_trace.
Qed.

Lemma StartUDPForward_running s listenAddr listenPort targetAddr targetPort c :
  mu (fw s) = false ->
  udpListeners (fw s) !! udp_key listenAddr listenPort = Some c ->
  StartUDPForward listenAddr listenPort targetAddr targetPort s =
    Returns (Some (AlreadyRunning UDP listenAddr listenPort))
      (mkState (fw s) (os s)
         (trace s ++ [EvLock; EvLookup UDP (udp_key listenAddr listenPort); EvUnlock])).
Proof.
  destruct s as [[tl ul m] w t]; simpl; intros -> Hk.
  go_unfold; simpl. rewrite Hk. go_trace.
Qed.

Lemma StartUDPForward_resolve_failed s listenAddr listenPort targetAddr targetPort e w :
  mu (fw s) = false ->
  udpListeners (fw s) !! udp_key listenAddr listenPort = None ->
  net_ResolveUDPAddr "udp" (host_port listenAddr listenPort) (os s) = (Err e, w) ->
  StartUDPForward listenAddr listenPort targetAddr targetPort s =
    Returns (Some (ResolveFailed e))
      (mkState (fw s) w
         (trace s ++ [EvLock; EvLookup UDP (udp_key listenAddr listenPort);
                      EvIO (IOResolveUDPAddr "udp" (host_port listenAddr listenPort));
                      EvUnlock])).
Proof.
  destruct s as [[tl ul m] w0 t]; simpl; intros -> Hk Hr.
  go_unfold; simpl. rewrite Hk; simpl. rewrite Hr; simpl. go_trace.
Qed.

Lemma StartUDPForward_bind_failed s listenAddr listenPort targetAddr targetPort a w e w' :
  mu (fw s) = false ->
  udpListeners (fw s) !! udp_key listenAddr listenPort = None ->
  net_ResolveUDPAddr "udp" (host_port listenAddr listenPort) (os s) = (Ok a, w) ->
  net_ListenUDP "udp" a w = (Err e, w') ->
  StartUDPForward listenAddr listenPort targetAddr targetPort s =
    Returns (Some (BindFailed listenAddr listenPort e))
      (mkState (fw s) w'
         (trace s ++ [EvLock; EvLookup UDP (udp_key listenAddr listenPort);
                      EvIO (IOResolveUDPAddr "udp" (host_port listenAddr listenPort));
                      EvIO (IOListenUDP "udp" a);
                      EvUnlock])).
Proof.
  destruct s as [[tl ul m] w0 t]; simpl; intros -> Hk Hr Hl.
  go_unfold; simpl. rewrite Hk; simpl. rewrite Hr; simpl. rewrite Hl; simpl. go_trace.
Qed.

Lemma StartUDPForward_started s listenAddr listenPort targetAddr targetPort a w c w' :
  mu (fw s) = false ->
  udpListeners (fw s) !! udp_key listenAddr listenPort = None ->
  net_ResolveUDPAddr "udp" (host_port listenAddr listenPort) (os s) = (Ok a, w) ->
  net_ListenUDP "udp" a w = (Ok c, w') ->
  StartUDPForward listenAddr listenPort targetAddr targetPort s =
    Returns None
      (mkState
         (mkForwarder (tcpListeners (fw s))
                      (<[udp_key listenAddr listenPort := c]> (udpListeners (fw s))) false)
         w'
         (trace s ++ [EvLock; EvLookup UDP (udp_key listenAddr listenPort);
                      EvIO (IOResolveUDPAddr "udp" (host_port listenAddr listenPort));
                      EvIO (IOListenUDP "udp" a);
                      EvInsert UDP (udp_key listenAddr listenPort);
                      EvGo (GoHandleUDPForward c targetAddr targetPort);
                      EvLog ("Started UDP forward: " +:+ listenAddr +:+ ":" +:+ listenPort
                               +:+ " -> " +:+ targetAddr +:+ ":" +:+ targetPort);
                      EvUnlock])).
Proof.
  destruct s as [[tl ul m] w0 t]; simpl; intros -> Hk Hr Hl.
  go_unfold; simpl. rewrite Hk; simpl. rewrite Hr; simpl. rewrite Hl; simpl. go_trace.
Qed.

Lemma StopUDPForward_not_running s listenAddr listenPort :
  mu (fw s) = false ->
  udpListeners (fw s) !! udp_key listenAddr listenPort = None ->
  StopUDPForward listenAddr listenPort s =
    Returns (Some (NotRunning UDP listenAddr listenPort))
      (mkState (fw s) (os s)
         (trace s ++ [EvLock; EvLookup UDP (udp_key listenAddr listenPort); EvUnlock])).
Proof.
  destruct s as [[tl ul m] w t]; simpl; intros -> Hk.
  go_unfold; simpl. rewrite Hk. go_trace.
Qed.

Lemma StopUDPForward_close_failed s listenAddr listenPort c e w :
  mu (fw s) = false ->
  udpListeners (fw s) !! udp_key listenAddr listenPort = Some c ->
  UDPConn_Close c (os s) = (Some e, w) ->
  StopUDPForward listenAddr listenPort s =
    Returns (Some (CloseFailed UDP e))
      (mkState (fw s) w
         (trace s ++ [EvLock; EvLookup UDP (udp_key listenAddr listenPort);
                      EvIO (IOUDPConnClose c); EvUnlock])).
Proof.
  destruct s as [[tl ul m] w0 t]; simpl; intros -> Hk Hc.
  go_unfold; simpl. rewrite Hk; simpl. rewrite Hc; simpl. go_trace.
Qed.

Lemma StopUDPForward_stopped s listenAddr listenPort c w :
  mu (fw s) = false ->
  udpListeners (fw s) !! udp_key listenAddr listenPort = Some c ->
  UDPConn_Close c (os s) = (None, w) ->
  StopUDPForward listenAddr listenPort s =
    Returns None
      (mkState
         (mkForwarder (tcpListeners (fw s))
                      (delete (udp_key listenAddr listenPort) (udpListeners (fw s))) false)
         w
         (trace s ++ [EvLock; EvLookup UDP (udp_key listenAddr listenPort);
                      EvIO (IOUDPConnClose c);
                      EvDelete UDP (udp_key listenAddr listenPort);
                      EvLog ("Stopped UDP forward: " +:+ listenAddr +:+ ":" +:+ listenPort);
                      EvUnlock])).
Proof.
  destruct s as [[tl ul m] w0 t]; simpl; intros -> Hk Hc.
  go_unfold; simpl. rewrite Hk; simpl. rewrite Hc; simpl. go_trace.
Qed.

Lemma IsTCPRunning_eq s listenAddr listenPort :
  mu (fw s) = false ->
  IsTCPRunning listenAddr listenPort s =
    Returns (bool_decide (is_Some (tcpListeners (fw s) !! tcp_key listenAddr listenPort)))
      (mkState (fw s) (os s)
         (trace s ++ [EvLock; EvLookup TCP (tcp_key listenAddr listenPort); EvUnlock])).
Proof.
  destruct s as [[tl ul m] w t]; simpl; intros ->.
  go_unfold; simpl. go_trace.
Qed.

Lemma IsUDPRunning_eq s listenAddr listenPort :
  mu (fw s) = false ->
  IsUDPRunning listenAddr listenPort s =
    Returns (bool_decide (is_Some (udpListeners (fw s) !! udp_key listenAddr listenPort)))
      (mkState (fw s) (os s)
         (trace s ++ [EvLock; EvLookup UDP (udp_key listenAddr listenPort); EvUnlock])).
Proof.
  destruct s as [[tl ul m] w t]; simpl; intros ->.
  go_unfold; simpl. go_trace.
Qed.

End RegistryEquations.

(** ** The registry operations *)

Lemma emitted_app {W} (s : State W) fw' w' (t : list Event) :
  emitted s (mkState fw' w' (trace s ++ t)) = t.
Proof. unfold emitted; simpl. apply drop_app_length. Qed.

Lemma body_until_unlock_sound (t body : list Event) :
  body_until_unlock t = Some body ->
  t = body ++ [EvUnlock] /\ forallb (fun e => negb (is_lock_event e)) body = true.
Proof.
  revert body; induction t as [|e t IH]; intros body; [discriminate|].
  destruct e; simpl;
    try (destruct (body_until_unlock t) as [b|]; [|discriminate];
         intros [= <-]; destruct (IH b eq_refl) as [-> Hb]; simpl; auto).
  destruct t; [intros [= <-]; auto | discriminate].
Qed.

Lemma critical_body_sound (t body : list Event) :
  critical_body t = Some body -> one_critical_section t body.
Proof.
  destruct t as [|[] t]; try discriminate; simpl.
  intros H; apply body_until_unlock_sound in H as [-> Hb]. split; auto.
Qed.

Section RegistryClaims.
Context {W : Type} {net : Net W}.
Implicit Types (s : State W) (listenAddr listenPort targetAddr targetPort : string).

(** C4.  Stopping a key that has no session of the protocol returns the
    NotRunning error, leaves both registry maps as they were (same
    entries, same size) and closes nothing: the network state is
    untouched and the call makes no network call. *)
Theorem stop_absent_is_NotRunning s listenAddr listenPort :
  mu (fw s) = false ->
  (tcpListeners (fw s) !! tcp_key listenAddr listenPort = None ->
   exists s',
     StopTCPForward listenAddr listenPort s
       = Returns (Some (NotRunning TCP listenAddr listenPort)) s'
     /\ fw s' = fw s
     /\ size (tcpListeners (fw s')) = size (tcpListeners (fw s))
     /\ size (udpListeners (fw s')) = size (udpListeners (fw s))
     /\ os s' = os s
     /\ io_calls (emitted s s') = [])
  /\
  (udpListeners (fw s) !! udp_key listenAddr listenPort = None ->
   exists s',
     StopUDPForward listenAddr listenPort s
       = Returns (Some (NotRunning UDP listenAddr listenPort)) s'
     /\ fw s' = fw s
     /\ size (tcpListeners (fw s')) = size (tcpListeners (fw s))
     /\ size (udpListeners (fw s')) = size (udpListeners (fw s))
     /\ os s' = os s
     /\ io_calls (emitted s s') = []).
Proof.
  intros Hmu; split; intros Hk.
  - rewrite (StopTCPForward_not_running _ _ _ Hmu Hk).
    eexists; split; [reflexivity|]. rewrite emitted_app. simpl. auto.
  - rewrite (StopUDPForward_not_running _ _ _ Hmu Hk).
    eexists; split; [reflexivity|]. rewrite emitted_app. simpl. auto.
Qed.


(** C2.  A start on a key that already has a session of the protocol
    returns the AlreadyRunning error, attempts no bind (no network call,
    network state untouched) and leaves the registry as it was, with the
    existing session still the one registered under the key; its
    critical section holds the existence check and nothing else.  A
    start on a free key whose bind succeeds registers the new session
    under the key, the existence check and the insertion lying in the one
    critical section of the call, and every later start on the same key,
    whatever its target, then finds that session: it returns
    AlreadyRunning, makes no network call and leaves the registry with
    this one session more than before the first start.  Every start is a
    single critical section of the registry lock.  The same for UDP. *)
Theorem start_twice_is_AlreadyRunning s listenAddr listenPort targetAddr targetPort :
  mu (fw s) = false ->
  (forall l, tcpListeners (fw s) !! tcp_key listenAddr listenPort = Some l ->
     exists s',
       StartTCPForward listenAddr listenPort targetAddr targetPort s
         = Returns (Some (AlreadyRunning TCP listenAddr listenPort)) s'
       /\ fw s' = fw s
       /\ tcpListeners (fw s') !! tcp_key listenAddr listenPort = Some l
       /\ os s' = os s
       /\ io_calls (emitted s s') = []
       /\ critical_body (emitted s s')
          = Some [EvLookup TCP (tcp_key listenAddr listenPort)])
  /\
  (forall c, udpListeners (fw s) !! udp_key listenAddr listenPort = Some c ->
     exists s',
       StartUDPForward listenAddr listenPort targetAddr targetPort s
         = Returns (Some (AlreadyRunning UDP listenAddr listenPort)) s'
       /\ fw s' = fw s
       /\ udpListeners (fw s') !! udp_key listenAddr listenPort = Some c
       /\ os s' = os s
       /\ io_calls (emitted s s') = []
       /\ critical_body (emitted s s')
          = Some [EvLookup UDP (udp_key listenAddr listenPort)])
  /\
  (exists r s' body,
     StartTCPForward listenAddr listenPort targetAddr targetPort s = Returns r s'
     /\ one_critical_section (emitted s s') body
     /\ (r = None ->
         In (EvLookup TCP (tcp_key listenAddr listenPort)) body
         /\ In (EvInsert TCP (tcp_key listenAddr listenPort)) body)
     /\ (r = None -> forall targetAddr' targetPort',
           exists s'',
             StartTCPForward listenAddr listenPort targetAddr' targetPort' s'
               = Returns (Some (AlreadyRunning TCP listenAddr listenPort)) s''
             /\ fw s'' = fw s'))
  /\
  (exists r s' body,
     StartUDPForward listenAddr listenPort targetAddr targetPort s = Returns r s'
     /\ one_critical_section (emitted s s') body
     /\ (r = None ->
         In (EvLookup UDP (udp_key listenAddr listenPort)) body
         /\ In (EvInsert UDP (udp_key listenAddr listenPort)) body)
     /\ (r = None -> forall targetAddr' targetPort',
           exists s'',
             StartUDPForward listenAddr listenPort targetAddr' targetPort' s'
               = Returns (Some (AlreadyRunning UDP listenAddr listenPort)) s''
             /\ fw s'' = fw s'))
  /\
  (forall l w,
     tcpListeners (fw s) !! tcp_key listenAddr listenPort = None ->
     net_Listen "tcp" (host_port listenAddr listenPort) (os s) = (Ok l, w) ->
     exists s1,
       StartTCPForward listenAddr listenPort targetAddr targetPort s = Returns None s1
       /\ critical_body (emitted s s1)
          = Some [EvLookup TCP (tcp_key listenAddr listenPort);
                  EvIO (IOListen "tcp" (host_port listenAddr listenPort));
                  EvInsert TCP (tcp_key listenAddr listenPort);
                  EvGo (GoHandleTCPForward l targetAddr targetPort);
                  EvLog ("Started TCP forward: " +:+ listenAddr +:+ ":" +:+ listenPort
                           +:+ " -> " +:+ targetAddr +:+ ":" +:+ targetPort)]
       /\ tcpListeners (fw s1) = <[tcp_key listenAddr listenPort := l]> (tcpListeners (fw s))
       /\ udpListeners (fw s1) = udpListeners (fw s)
       /\ os s1 = w
       /\ forall targetAddr' targetPort',
            exists s2,
              StartTCPForward listenAddr listenPort targetAddr' targetPort' s1
                = Returns (Some (AlreadyRunning TCP listenAddr listenPort)) s2
              /\ fw s2 = fw s1
              /\ os s2 = w
              /\ io_calls (emitted s1 s2) = []
              /\ tcpListeners (fw s2) !! tcp_key listenAddr listenPort = Some l
              /\ size (tcpListeners (fw s2)) = S (size (tcpListeners (fw s))))
  /\
  (forall a w c w',
     udpListeners (fw s) !! udp_key listenAddr listenPort = None ->
     net_ResolveUDPAddr "udp" (host_port listenAddr listenPort) (os s) = (Ok a, w) ->
     net_ListenUDP "udp" a w = (Ok c, w') ->
     exists s1,
       StartUDPForward listenAddr listenPort targetAddr targetPort s = Returns None s1
       /\ critical_body (emitted s s1)
          = Some [EvLookup UDP (udp_key listenAddr listenPort);
                  EvIO (IOResolveUDPAddr "udp" (host_port listenAddr listenPort));
                  EvIO (IOListenUDP "udp" a);
                  EvInsert UDP (udp_key listenAddr listenPort);
                  EvGo (GoHandleUDPForward c targetAddr targetPort);
                  EvLog ("Started UDP forward: " +:+ listenAddr +:+ ":" +:+ listenPort
                           +:+ " -> " +:+ targetAddr +:+ ":" +:+ targetPort)]
       /\ udpListeners (fw s1) = <[udp_key listenAddr listenPort := c]> (udpListeners (fw s))
       /\ tcpListeners (fw s1) = tcpListeners (fw s)
       /\ os s1 = w'
       /\ forall targetAddr' targetPort',
            exists s2,
              StartUDPForward listenAddr listenPort targetAddr' targetPort' s1
                = Returns (Some (AlreadyRunning UDP listenAddr listenPort)) s2
              /\ fw s2 = fw s1
              /\ os s2 = w'
              /\ io_calls (emitted s1 s2) = []
              /\ udpListeners (fw s2) !! udp_key listenAddr listenPort = Some c
              /\ size (udpListeners (fw s2)) = S (size (udpListeners (fw s)))).
Proof.
  intros Hmu. split; [|split; [|split; [|split; [|split]]]].
  - intros l Hk. rewrite (StartTCPForward_running _ _ _ _ _ _ Hmu Hk).
    eexists; split; [reflexivity|]. rewrite emitted_app; simpl; auto 10.
  - intros c Hk. rewrite (StartUDPForward_running _ _ _ _ _ _ Hmu Hk).
    eexists; split; [reflexivity|]. rewrite emitted_app; simpl; auto 10.
  - destruct (tcpListeners (fw s) !! tcp_key listenAddr listenPort) as [l|] eqn:Hk.
    + rewrite (StartTCPForward_running _ _ _ _ _ _ Hmu Hk).
      do 3 eexists. split; [reflexivity|]. rewrite emitted_app.
      split; [apply critical_body_sound; reflexivity|]. split; discriminate.
    + destruct (net_Listen "tcp" (host_port listenAddr listenPort) (os s))
        as [[l|e] w] eqn:Hl.
      * rewrite (StartTCPForward_started _ _ _ _ _ _ _ Hmu Hk Hl).
        do 3 eexists. split; [reflexivity|]. rewrite emitted_app.
        split; [apply critical_body_sound; reflexivity|].
        split; [intros _; simpl; auto 10|].
        intros _ ta' tp'. eexists.
        split; [apply StartTCPForward_running with (l := l);
                [reflexivity | simpl; apply lookup_insert_eq]|reflexivity].
      * rewrite (StartTCPForward_bind_failed _ _ _ _ _ _ _ Hmu Hk Hl).
        do 3 eexists. split; [reflexivity|]. rewrite emitted_app.
        split; [apply critical_body_sound; reflexivity|]. split; discriminate.
  - destruct (udpListeners (fw s) !! udp_key listenAddr listenPort) as [c|] eqn:Hk.
    + rewrite (StartUDPForward_running _ _ _ _ _ _ Hmu Hk).
      do 3 eexists. split; [reflexivity|]. rewrite emitted_app.
      split; [apply critical_body_sound; reflexivity|]. split; discriminate.
    + destruct (net_ResolveUDPAddr "udp" (host_port listenAddr listenPort) (os s))
        as [[a|e] w] eqn:Hr.
      * destruct (net_ListenUDP "udp" a w) as [[c|e] w'] eqn:Hl.
        -- rewrite (StartUDPForward_started _ _ _ _ _ _ _ _ _ Hmu Hk Hr Hl).
           do 3 eexists. split; [reflexivity|]. rewrite emitted_app.
           split; [apply critical_body_sound; reflexivity|].
           split; [intros _; simpl; auto 10|].
           intros _ ta' tp'. eexists.
           split; [apply StartUDPForward_running with (c := c);
                   [reflexivity | simpl; apply lookup_insert_eq]|reflexivity].
        -- rewrite (StartUDPForward_bind_failed _ _ _ _ _ _ _ _ _ Hmu Hk Hr Hl).
           do 3 eexists. split; [reflexivity|]. rewrite emitted_app.
           split; [apply critical_body_sound; reflexivity|]. split; discriminate.
      * rewrite (StartUDPForward_resolve_failed _ _ _ _ _ _ _ Hmu Hk Hr).
        do 3 eexists. split; [reflexivity|]. rewrite emitted_app.
        split; [apply critical_body_sound; reflexivity|]. split; discriminate.
  - intros l w Hk Hl.
    rewrite (StartTCPForward_started _ _ _ _ _ _ _ Hmu Hk Hl).
    eexists. split; [reflexivity|]. rewrite emitted_app.
    split; [reflexivity|]. simpl.
    split; [reflexivity|]. split; [reflexivity|]. split; [reflexivity|].
    intros ta' tp'.
    rewrite (StartTCPForward_running _ _ _ ta' tp' l);
      [|reflexivity | simpl; apply lookup_insert_eq].
    eexists. split; [reflexivity|]. rewrite emitted_app. simpl.
    split; [reflexivity|]. split; [reflexivity|]. split; [reflexivity|].
    split; [apply lookup_insert_eq|].
    apply map_size_insert_None; exact Hk.
  - intros a w c w' Hk Hr Hl.
    rewrite (StartUDPForward_started _ _ _ _ _ _ _ _ _ Hmu Hk Hr Hl).
    eexists. split; [reflexivity|]. rewrite emitted_app.
    split; [reflexivity|]. simpl.
    split; [reflexivity|]. split; [reflexivity|]. split; [reflexivity|].
    intros ta' tp'.
    rewrite (StartUDPForward_running _ _ _ ta' tp' c);
      [|reflexivity | simpl; apply lookup_insert_eq].
    eexists. split; [reflexivity|]. rewrite emitted_app. simpl.
    split; [reflexivity|]. split; [reflexivity|]. split; [reflexivity|].
    split; [apply lookup_insert_eq|].
    apply map_size_insert_None; exact Hk.
Qed.


(** C1, as amended.  When the bind succeeds, a start followed at once by
    the status query of the same endpoint returns true, the session being
    registered under the key.  A stop on a key without a session returns
    NotRunning and the query after it returns false.  A stop on a key
    with a session closes the listening resource of that session, and
    the result of that close decides the rest: when the close succeeds
    the stop returns ok, the entry is gone and the query returns false;
    when the close fails with an error the stop returns CloseFailed with
    that error, the session stays registered and the query returns true.
    In particular a session started on a free key and stopped at once is
    reported as not running exactly when its close succeeded.  The same
    for UDP. *)
Theorem start_stop_then_running s listenAddr listenPort targetAddr targetPort :
  mu (fw s) = false ->
  (tcp_bind_ok listenAddr listenPort (os s) = true ->
   exists r s1 s2,
     StartTCPForward listenAddr listenPort targetAddr targetPort s = Returns r s1
     /\ IsTCPRunning listenAddr listenPort s1 = Returns true s2
     /\ (tcpListeners (fw s) !! tcp_key listenAddr listenPort = None -> r = None)
     /\ is_Some (tcpListeners (fw s1) !! tcp_key listenAddr listenPort))
  /\
  (udp_bind_ok listenAddr listenPort (os s) = true ->
   exists r s1 s2,
     StartUDPForward listenAddr listenPort targetAddr targetPort s = Returns r s1
     /\ IsUDPRunning listenAddr listenPort s1 = Returns true s2
     /\ (udpListeners (fw s) !! udp_key listenAddr listenPort = None -> r = None)
     /\ is_Some (udpListeners (fw s1) !! udp_key listenAddr listenPort))
  /\
  (exists r s1 s2,
     StopTCPForward listenAddr listenPort s = Returns r s1
     /\ IsTCPRunning listenAddr listenPort s1 = Returns (is_CloseFailed r) s2
     /\ match tcpListeners (fw s) !! tcp_key listenAddr listenPort with
        | None =>
            r = Some (NotRunning TCP listenAddr listenPort)
            /\ io_calls (emitted s s1) = []
            /\ os s1 = os s
            /\ fw s1 = fw s
        | Some l =>
            io_calls (emitted s s1) = [IOListenerClose l]
            /\ os s1 = (Listener_Close l (os s)).2
            /\ udpListeners (fw s1) = udpListeners (fw s)
            /\ match (Listener_Close l (os s)).1 with
               | None =>
                   r = None
                   /\ tcpListeners (fw s1)
                      = delete (tcp_key listenAddr listenPort) (tcpListeners (fw s))
                   /\ tcpListeners (fw s1) !! tcp_key listenAddr listenPort = None
               | Some e =>
                   r = Some (CloseFailed TCP e)
                   /\ tcpListeners (fw s1) = tcpListeners (fw s)
                   /\ tcpListeners (fw s1) !! tcp_key listenAddr listenPort = Some l
               end
        end)
  /\
  (exists r s1 s2,
     StopUDPForward listenAddr listenPort s = Returns r s1
     /\ IsUDPRunning listenAddr listenPort s1 = Returns (is_CloseFailed r) s2
     /\ match udpListeners (fw s) !! udp_key listenAddr listenPort with
        | None =>
            r = Some (NotRunning UDP listenAddr listenPort)
            /\ io_calls (emitted s s1) = []
            /\ os s1 = os s
            /\ fw s1 = fw s
        | Some c =>
            io_calls (emitted s s1) = [IOUDPConnClose c]
            /\ os s1 = (UDPConn_Close c (os s)).2
            /\ tcpListeners (fw s1) = tcpListeners (fw s)
            /\ match (UDPConn_Close c (os s)).1 with
               | None =>
                   r = None
                   /\ udpListeners (fw s1)
                      = delete (udp_key listenAddr listenPort) (udpListeners (fw s))
                   /\ udpListeners (fw s1) !! udp_key listenAddr listenPort = None
               | Some e =>
                   r = Some (CloseFailed UDP e)
                   /\ udpListeners (fw s1) = udpListeners (fw s)
                   /\ udpListeners (fw s1) !! udp_key listenAddr listenPort = Some c
               end
        end)
  /\
  (forall l w,
     tcpListeners (fw s) !! tcp_key listenAddr listenPort = None ->
     net_Listen "tcp" (host_port listenAddr listenPort) (os s) = (Ok l, w) ->
     exists s1 r s2 s3,
       StartTCPForward listenAddr listenPort targetAddr targetPort s = Returns None s1
       /\ StopTCPForward listenAddr listenPort s1 = Returns r s2
       /\ io_calls (emitted s1 s2) = [IOListenerClose l]
       /\ os s2 = (Listener_Close l w).2
       /\ r = match (Listener_Close l w).1 with
              | None => None
              | Some e => Some (CloseFailed TCP e)
              end
       /\ tcpListeners (fw s2) !! tcp_key listenAddr listenPort
          = match (Listener_Close l w).1 with
            | None => None
            | Some _ => Some l
            end
       /\ IsTCPRunning listenAddr listenPort s2
          = Returns (bool_decide (is_Some (Listener_Close l w).1)) s3)
  /\
  (forall a w c w',
     udpListeners (fw s) !! udp_key listenAddr listenPort = None ->
     net_ResolveUDPAddr "udp" (host_port listenAddr listenPort) (os s) = (Ok a, w) ->
     net_ListenUDP "udp" a w = (Ok c, w') ->
     exists s1 r s2 s3,
       StartUDPForward listenAddr listenPort targetAddr targetPort s = Returns None s1
       /\ StopUDPForward listenAddr listenPort s1 = Returns r s2
       /\ io_calls (emitted s1 s2) = [IOUDPConnClose c]
       /\ os s2 = (UDPConn_Close c w').2
       /\ r = match (UDPConn_Close c w').1 with
              | None => None
              | Some e => Some (CloseFailed UDP e)
              end
       /\ udpListeners (fw s2) !! udp_key listenAddr listenPort
          = match (UDPConn_Close c w').1 with
            | None => None
            | Some _ => Some c
            end
       /\ IsUDPRunning listenAddr listenPort s2
          = Returns (bool_decide (is_Some (UDPConn_Close c w').1)) s3).
Proof.
  intros Hmu. split; [|split; [|split; [|split; [|split]]]].
  - unfold tcp_bind_ok. intros Hb.
    destruct (tcpListeners (fw s) !! tcp_key listenAddr listenPort) as [l|] eqn:Hk.
    + rewrite (StartTCPForward_running _ _ _ _ _ _ Hmu Hk).
      do 3 eexists. split; [reflexivity|].
      rewrite IsTCPRunning_eq by exact Hmu. simpl. rewrite Hk.
      split; [reflexivity|]. split; [discriminate|eauto].
    + destruct (net_Listen "tcp" (host_port listenAddr listenPort) (os s))
        as [[l|e] w] eqn:Hl; [|discriminate].
      rewrite (StartTCPForward_started _ _ _ _ _ _ _ Hmu Hk Hl).
      do 3 eexists. split; [reflexivity|].
      rewrite IsTCPRunning_eq by reflexivity. simpl. rewrite lookup_insert_eq.
      split; [reflexivity|]. split; [reflexivity|eauto].
  - unfold udp_bind_ok. intros Hb.
    destruct (udpListeners (fw s) !! udp_key listenAddr listenPort) as [c|] eqn:Hk.
    + rewrite (StartUDPForward_running _ _ _ _ _ _ Hmu Hk).
      do 3 eexists. split; [reflexivity|].
      rewrite IsUDPRunning_eq by exact Hmu. simpl. rewrite Hk.
      split; [reflexivity|]. split; [discriminate|eauto].
    + destruct (net_ResolveUDPAddr "udp" (host_port listenAddr listenPort) (os s))
        as [[a|e] w] eqn:Hr; [|discriminate].
      destruct (net_ListenUDP "udp" a w) as [[c|e] w'] eqn:Hl; [|discriminate].
      rewrite (StartUDPForward_started _ _ _ _ _ _ _ _ _ Hmu Hk Hr Hl).
      do 3 eexists. split; [reflexivity|].
      rewrite IsUDPRunning_eq by reflexivity. simpl. rewrite lookup_insert_eq.
      split; [reflexivity|]. split; [reflexivity|eauto].
  - destruct (tcpListeners (fw s) !! tcp_key listenAddr listenPort) as [l|] eqn:Hk.
    + destruct (Listener_Close l (os s)) as [[e|] w] eqn:Hc.
      * rewrite (StopTCPForward_close_failed _ _ _ _ _ _ Hmu Hk Hc).
        do 3 eexists. split; [reflexivity|].
        rewrite IsTCPRunning_eq by exact Hmu. rewrite emitted_app. simpl. rewrite Hk.
        auto 10.
      * rewrite (StopTCPForward_stopped _ _ _ _ _ Hmu Hk Hc).
        do 3 eexists. split; [reflexivity|].
        rewrite IsTCPRunning_eq by reflexivity. rewrite emitted_app. simpl.
        rewrite lookup_delete_eq. auto 10.
    + rewrite (StopTCPForward_not_running _ _ _ Hmu Hk).
      do 3 eexists. split; [reflexivity|].
      rewrite IsTCPRunning_eq by exact Hmu. rewrite emitted_app. simpl. rewrite Hk.
      auto 10.
  - destruct (udpListeners (fw s) !! udp_key listenAddr listenPort) as [c|] eqn:Hk.
    + destruct (UDPConn_Close c (os s)) as [[e|] w] eqn:Hc.
      * rewrite (StopUDPForward_close_failed _ _ _ _ _ _ Hmu Hk Hc).
        do 3 eexists. split; [reflexivity|].
        rewrite IsUDPRunning_eq by exact Hmu. rewrite emitted_app. simpl. rewrite Hk.
        auto 10.
      * rewrite (StopUDPForward_stopped _ _ _ _ _ Hmu Hk Hc).
        do 3 eexists. split; [reflexivity|].
        rewrite IsUDPRunning_eq by reflexivity. rewrite emitted_app. simpl.
        rewrite lookup_delete_eq. auto 10.
    + rewrite (StopUDPForward_not_running _ _ _ Hmu Hk).
      do 3 eexists. split; [reflexivity|].
      rewrite IsUDPRunning_eq by exact Hmu. rewrite emitted_app. simpl. rewrite Hk.
      auto 10.
  - intros l w Hk Hl.
    rewrite (StartTCPForward_started _ _ _ _ _ _ _ Hmu Hk Hl).
    destruct (Listener_Close l w) as [[e|] w1] eqn:Hc.
    + eexists _, _, _, _. split; [reflexivity|].
      rewrite (StopTCPForward_close_failed _ _ _ l e w1);
        [|reflexivity | simpl; apply lookup_insert_eq | exact Hc].
      split; [reflexivity|]. rewrite emitted_app. simpl.
      rewrite IsTCPRunning_eq by reflexivity. simpl. rewrite lookup_insert_eq.
      split; [reflexivity|]. split; [reflexivity|]. split; [reflexivity|].
      split; reflexivity.
    + eexists _, _, _, _. split; [reflexivity|].
      rewrite (StopTCPForward_stopped _ _ _ l w1);
        [|reflexivity | simpl; apply lookup_insert_eq | exact Hc].
      split; [reflexivity|]. rewrite emitted_app. simpl.
      rewrite IsTCPRunning_eq by reflexivity. simpl. rewrite lookup_delete_eq.
      split; [reflexivity|]. split; [reflexivity|]. split; [reflexivity|].
      split; reflexivity.
  - intros a w c w' Hk Hr Hl.
    rewrite (StartUDPForward_started _ _ _ _ _ _ _ _ _ Hmu Hk Hr Hl).
    destruct (UDPConn_Close c w') as [[e|] w1] eqn:Hc.
    + eexists _, _, _, _. split; [reflexivity|].
      rewrite (StopUDPForward_close_failed _ _ _ c e w1);
        [|reflexivity | simpl; apply lookup_insert_eq | exact Hc].
      split; [reflexivity|]. rewrite emitted_app. simpl.
      rewrite IsUDPRunning_eq by reflexivity. simpl. rewrite lookup_insert_eq.
      split; [reflexivity|]. split; [reflexivity|]. split; [reflexivity|].
      split; reflexivity.
    + eexists _, _, _, _. split; [reflexivity|].
      rewrite (StopUDPForward_stopped _ _ _ c w1);
        [|reflexivity | simpl; apply lookup_insert_eq | exact Hc].
      split; [reflexivity|]. rewrite emitted_app. simpl.
      rewrite IsUDPRunning_eq by reflexivity. simpl. rewrite lookup_delete_eq.
      split; [reflexivity|]. split; [reflexivity|]. split; [reflexivity|].
      split; reflexivity.
Qed.

(** C3, as amended.  On a key that has a session, the stop closes the
    listening resource first, with the lock held, and removes the entry
    only after the close has succeeded: then it returns ok and the entry
    is gone.  When the close fails it returns CloseFailed at once and
    the registry is left as it was, the session still registered. *)
Theorem stop_closes_then_removes s listenAddr listenPort :
  mu (fw s) = false ->
  (forall l, tcpListeners (fw s) !! tcp_key listenAddr listenPort = Some l ->
     (forall w, Listener_Close l (os s) = (None, w) ->
        exists s',
          StopTCPForward listenAddr listenPort s = Returns None s'
          /\ tcpListeners (fw s')
               = delete (tcp_key listenAddr listenPort) (tcpListeners (fw s))
          /\ tcpListeners (fw s') !! tcp_key listenAddr listenPort = None
          /\ udpListeners (fw s') = udpListeners (fw s)
          /\ os s' = w
          /\ critical_body (emitted s s')
               = Some [EvLookup TCP (tcp_key listenAddr listenPort);
                       EvIO (IOListenerClose l);
                       EvDelete TCP (tcp_key listenAddr listenPort);
                       EvLog ("Stopped TCP forward: "
                                +:+ listenAddr +:+ ":" +:+ listenPort)])
     /\
     (forall e w, Listener_Close l (os s) = (Some e, w) ->
        exists s',
          StopTCPForward listenAddr listenPort s = Returns (Some (CloseFailed TCP e)) s'
          /\ fw s' = fw s
          /\ tcpListeners (fw s') !! tcp_key listenAddr listenPort = Some l
          /\ os s' = w
          /\ critical_body (emitted s s')
               = Some [EvLookup TCP (tcp_key listenAddr listenPort);
                       EvIO (IOListenerClose l)]))
  /\
  (forall c, udpListeners (fw s) !! udp_key listenAddr listenPort = Some c ->
     (forall w, UDPConn_Close c (os s) = (None, w) ->
        exists s',
          StopUDPForward listenAddr listenPort s = Returns None s'
          /\ udpListeners (fw s')
               = delete (udp_key listenAddr listenPort) (udpListeners (fw s))
          /\ udpListeners (fw s') !! udp_key listenAddr listenPort = None
          /\ tcpListeners (fw s') = tcpListeners (fw s)
          /\ os s' = w
          /\ critical_body (emitted s s')
               = Some [EvLookup UDP (udp_key listenAddr listenPort);
                       EvIO (IOUDPConnClose c);
                       EvDelete UDP (udp_key listenAddr listenPort);
                       EvLog ("Stopped UDP forward: "
                                +:+ listenAddr +:+ ":" +:+ listenPort)])
     /\
     (forall e w, UDPConn_Close c (os s) = (Some e, w) ->
        exists s',
          StopUDPForward listenAddr listenPort s = Returns (Some (CloseFailed UDP e)) s'
          /\ fw s' = fw s
          /\ udpListeners (fw s') !! udp_key listenAddr listenPort = Some c
          /\ os s' = w
          /\ critical_body (emitted s s')
               = Some [EvLookup UDP (udp_key listenAddr listenPort);
                       EvIO (IOUDPConnClose c)])).
Proof.
  intros Hmu. split; [intros l Hk | intros c Hk]; split.
  - intros w Hc. rewrite (StopTCPForward_stopped _ _ _ _ _ Hmu Hk Hc).
    eexists; split; [reflexivity|]. rewrite emitted_app; simpl.
    rewrite lookup_delete_eq. auto 10.
  - intros e w Hc. rewrite (StopTCPForward_close_failed _ _ _ _ _ _ Hmu Hk Hc).
    eexists; split; [reflexivity|]. rewrite emitted_app; simpl. auto 10.
  - intros w Hc. rewrite (StopUDPForward_stopped _ _ _ _ _ Hmu Hk Hc).
    eexists; split; [reflexivity|]. rewrite emitted_app; simpl.
    rewrite lookup_delete_eq. auto 10.
  - intros e w Hc. rewrite (StopUDPForward_close_failed _ _ _ _ _ _ Hmu Hk Hc).
    eexists; split; [reflexivity|]. rewrite emitted_app; simpl. auto 10.
Qed.


(** C6, as amended.  The start operations do not parse or validate the
    port string: address and port are joined as given and handed to the
    network call, whose answer alone decides.  Whatever the port string,
    on a free key the start fails with BindFailed (for UDP also with the
    resolution error) and registers nothing when that call fails, and
    registers the session and returns ok when it succeeds. *)
Theorem start_defers_port_check s listenAddr listenPort targetAddr targetPort :
  mu (fw s) = false ->
  (tcpListeners (fw s) !! tcp_key listenAddr listenPort = None ->
   exists r s',
     StartTCPForward listenAddr listenPort targetAddr targetPort s = Returns r s'
     /\ io_calls (emitted s s') = [IOListen "tcp" (listenAddr +:+ ":" +:+ listenPort)]
     /\ match net_Listen "tcp" (listenAddr +:+ ":" +:+ listenPort) (os s) with
        | (Err e, w) =>
            r = Some (BindFailed listenAddr listenPort e) /\ fw s' = fw s /\ os s' = w
        | (Ok l, w) =>
            r = None
            /\ tcpListeners (fw s')
                 = <[tcp_key listenAddr listenPort := l]> (tcpListeners (fw s))
            /\ os s' = w
        end)
  /\
  (udpListeners (fw s) !! udp_key listenAddr listenPort = None ->
   exists r s',
     StartUDPForward listenAddr listenPort targetAddr targetPort s = Returns r s'
     /\ match net_ResolveUDPAddr "udp" (listenAddr +:+ ":" +:+ listenPort) (os s) with
        | (Err e, w) =>
            r = Some (ResolveFailed e) /\ fw s' = fw s /\ os s' = w
            /\ io_calls (emitted s s')
                 = [IOResolveUDPAddr "udp" (listenAddr +:+ ":" +:+ listenPort)]
        | (Ok a, w) =>
            io_calls (emitted s s')
              = [IOResolveUDPAddr "udp" (listenAddr +:+ ":" +:+ listenPort);
                 IOListenUDP "udp" a]
            /\ match net_ListenUDP "udp" a w with
               | (Err e, w') =>
                   r = Some (BindFailed listenAddr listenPort e)
                   /\ fw s' = fw s /\ os s' = w'
               | (Ok c, w') =>
                   r = None
                   /\ udpListeners (fw s')
                        = <[udp_key listenAddr listenPort := c]> (udpListeners (fw s))
                   /\ os s' = w'
               end
        end).
Proof.
  intros Hmu. split; intros Hk.
  - change (listenAddr +:+ ":" +:+ listenPort) with (host_port listenAddr listenPort).
    destruct (net_Listen "tcp" (host_port listenAddr listenPort) (os s))
      as [[l|e] w] eqn:Hl.
    + rewrite (StartTCPForward_started _ _ _ _ _ _ _ Hmu Hk Hl).
      do 2 eexists. split; [reflexivity|]. rewrite emitted_app; simpl. auto.
    + rewrite (StartTCPForward_bind_failed _ _ _ _ _ _ _ Hmu Hk Hl).
      do 2 eexists. split; [reflexivity|]. rewrite emitted_app; simpl. auto.
  - change (listenAddr +:+ ":" +:+ listenPort) with (host_port listenAddr listenPort).
    destruct (net_ResolveUDPAddr "udp" (host_port listenAddr listenPort) (os s))
      as [[a|e] w] eqn:Hr.
    + destruct (net_ListenUDP "udp" a w) as [[c|e] w'] eqn:Hl.
      * rewrite (StartUDPForward_started _ _ _ _ _ _ _ _ _ Hmu Hk Hr Hl).
        do 2 eexists. split; [reflexivity|]. rewrite emitted_app; simpl. auto.
      * rewrite (StartUDPForward_bind_failed _ _ _ _ _ _ _ _ _ Hmu Hk Hr Hl).
        do 2 eexists. split; [reflexivity|]. rewrite emitted_app; simpl. auto.
    + rewrite (StartUDPForward_resolve_failed _ _ _ _ _ _ _ Hmu Hk Hr).
      do 2 eexists. split; [reflexivity|]. rewrite emitted_app; simpl. auto.
Qed.

(** C9, as amended.  Each operation takes the registry lock on entry and
    releases it only on return, so the whole call is one critical
    section: the map accesses and every network call of the call (the
    bind of a start, the address resolution and bind of a UDP start, the
    close of a stop) execute with the lock held.  A start on a free key
    and a stop on a registered key do make such a call. *)
Theorem lock_held_for_whole_call s listenAddr listenPort targetAddr targetPort :
  mu (fw s) = false ->
  (exists r s',
     StartTCPForward listenAddr listenPort targetAddr targetPort s = Returns r s'
     /\ mu (fw s') = false
     /\ whole_call_locked (emitted s s')
     /\ (tcpListeners (fw s) !! tcp_key listenAddr listenPort = None ->
         io_while_locked false (emitted s s')
           = [IOListen "tcp" (host_port listenAddr listenPort)]))
  /\
  (exists r s',
     StopTCPForward listenAddr listenPort s = Returns r s'
     /\ mu (fw s') = false
     /\ whole_call_locked (emitted s s')
     /\ (forall l, tcpListeners (fw s) !! tcp_key listenAddr listenPort = Some l ->
         io_while_locked false (emitted s s') = [IOListenerClose l]))
  /\
  (exists r s',
     StartUDPForward listenAddr listenPort targetAddr targetPort s = Returns r s'
     /\ mu (fw s') = false
     /\ whole_call_locked (emitted s s')
     /\ (udpListeners (fw s) !! udp_key listenAddr listenPort = None ->
         exists rest,
           io_while_locked false (emitted s s')
             = IOResolveUDPAddr "udp" (host_port listenAddr listenPort) :: rest
           /\ forall a w,
                net_ResolveUDPAddr "udp" (host_port listenAddr listenPort) (os s)
                  = (Ok a, w) ->
                rest = [IOListenUDP "udp" a]))
  /\
  (exists r s',
     StopUDPForward listenAddr listenPort s = Returns r s'
     /\ mu (fw s') = false
     /\ whole_call_locked (emitted s s')
     /\ (forall c, udpListeners (fw s) !! udp_key listenAddr listenPort = Some c ->
         io_while_locked false (emitted s s') = [IOUDPConnClose c]))
  /\
  (exists r s',
     IsTCPRunning listenAddr listenPort s = Returns r s'
     /\ mu (fw s') = false
     /\ whole_call_locked (emitted s s'))
  /\
  (exists r s',
     IsUDPRunning listenAddr listenPort s = Returns r s'
     /\ mu (fw s') = false
     /\ whole_call_locked (emitted s s')).
Proof.
  intros Hmu.
  assert (Hcs : forall t body, critical_body t = Some body ->
                 io_while_locked false t = io_calls body -> whole_call_locked t).
  { intros t body H1 H2. exists body. split; [apply critical_body_sound|]; assumption. }
  repeat apply conj.
  - destruct (tcpListeners (fw s) !! tcp_key listenAddr listenPort) as [l|] eqn:Hk.
    + rewrite (StartTCPForward_running _ _ _ _ _ _ Hmu Hk).
      do 2 eexists. split; [reflexivity|]. rewrite emitted_app.
      split; [exact Hmu|]. split; [eapply Hcs; reflexivity | discriminate].
    + destruct (net_Listen "tcp" (host_port listenAddr listenPort) (os s))
        as [[l|e] w] eqn:Hl.
      * rewrite (StartTCPForward_started _ _ _ _ _ _ _ Hmu Hk Hl).
        do 2 eexists. split; [reflexivity|]. rewrite emitted_app.
        split; [reflexivity|]. split; [eapply Hcs; reflexivity | reflexivity].
      * rewrite (StartTCPForward_bind_failed _ _ _ _ _ _ _ Hmu Hk Hl).
        do 2 eexists. split; [reflexivity|]. rewrite emitted_app.
        split; [exact Hmu|]. split; [eapply Hcs; reflexivity | reflexivity].
  - destruct (tcpListeners (fw s) !! tcp_key listenAddr listenPort) as [l|] eqn:Hk.
    + destruct (Listener_Close l (os s)) as [[e|] w] eqn:Hc.
      * rewrite (StopTCPForward_close_failed _ _ _ _ _ _ Hmu Hk Hc).
        do 2 eexists. split; [reflexivity|]. rewrite emitted_app.
        split; [exact Hmu|].
        split; [eapply Hcs; reflexivity | intros ? [= <-]; reflexivity].
      * rewrite (StopTCPForward_stopped _ _ _ _ _ Hmu Hk Hc).
        do 2 eexists. split; [reflexivity|]. rewrite emitted_app.
        split; [reflexivity|].
        split; [eapply Hcs; reflexivity | intros ? [= <-]; reflexivity].
    + rewrite (StopTCPForward_not_running _ _ _ Hmu Hk).
      do 2 eexists. split; [reflexivity|]. rewrite emitted_app.
      split; [exact Hmu|]. split; [eapply Hcs; reflexivity | discriminate].
  - destruct (udpListeners (fw s) !! udp_key listenAddr listenPort) as [c|] eqn:Hk.
    + rewrite (StartUDPForward_running _ _ _ _ _ _ Hmu Hk).
      do 2 eexists. split; [reflexivity|]. rewrite emitted_app.
      split; [exact Hmu|]. split; [eapply Hcs; reflexivity | discriminate].
    + destruct (net_ResolveUDPAddr "udp" (host_port listenAddr listenPort) (os s))
        as [[a|e] w] eqn:Hr.
      * destruct (net_ListenUDP "udp" a w) as [[c|e] w'] eqn:Hl.
        -- rewrite (StartUDPForward_started _ _ _ _ _ _ _ _ _ Hmu Hk Hr Hl).
           do 2 eexists. split; [reflexivity|]. rewrite emitted_app.
           split; [reflexivity|]. split; [eapply Hcs; reflexivity |].
           intros _. eexists. split; [reflexivity|]. intros ? ? [= <- <-]. reflexivity.
        -- rewrite (StartUDPForward_bind_failed _ _ _ _ _ _ _ _ _ Hmu Hk Hr Hl).
           do 2 eexists. split; [reflexivity|]. rewrite emitted_app.
           split; [exact Hmu|]. split; [eapply Hcs; reflexivity |].
           intros _. eexists. split; [reflexivity|]. intros ? ? [= <- <-]. reflexivity.
      * rewrite (StartUDPForward_resolve_failed _ _ _ _ _ _ _ Hmu Hk Hr).
        do 2 eexists. split; [reflexivity|]. rewrite emitted_app.
        split; [exact Hmu|]. split; [eapply Hcs; reflexivity |].
        intros _. eexists. split; [reflexivity|]. intros ? ?; discriminate.
  - destruct (udpListeners (fw s) !! udp_key listenAddr listenPort) as [c|] eqn:Hk.
    + destruct (UDPConn_Close c (os s)) as [[e|] w] eqn:Hc.
      * rewrite (StopUDPForward_close_failed _ _ _ _ _ _ Hmu Hk Hc).
        do 2 eexists. split; [reflexivity|]. rewrite emitted_app.
        split; [exact Hmu|].
        split; [eapply Hcs; reflexivity | intros ? [= <-]; reflexivity].
      * rewrite (StopUDPForward_stopped _ _ _ _ _ Hmu Hk Hc).
        do 2 eexists. split; [reflexivity|]. rewrite emitted_app.
        split; [reflexivity|].
        split; [eapply Hcs; reflexivity | intros ? [= <-]; reflexivity].
    + rewrite (StopUDPForward_not_running _ _ _ Hmu Hk).
      do 2 eexists. split; [reflexivity|]. rewrite emitted_app.
      split; [exact Hmu|]. split; [eapply Hcs; reflexivity | discriminate].
  - rewrite IsTCPRunning_eq by exact Hmu.
    do 2 eexists. split; [reflexivity|]. rewrite emitted_app.
    split; [exact Hmu|]. eapply Hcs; reflexivity.
  - rewrite IsUDPRunning_eq by exact Hmu.
    do 2 eexists. split; [reflexivity|]. rewrite emitted_app.
    split; [exact Hmu|]. eapply Hcs; reflexivity.
Qed.


(** C10.  The UDP start never looks at the target: whatever the target
    address and port, it returns ok and registers the session as soon as
    the listen address resolves and binds, and the only network calls it
    makes are those two.  The target is resolved inside the goroutine it
    launches; when that resolution fails the goroutine logs the error and
    returns at once, without reading or forwarding anything and without
    touching the registry.  The session stays registered and the status
    query returns true, until a stop closes the socket and removes it. *)
Theorem udp_start_ignores_target s listenAddr listenPort targetAddr targetPort a w c w' :
  mu (fw s) = false ->
  udpListeners (fw s) !! udp_key listenAddr listenPort = None ->
  net_ResolveUDPAddr "udp" (host_port listenAddr listenPort) (os s) = (Ok a, w) ->
  net_ListenUDP "udp" a w = (Ok c, w') ->
  exists s1,
    StartUDPForward listenAddr listenPort targetAddr targetPort s = Returns None s1
    /\ udpListeners (fw s1) !! udp_key listenAddr listenPort = Some c
    /\ io_calls (emitted s s1)
         = [IOResolveUDPAddr "udp" (host_port listenAddr listenPort); IOListenUDP "udp" a]
    /\ In (EvGo (GoHandleUDPForward c targetAddr targetPort)) (emitted s s1)
    /\ (forall e inbox,
          UDPRelay.handleUDPForward (fw s1) c targetAddr targetPort
            (UDPRelay.mkAnswers (Err e) inbox)
          = (fw s1,
             [UDPRelay.RResolve "udp" (host_port targetAddr targetPort);
              UDPRelay.RLog "Error resolving target address" e],
             UDPRelay.Returned))
    /\ (exists s2,
          IsUDPRunning listenAddr listenPort s1 = Returns true s2
          /\ fw s2 = fw s1
          /\ exists s3, IsUDPRunning listenAddr listenPort s2 = Returns true s3)
    /\ (forall w2, UDPConn_Close c (os s1) = (None, w2) ->
          exists s2 s3,
            StopUDPForward listenAddr listenPort s1 = Returns None s2
            /\ IsUDPRunning listenAddr listenPort s2 = Returns false s3).
Proof.
  intros Hmu Hk Hr Hl.
  rewrite (StartUDPForward_started _ _ _ _ _ _ _ _ _ Hmu Hk Hr Hl).
  eexists. split; [reflexivity|]. rewrite emitted_app. simpl.
  split; [apply lookup_insert_eq|]. split; [reflexivity|].
  split; [auto 10|]. split; [intros e inbox; reflexivity|]. split.
  - rewrite IsUDPRunning_eq by reflexivity. simpl. rewrite lookup_insert_eq.
    eexists. split; [reflexivity|]. split; [reflexivity|].
    rewrite IsUDPRunning_eq by reflexivity. simpl. rewrite lookup_insert_eq.
    eexists. reflexivity.
  - intros w2 Hc.
    erewrite StopUDPForward_stopped;
      [ | reflexivity | simpl; apply lookup_insert_eq | exact Hc ].
    do 2 eexists. split; [reflexivity|].
    rewrite IsUDPRunning_eq by reflexivity. simpl. rewrite lookup_delete_eq.
    reflexivity.
Qed.

End RegistryClaims.

Lemma stop_absent_is_NotRunning_witness :
  exists s',
    StopTCPForward "127.0.0.1" "8080" (init sim_empty)
      = Returns (Some (NotRunning TCP "127.0.0.1" "8080")) s'
    /\ fw s' = fw (init sim_empty).
Proof.
  destruct (stop_absent_is_NotRunning (init sim_empty) "127.0.0.1" "8080") as [H _];
    [reflexivity|].
  destruct H as (s' & H1 & H2 & _); [reflexivity|].
  exists s'; split; assumption.
Defined.

Lemma start_twice_is_AlreadyRunning_witness :
  (exists s1 s2,
     StartTCPForward "127.0.0.1" "8080" "10.0.0.1" "80" (init sim_empty) = Returns None s1
     /\ tcpListeners (fw s1) = {[ tcp_key "127.0.0.1" "8080" := ListenerFD 3 ]}
     /\ StartTCPForward "127.0.0.1" "8080" "10.0.0.2" "81" s1
        = Returns (Some (AlreadyRunning TCP "127.0.0.1" "8080")) s2
     /\ fw s2 = fw s1
     /\ io_calls (emitted s1 s2) = []
     /\ size (tcpListeners (fw s2)) = 1)
  /\
  (exists s',
     StartTCPForward "127.0.0.1" "8080" "10.0.0.2" "81"
       (mkState (mkForwarder {[ tcp_key "127.0.0.1" "8080" := ListenerFD 3 ]} ∅ false)
                (mkSim 4 [(3, ("tcp", "127.0.0.1", 8080%N))] []) [])
     = Returns (Some (AlreadyRunning TCP "127.0.0.1" "8080")) s'
     /\ tcpListeners (fw s') !! tcp_key "127.0.0.1" "8080" = Some (ListenerFD 3)
     /\ os s' = mkSim 4 [(3, ("tcp", "127.0.0.1", 8080%N))] []).
Proof.
  split.
  - destruct (start_twice_is_AlreadyRunning (init sim_empty)
                "127.0.0.1" "8080" "10.0.0.1" "80") as (_ & _ & _ & _ & H & _);
      [reflexivity|].
    destruct (H (ListenerFD 3) (mkSim 4 [(3, ("tcp", "127.0.0.1", 8080%N))] []))
      as (s1 & H1 & _ & H2 & _ & _ & H3); [reflexivity | vm_compute; reflexivity |].
    destruct (H3 "10.0.0.2" "81") as (s2 & H4 & H5 & _ & H6 & _ & H7).
    exists s1, s2. split; [exact H1|]. split; [exact H2|]. split; [exact H4|].
    split; [exact H5|]. split; [exact H6|exact H7].
  - destruct (start_twice_is_AlreadyRunning
                (mkState (mkForwarder {[ tcp_key "127.0.0.1" "8080" := ListenerFD 3 ]}
                                      ∅ false)
                         (mkSim 4 [(3, ("tcp", "127.0.0.1", 8080%N))] []) [])
                "127.0.0.1" "8080" "10.0.0.2" "81") as (H & _); [reflexivity|].
    destruct (H (ListenerFD 3)) as (s' & H1 & _ & H2 & H3 & _);
      [vm_compute; reflexivity|].
    exists s'. split; [exact H1|]. split; [exact H2|exact H3].
Defined.

Lemma start_stop_then_running_witness :
  (exists r s1 s2,
     StartTCPForward "127.0.0.1" "8080" "10.0.0.1" "80" (init sim_empty) = Returns r s1
     /\ IsTCPRunning "127.0.0.1" "8080" s1 = Returns true s2)
  /\
  (exists s1 s2 s3,
     StartTCPForward "127.0.0.1" "8080" "10.0.0.1" "80" (init sim_empty) = Returns None s1
     /\ StopTCPForward "127.0.0.1" "8080" s1 = Returns None s2
     /\ io_calls (emitted s1 s2) = [IOListenerClose (ListenerFD 3)]
     /\ tcpListeners (fw s2) !! tcp_key "127.0.0.1" "8080" = None
     /\ IsTCPRunning "127.0.0.1" "8080" s2 = Returns false s3)
  /\
  (exists s1 s2 s3,
     StartTCPForward "127.0.0.1" "8080" "10.0.0.1" "80" (init sim_close_fails)
       = Returns None s1
     /\ StopTCPForward "127.0.0.1" "8080" s1
        = Returns (Some (CloseFailed TCP (NetError "close: input/output error"))) s2
     /\ io_calls (emitted s1 s2) = [IOListenerClose (ListenerFD 3)]
     /\ tcpListeners (fw s2) !! tcp_key "127.0.0.1" "8080" = Some (ListenerFD 3)
     /\ IsTCPRunning "127.0.0.1" "8080" s2 = Returns true s3)
  /\
  (exists s1 s2,
     StopTCPForward "127.0.0.1" "8080" (init sim_empty)
       = Returns (Some (NotRunning TCP "127.0.0.1" "8080")) s1
     /\ IsTCPRunning "127.0.0.1" "8080" s1 = Returns false s2).
Proof.
  split; [|split; [|split]].
  - destruct (start_stop_then_running (init sim_empty)
                "127.0.0.1" "8080" "10.0.0.1" "80") as (H & _);
      [reflexivity|].
    destruct H as (r & s1 & s2 & H1 & H2 & _); [vm_compute; reflexivity|].
    exists r, s1, s2; split; assumption.
  - destruct (start_stop_then_running (init sim_empty)
                "127.0.0.1" "8080" "10.0.0.1" "80") as (_ & _ & _ & _ & H & _);
      [reflexivity|].
    destruct (H (ListenerFD 3) (mkSim 4 [(3, ("tcp", "127.0.0.1", 8080%N))] []))
      as (s1 & r & s2 & s3 & H1 & H2 & H3 & _ & H4 & H5 & H6);
      [reflexivity | vm_compute; reflexivity |].
    exists s1, s2, s3. split; [exact H1|].
    split; [rewrite H2, H4; vm_compute; reflexivity|].
    split; [exact H3|]. split; [rewrite H5; vm_compute; reflexivity|].
    rewrite H6; vm_compute; reflexivity.
  - destruct (start_stop_then_running (init sim_close_fails)
                "127.0.0.1" "8080" "10.0.0.1" "80") as (_ & _ & _ & _ & H & _);
      [reflexivity|].
    destruct (H (ListenerFD 3) (mkSim 4 [(3, ("tcp", "127.0.0.1", 8080%N))] [3]))
      as (s1 & r & s2 & s3 & H1 & H2 & H3 & _ & H4 & H5 & H6);
      [reflexivity | vm_compute; reflexivity |].
    exists s1, s2, s3. split; [exact H1|].
    split; [rewrite H2, H4; vm_compute; reflexivity|].
    split; [exact H3|]. split; [rewrite H5; vm_compute; reflexivity|].
    rewrite H6; vm_compute; reflexivity.
  - destruct (start_stop_then_running (init sim_empty)
                "127.0.0.1" "8080" "10.0.0.1" "80") as (_ & _ & H & _);
      [reflexivity|].
    destruct H as (r & s1 & s2 & H1 & H2 & H3).
    simpl in H3. destruct H3 as (-> & _).
    exists s1, s2. split; [exact H1|exact H2].
Defined.

(** C1, as stated, fails: the bind succeeds and the start is followed by a
    true status, but the close of the stop fails, so the stop returns
    CloseFailed and the status query after it still returns true. *)
Lemma start_stop_then_running_counterexample :
  tcp_bind_ok "127.0.0.1" "8080" sim_close_fails = true
  /\ returned ((StartTCPForward "127.0.0.1" "8080" "10.0.0.1" "80" ;;;
                IsTCPRunning "127.0.0.1" "8080")%go (init sim_close_fails))
     = Some true
  /\ returned ((StartTCPForward "127.0.0.1" "8080" "10.0.0.1" "80" ;;;
                StopTCPForward "127.0.0.1" "8080")%go (init sim_close_fails))
     = Some (Some (CloseFailed TCP (NetError "close: input/output error")))
  /\ returned ((StartTCPForward "127.0.0.1" "8080" "10.0.0.1" "80" ;;;
                StopTCPForward "127.0.0.1" "8080" ;;;
                IsTCPRunning "127.0.0.1" "8080")%go (init sim_close_fails))
     = Some true.
Proof. vm_compute. repeat split. Qed.

Lemma stop_closes_then_removes_witness :
  exists s',
    StopTCPForward "127.0.0.1" "8080"
      (mkState (mkForwarder {[ tcp_key "127.0.0.1" "8080" := ListenerFD 3 ]} ∅ false)
               (mkSim 4 [(3, ("tcp", "127.0.0.1", 8080%N))] []) [])
    = Returns None s'
    /\ tcpListeners (fw s') !! tcp_key "127.0.0.1" "8080" = None.
Proof.
  destruct (stop_closes_then_removes
              (mkState (mkForwarder {[ tcp_key "127.0.0.1" "8080" := ListenerFD 3 ]} ∅ false)
                       (mkSim 4 [(3, ("tcp", "127.0.0.1", 8080%N))] []) [])
              "127.0.0.1" "8080") as (H & _); [reflexivity|].
  destruct (H (ListenerFD 3)) as (H1 & _); [vm_compute; reflexivity|].
  destruct (H1 (mkSim 4 [] [])) as (s' & H2 & _ & H3 & _); [vm_compute; reflexivity|].
  exists s'; split; assumption.
Defined.

(** C3, as stated, fails: the session started on a socket whose close
    fails is still registered after the stop has returned CloseFailed. *)
Lemma stop_closes_then_removes_counterexample :
  match StartTCPForward "127.0.0.1" "8080" "10.0.0.1" "80" (init sim_close_fails) with
  | Returns None s1 =>
      tcpListeners (fw s1) !! tcp_key "127.0.0.1" "8080" = Some (ListenerFD 3)
      /\ match StopTCPForward "127.0.0.1" "8080" s1 with
         | Returns r s2 =>
             r = Some (CloseFailed TCP (NetError "close: input/output error"))
             /\ tcpListeners (fw s2) !! tcp_key "127.0.0.1" "8080" = Some (ListenerFD 3)
         | _ => False
         end
  | _ => False
  end.
Proof. vm_compute. repeat split. Qed.

Lemma start_defers_port_check_witness :
  exists r s',
    StartTCPForward "127.0.0.1" "70000" "10.0.0.1" "80" (init sim_empty) = Returns r s'
    /\ r = Some (BindFailed "127.0.0.1" "70000" (NetError "invalid port"))
    /\ fw s' = fw (init sim_empty).
Proof.
  destruct (start_defers_port_check (init sim_empty)
              "127.0.0.1" "70000" "10.0.0.1" "80") as (H & _); [reflexivity|].
  destruct H as (r & s' & H1 & _ & H2); [reflexivity|].
  exists r, s'. split; [assumption|].
  vm_compute in H2. destruct H2 as (H2 & H3 & _). split; assumption.
Defined.

(** C6, as stated, fails: the port string "0" is outside 1 to 65535, yet
    the start passes it on, the bind succeeds (the system picks a port)
    and the session is registered. *)
Lemma start_defers_port_check_counterexample :
  spec_valid_port "0" = false
  /\ match StartTCPForward "127.0.0.1" "0" "10.0.0.1" "80" (init sim_empty) with
     | Returns r s1 =>
         r = None
         /\ tcpListeners (fw s1) !! tcp_key "127.0.0.1" "0" = Some (ListenerFD 3)
     | _ => False
     end
  /\ match StartUDPForward "127.0.0.1" "0" "10.0.0.1" "80" (init sim_empty) with
     | Returns r s1 =>
         r = None
         /\ udpListeners (fw s1) !! udp_key "127.0.0.1" "0" = Some (UDPConnFD 3)
     | _ => False
     end.
Proof. vm_compute. repeat split. Qed.

Lemma lock_held_for_whole_call_witness :
  exists r s',
    StartTCPForward "127.0.0.1" "8080" "10.0.0.1" "80" (init sim_empty) = Returns r s'
    /\ whole_call_locked (emitted (init sim_empty) s').
Proof.
  destruct (lock_held_for_whole_call (init sim_empty)
              "127.0.0.1" "8080" "10.0.0.1" "80") as (H & _); [reflexivity|].
  destruct H as (r & s' & H1 & _ & H2 & _).
  exists r, s'; split; assumption.
Defined.

(** C9, as stated, fails: the bind of a start and the close of a stop are
    made between the lock and the unlock of their call. *)
Lemma lock_held_for_whole_call_counterexample :
  match StartTCPForward "127.0.0.1" "8080" "10.0.0.1" "80" (init sim_empty) with
  | Returns _ s1 =>
      trace s1 = [EvLock; EvLookup TCP "tcp:127.0.0.1:8080";
                  EvIO (IOListen "tcp" "127.0.0.1:8080");
                  EvInsert TCP "tcp:127.0.0.1:8080";
                  EvGo (GoHandleTCPForward (ListenerFD 3) "10.0.0.1" "80");
                  EvLog "Started TCP forward: 127.0.0.1:8080 -> 10.0.0.1:80";
                  EvUnlock]
      /\ io_while_locked false (trace s1) = [IOListen "tcp" "127.0.0.1:8080"]
      /\ match StopTCPForward "127.0.0.1" "8080" s1 with
         | Returns _ s2 =>
             io_while_locked false (emitted s1 s2) = [IOListenerClose (ListenerFD 3)]
         | _ => False
         end
  | _ => False
  end.
Proof. vm_compute. repeat split. Qed.

Lemma udp_start_ignores_target_witness :
  exists s1,
    StartUDPForward "127.0.0.1" "5353" "no.such.host.invalid" "53" (init sim_empty)
      = Returns None s1
    /\ exists s2, IsUDPRunning "127.0.0.1" "5353" s1 = Returns true s2.
Proof.
  destruct (udp_start_ignores_target (init sim_empty)
              "127.0.0.1" "5353" "no.such.host.invalid" "53"
              (mkUDPAddr "127.0.0.1" 5353) sim_empty (UDPConnFD 3)
              (mkSim 4 [(3, ("udp", "127.0.0.1", 5353%N))] []))
    as (s1 & H1 & _ & _ & _ & _ & (s2 & H2 & _) & _);
    try (vm_compute; reflexivity).
  exists s1; split; [assumption|]. exists s2; assumption.
Defined.

(** ** Session keys *)

Lemma append_cons (c : Ascii.ascii) (a b : string) :
  String c a +:+ b = String c (a +:+ b).
Proof. reflexivity. Qed.

Lemma split_last_colon_none (p : string) :
  has_colon p = false -> split_last_colon p = None.
Proof.
  induction p as [|c p IH]; simpl; [reflexivity|].
  intros [Hc Hp]%orb_false_elim. rewrite (IH Hp), Hc. reflexivity.
Qed.

Lemma split_last_colon_host_port (a p : string) :
  has_colon p = false -> split_last_colon (host_port a p) = Some (a, p).
Proof.
  intros Hp. unfold host_port. induction a as [|c a IH].
  - change ("" +:+ ":" +:+ p) with (String ":" p). simpl.
    rewrite (split_last_colon_none p Hp). reflexivity.
  - rewrite append_cons. simpl. rewrite IH. reflexivity.
Qed.

Lemma host_port_inj (a1 p1 a2 p2 : string) :
  has_colon p1 = false -> has_colon p2 = false ->
  host_port a1 p1 = host_port a2 p2 -> a1 = a2 /\ p1 = p2.
Proof.
  intros H1 H2 Heq.
  pose proof (split_last_colon_host_port a1 p1 H1) as E1.
  rewrite Heq, (split_last_colon_host_port a2 p2 H2) in E1.
  injection E1 as -> ->. split; reflexivity.
Qed.

Lemma tcp_key_host_port (a p : string) : tcp_key a p = "tcp:" +:+ host_port a p.
Proof. reflexivity. Qed.

Lemma udp_key_host_port (a p : string) : udp_key a p = "udp:" +:+ host_port a p.
Proof. reflexivity. Qed.

(** C7, as amended.  The key is the protocol tag followed by address, a
    colon and port, as given.  For ports that contain no colon (every
    numeric port) two keys of one protocol are equal exactly when the
    addresses are equal and the ports are equal, so an entry registered
    for one endpoint is not seen under another; a TCP key is never a UDP
    key. *)
Theorem key_identifies_endpoint (a1 p1 a2 p2 : string) :
  has_colon p1 = false -> has_colon p2 = false ->
  (tcp_key a1 p1 = tcp_key a2 p2 <-> a1 = a2 /\ p1 = p2)
  /\ (udp_key a1 p1 = udp_key a2 p2 <-> a1 = a2 /\ p1 = p2)
  /\ tcp_key a1 p1 <> udp_key a2 p2
  /\ (forall (m : gmap string Listener) l,
        (a1, p1) <> (a2, p2) ->
        <[tcp_key a1 p1 := l]> m !! tcp_key a2 p2 = m !! tcp_key a2 p2)
  /\ (forall (m : gmap string UDPConn) c,
        (a1, p1) <> (a2, p2) ->
        <[udp_key a1 p1 := c]> m !! udp_key a2 p2 = m !! udp_key a2 p2).
Proof.
  intros H1 H2.
  assert (Ht : tcp_key a1 p1 = tcp_key a2 p2 <-> a1 = a2 /\ p1 = p2).
  { split; [|intros [-> ->]; reflexivity].
    rewrite !tcp_key_host_port. intros Heq%(inj (String.app "tcp:")).
    apply host_port_inj; assumption. }
  assert (Hu : udp_key a1 p1 = udp_key a2 p2 <-> a1 = a2 /\ p1 = p2).
  { split; [|intros [-> ->]; reflexivity].
    rewrite !udp_key_host_port. intros Heq%(inj (String.app "udp:")).
    apply host_port_inj; assumption. }
  split; [exact Ht|]. split; [exact Hu|]. split; [|split].
  - rewrite tcp_key_host_port, udp_key_host_port. discriminate.
  - intros m l Hne. apply lookup_insert_ne. intros [-> ->]%Ht. apply Hne; reflexivity.
  - intros m c Hne. apply lookup_insert_ne. intros [-> ->]%Hu. apply Hne; reflexivity.
Qed.

Lemma key_identifies_endpoint_witness :
  tcp_key "0.0.0.0" "8080" = tcp_key "" "8080" <-> "0.0.0.0" = "" /\ "8080" = "8080".
Proof.
  destruct (key_identifies_endpoint "0.0.0.0" "8080" "" "8080") as (H & _);
    [reflexivity | reflexivity | exact H].
Defined.

(** C7, as stated, fails: a colon can move between address and port. *)
Lemma key_identifies_endpoint_counterexample :
  tcp_key "10.0.0.1:80" "81" = tcp_key "10.0.0.1" "80:81"
  /\ udp_key "10.0.0.1:80" "81" = udp_key "10.0.0.1" "80:81"
  /\ ("10.0.0.1:80", "81") <> ("10.0.0.1", "80:81")
  /\ (<[tcp_key "10.0.0.1:80" "81" := ListenerFD 3]> ∅ : gmap string Listener)
       !! tcp_key "10.0.0.1" "80:81" = Some (ListenerFD 3).
Proof. repeat split; try discriminate. Qed.


(** ** The byte pump *)

Section Pump.
Import TCPRelay.
Variable target : string.

Lemma handler_step_inv h ev h' :
  dialed_inv h ->
  handler_step target h ev = Some h' ->
  dialed_inv h'
  /\ forall d, is_exited (task d (pump h'))
               = is_exited (task d (pump h)) || fails_in d ev.
Proof.
  unfold dialed_inv, handler_step.
  destruct h as [st co tco [sd ds dw sw] lg]; simpl.
  destruct st; [intros [] | | intros _; discriminate].
  intros (-> & -> & Hw).
  destruct ev as [e | [] data [e|] | [] [e|]]; simpl; try discriminate;
    destruct sd, ds; simpl in *; try discriminate;
    try (destruct (0 <? length data)%nat);
    intros [= <-]; simpl;
    (split; [auto | intros []; reflexivity]).
Qed.

Lemma handler_run_inv evs : forall h h',
  dialed_inv h ->
  handler_run target h evs = Some h' ->
  dialed_inv h'
  /\ forall d, is_exited (task d (pump h'))
               = is_exited (task d (pump h)) || dir_failed d evs.
Proof.
  induction evs as [|ev evs IH]; simpl; intros h h' Hinv.
  - intros [= <-]. split; [assumption|]. intros d. rewrite orb_false_r. reflexivity.
  - destruct (handler_step target h ev) as [h1|] eqn:Hs; [|discriminate].
    intros Hr. destruct (handler_step_inv _ _ _ Hinv Hs) as [Hinv1 Hex1].
    destruct (IH _ _ Hinv1 Hr) as [Hinv' Hex']. split; [assumption|].
    intros d. rewrite Hex', Hex1, orb_assoc. reflexivity.
Qed.

(** C5, as amended.  Once the target is dialed, each copy task leaves its
    loop exactly when a read or a write of its own direction has
    returned an error (end of stream included); what the other
    direction observes does not end it.  The two connections are closed
    together, by the deferred closes, exactly when both copy tasks have
    left their loops; until then both stay open. *)
Theorem pump_closes_after_both_exit evs h :
  handler_run target accepted (DialReturns None :: evs) = Some h ->
  (forall d, is_exited (task d (pump h)) = dir_failed d evs)
  /\ conn_open h = negb (dir_failed SrcToDst evs && dir_failed DstToSrc evs)
  /\ targetConn_open h = negb (dir_failed SrcToDst evs && dir_failed DstToSrc evs)
  /\ (stage h = Finished <-> dir_failed SrcToDst evs && dir_failed DstToSrc evs = true).
Proof.
  simpl. intros Hr.
  apply handler_run_inv in Hr as [Hinv Hex]; [|repeat split].
  assert (Hex' : forall d, is_exited (task d (pump h)) = dir_failed d evs).
  { intros d. rewrite Hex. destruct d; reflexivity. }
  split; [exact Hex'|].
  rewrite <- (Hex' SrcToDst), <- (Hex' DstToSrc). simpl.
  unfold dialed_inv in Hinv. fold (wait_returns (pump h)).
  destruct (stage h); [destruct Hinv | |];
    destruct Hinv as (-> & -> & ->); simpl; repeat split; auto; discriminate.
Qed.

End Pump.

Lemma pump_closes_after_both_exit_witness :
  exists h,
    TCPRelay.handler_run "10.0.0.1:80" TCPRelay.accepted
      [TCPRelay.DialReturns None;
       TCPRelay.ReadReturns TCPRelay.SrcToDst [Byte.x68; Byte.x69] None;
       TCPRelay.WriteReturns TCPRelay.SrcToDst None;
       TCPRelay.ReadReturns TCPRelay.SrcToDst [] (Some TCPRelay.io_EOF);
       TCPRelay.ReadReturns TCPRelay.DstToSrc [] (Some TCPRelay.io_EOF)]
    = Some h
    /\ TCPRelay.conn_open h = false
    /\ TCPRelay.targetConn_open h = false.
Proof.
  destruct (pump_closes_after_both_exit "10.0.0.1:80"
              [TCPRelay.ReadReturns TCPRelay.SrcToDst [Byte.x68; Byte.x69] None;
               TCPRelay.WriteReturns TCPRelay.SrcToDst None;
               TCPRelay.ReadReturns TCPRelay.SrcToDst [] (Some TCPRelay.io_EOF);
               TCPRelay.ReadReturns TCPRelay.DstToSrc [] (Some TCPRelay.io_EOF)]
              (TCPRelay.mkHandler TCPRelay.Finished false false
                 (TCPRelay.mkPump TCPRelay.Exited TCPRelay.Exited [Byte.x68; Byte.x69] []) []))
    as (_ & H1 & H2 & _); [reflexivity|].
  eexists. split; [reflexivity|]. split; [exact H1 | exact H2].
Defined.

(** C5, as stated, fails: the client side reaches end of stream, its copy
    task leaves, and yet both connections stay open and the opposite task
    is still waiting in its read; it goes on relaying what the target
    sends. *)
Lemma pump_closes_after_both_exit_counterexample :
  TCPRelay.handler_run "10.0.0.1:80" TCPRelay.accepted
    [TCPRelay.DialReturns None;
     TCPRelay.ReadReturns TCPRelay.SrcToDst [] (Some TCPRelay.io_EOF)]
  = Some (TCPRelay.mkHandler TCPRelay.Forwarding true true
            (TCPRelay.mkPump TCPRelay.Exited TCPRelay.InRead [] []) [])
  /\ TCPRelay.handler_run "10.0.0.1:80" TCPRelay.accepted
    [TCPRelay.DialReturns None;
     TCPRelay.ReadReturns TCPRelay.SrcToDst [] (Some TCPRelay.io_EOF);
     TCPRelay.ReadReturns TCPRelay.DstToSrc [Byte.x68] None;
     TCPRelay.WriteReturns TCPRelay.DstToSrc None]
  = Some (TCPRelay.mkHandler TCPRelay.Forwarding true true
            (TCPRelay.mkPump TCPRelay.Exited TCPRelay.InRead [] [Byte.x68]) []).
Proof. split; reflexivity. Qed.

(** ** The datagram relay *)

Section Datagram.
Import UDPRelay.
Variables (conn : UDPConn) (target : UDPAddr).

Lemma ReadFromUDP_spec (buf dg : list Byte.byte) :
  length (ReadFromUDP buf dg).2 = length buf
  /\ take (ReadFromUDP buf dg).1 (ReadFromUDP buf dg).2 = take (length buf) dg.
Proof.
  unfold ReadFromUDP; simpl. split.
  - rewrite length_app, length_take, length_drop. lia.
  - rewrite take_app_le by (rewrite length_take; lia).
    rewrite take_take.
    destruct (Nat.le_ge_cases (length dg) (length buf)) as [H|H].
    + rewrite !Nat.min_l by lia. 
      rewrite !take_ge by lia. reflexivity.
    + rewrite !Nat.min_r by lia. reflexivity.
Qed.

Lemma receive_loop_datagram buf dg from werr rest :
  receive_loop conn target buf (Datagram dg from werr :: rest)
  = let rd := ReadFromUDP buf dg in
    let r := receive_loop conn target rd.2 rest in
    (RReadFrom conn rd.1 from
       :: RWriteTo conn (take rd.1 rd.2) target
       :: match werr with
          | Some e => RLog "Error forwarding UDP data" e
          | None => RGoReply conn from target
          end
       :: r.1, r.2).
Proof.
  cbn [receive_loop]. destruct (ReadFromUDP buf dg) as [n buf'].
  cbn [fst snd]. destruct (receive_loop conn target buf' rest), werr; reflexivity.
Qed.

Lemma receive_loop_spec (inbox : list Recv) : forall buf,
  length buf = buf_len ->
  resolves (receive_loop conn target buf inbox).1 = []
  /\ writes (receive_loop conn target buf inbox).1
     = map (fun d => (conn, take buf_len d.1.1, target)) (received inbox)
  /\ reads (receive_loop conn target buf inbox).1
     = map (fun d => (conn, d.1.2)) (received inbox)
  /\ replies (receive_loop conn target buf inbox).1
     = omap (fun d => match d.2 with None => Some d.1.2 | Some _ => None end)
            (received inbox)
  /\ (receive_loop conn target buf inbox).2
     = if existsb is_RecvError inbox then Returned else BlockedInRead.
Proof.
  induction inbox as [|[e | dg from werr] rest IH]; intros buf Hlen.
  - simpl. auto.
  - simpl. auto.
  - rewrite receive_loop_datagram. cbv zeta.
    destruct (ReadFromUDP_spec buf dg) as [Hl Ht].
    destruct (IH (ReadFromUDP buf dg).2) as (H1 & H2 & H3 & H4 & H5); [congruence|].
    rewrite Ht, Hlen. clear Ht Hl IH.
    destruct (ReadFromUDP buf dg) as [n buf'].
    destruct (receive_loop conn target buf' rest) as [t st].
    generalize dependent buf_len. intros L _ H2.
    destruct werr; simpl in *; rewrite ?H1, ?H2, ?H3, ?H4; auto.
Qed.

(** C8.  With the target resolved, the relay resolves it exactly once,
    before its first read.  Then, for every datagram a read on the bound
    socket returns, in order, it writes the same payload bytes to the
    resolved target through that same socket, having taken the sender's
    address, which it hands to the reply task when the write succeeds.
    A failed write toward the target does not end the loop; the loop is
    over exactly when a read on the bound socket has returned an error,
    and is otherwise waiting in its next read.  (A datagram fits the
    65535-byte buffer: a UDP payload is at most 65527 bytes.) *)
Theorem datagram_relay_loop (f : Forwarder) (targetAddr targetPort : string)
    (inbox : list Recv) :
  Forall (fun d => length d.1.1 <= buf_len) (received inbox) ->
  exists t st,
    handleUDPForward f conn targetAddr targetPort (mkAnswers (Ok target) inbox)
      = (f, RResolve "udp" (host_port targetAddr targetPort) :: t, st)
    /\ resolves t = []
    /\ writes t = map (fun d => (conn, d.1.1, target)) (received inbox)
    /\ reads t = map (fun d => (conn, d.1.2)) (received inbox)
    /\ replies t
         = omap (fun d => match d.2 with None => Some d.1.2 | Some _ => None end)
                (received inbox)
    /\ (st = Returned <-> existsb is_RecvError inbox = true)
    /\ (st = BlockedInRead <-> existsb is_RecvError inbox = false).
Proof.
  intros Hfit. unfold handleUDPForward. cbn [resolved UDPRelay.inbox].
  destruct (receive_loop_spec inbox (make buf_len)) as (H1 & H2 & H3 & H4 & H5).
  { unfold make. apply length_replicate. }
  destruct (receive_loop conn target (make buf_len) inbox) as [t st].
  cbn [fst snd] in *. exists t, st. split; [reflexivity|].
  split; [exact H1|]. split.
  - rewrite H2. apply map_ext_Forall.
    eapply Forall_impl; [exact Hfit|]. cbv beta.
    intros d Hd. rewrite take_ge by exact Hd. reflexivity.
  - split; [exact H3|]. split; [exact H4|]. rewrite H5.
    destruct (existsb is_RecvError inbox); split; split;
      (reflexivity || discriminate).
Qed.

End Datagram.

Lemma datagram_relay_loop_witness :
  exists t,
    UDPRelay.handleUDPForward NewForwarder (UDPConnFD 3) "10.0.0.1" "53"
      (UDPRelay.mkAnswers (Ok (mkUDPAddr "10.0.0.1" 53))
         [UDPRelay.Datagram [Byte.x68; Byte.x69] (mkUDPAddr "192.168.1.7" 40000) None;
          UDPRelay.Datagram [Byte.x6f] (mkUDPAddr "192.168.1.8" 40001)
            (Some (NetError "network is unreachable"));
          UDPRelay.Datagram [Byte.x21] (mkUDPAddr "192.168.1.7" 40000) None;
          UDPRelay.RecvError (NetError "use of closed network connection")])
    = (NewForwarder, UDPRelay.RResolve "udp" "10.0.0.1:53" :: t, UDPRelay.Returned)
    /\ UDPRelay.writes t
       = [(UDPConnFD 3, [Byte.x68; Byte.x69], mkUDPAddr "10.0.0.1" 53);
          (UDPConnFD 3, [Byte.x6f], mkUDPAddr "10.0.0.1" 53);
          (UDPConnFD 3, [Byte.x21], mkUDPAddr "10.0.0.1" 53)].
Proof.
  destruct (datagram_relay_loop (UDPConnFD 3) (mkUDPAddr "10.0.0.1" 53)
              NewForwarder "10.0.0.1" "53"
              [UDPRelay.Datagram [Byte.x68; Byte.x69] (mkUDPAddr "192.168.1.7" 40000) None;
               UDPRelay.Datagram [Byte.x6f] (mkUDPAddr "192.168.1.8" 40001)
                 (Some (NetError "network is unreachable"));
               UDPRelay.Datagram [Byte.x21] (mkUDPAddr "192.168.1.7" 40000) None;
               UDPRelay.RecvError (NetError "use of closed network connection")])
    as (t & st & H1 & _ & H2 & _ & _ & H3 & _).
  - unfold UDPRelay.buf_len.
    cbn [UDPRelay.received].
    repeat (apply Forall_cons_2; [cbn [fst length]; lia|]). apply Forall_nil_2.
  - exists t. destruct H3 as [_ H3]. rewrite (H3 eq_refl) in H1.
    split; [exact H1 | exact H2].
Defined.

(** * Further properties of the registry *)

Section RegistryPost.
Context {W : Type} {net : Net W}.
Implicit Types (s : State W) (listenAddr listenPort targetAddr targetPort : string).

(** What a start leaves behind, whatever its branch. *)
Lemma StartTCPForward_post s listenAddr listenPort targetAddr targetPort :
  mu (fw s) = false ->
  exists r s',
    StartTCPForward listenAddr listenPort targetAddr targetPort s = Returns r s'
    /\ mu (fw s') = false
    /\ udpListeners (fw s') = udpListeners (fw s)
    /\ match r with
       | None =>
           tcpListeners (fw s) !! tcp_key listenAddr listenPort = None
           /\ exists l, tcpListeners (fw s')
                        = <[tcp_key listenAddr listenPort := l]> (tcpListeners (fw s))
       | Some _ => tcpListeners (fw s') = tcpListeners (fw s)
       end.
Proof.
  intros Hmu.
  destruct (tcpListeners (fw s) !! tcp_key listenAddr listenPort) as [l|] eqn:Hk.
  - rewrite (StartTCPForward_running _ _ _ _ _ _ Hmu Hk).
    do 2 eexists. split; [reflexivity|]. simpl. auto.
  - destruct (net_Listen "tcp" (host_port listenAddr listenPort) (os s))
      as [[l|e] w] eqn:Hl.
    + rewrite (StartTCPForward_started _ _ _ _ _ _ _ Hmu Hk Hl).
      do 2 eexists. split; [reflexivity|]. simpl. eauto 10.
    + rewrite (StartTCPForward_bind_failed _ _ _ _ _ _ _ Hmu Hk Hl).
      do 2 eexists. split; [reflexivity|]. simpl. auto.
Qed.

Lemma StartUDPForward_post s listenAddr listenPort targetAddr targetPort :
  mu (fw s) = false ->
  exists r s',
    StartUDPForward listenAddr listenPort targetAddr targetPort s = Returns r s'
    /\ mu (fw s') = false
    /\ tcpListeners (fw s') = tcpListeners (fw s)
    /\ match r with
       | None =>
           udpListeners (fw s) !! udp_key listenAddr listenPort = None
           /\ exists c, udpListeners (fw s')
                        = <[udp_key listenAddr listenPort := c]> (udpListeners (fw s))
       | Some _ => udpListeners (fw s') = udpListeners (fw s)
       end.
Proof.
  intros Hmu.
  destruct (udpListeners (fw s) !! udp_key listenAddr listenPort) as [c|] eqn:Hk.
  - rewrite (StartUDPForward_running _ _ _ _ _ _ Hmu Hk).
    do 2 eexists. split; [reflexivity|]. simpl. auto.
  - destruct (net_ResolveUDPAddr "udp" (host_port listenAddr listenPort) (os s))
      as [[a|e] w] eqn:Hr.
    + destruct (net_ListenUDP "udp" a w) as [[c|e] w'] eqn:Hl.
      * rewrite (StartUDPForward_started _ _ _ _ _ _ _ _ _ Hmu Hk Hr Hl).
        do 2 eexists. split; [reflexivity|]. simpl. eauto 10.
      * rewrite (StartUDPForward_bind_failed _ _ _ _ _ _ _ _ _ Hmu Hk Hr Hl).
        do 2 eexists. split; [reflexivity|]. simpl. auto.
    + rewrite (StartUDPForward_resolve_failed _ _ _ _ _ _ _ Hmu Hk Hr).
      do 2 eexists. split; [reflexivity|]. simpl. auto.
Qed.

Lemma StopTCPForward_post s listenAddr listenPort :
  mu (fw s) = false ->
  exists r s',
    StopTCPForward listenAddr listenPort s = Returns r s'
    /\ mu (fw s') = false
    /\ udpListeners (fw s') = udpListeners (fw s)
    /\ match r with
       | None =>
           is_Some (tcpListeners (fw s) !! tcp_key listenAddr listenPort)
           /\ tcpListeners (fw s')
              = delete (tcp_key listenAddr listenPort) (tcpListeners (fw s))
       | Some _ => tcpListeners (fw s') = tcpListeners (fw s)
       end.
Proof.
  intros Hmu.
  destruct (tcpListeners (fw s) !! tcp_key listenAddr listenPort) as [l|] eqn:Hk.
  - destruct (Listener_Close l (os s)) as [[e|] w] eqn:Hc.
    + rewrite (StopTCPForward_close_failed _ _ _ _ _ _ Hmu Hk Hc).
      do 2 eexists. split; [reflexivity|]. simpl. auto.
    + rewrite (StopTCPForward_stopped _ _ _ _ _ Hmu Hk Hc).
      do 2 eexists. split; [reflexivity|]. simpl. eauto 10.
  - rewrite (StopTCPForward_not_running _ _ _ Hmu Hk).
    do 2 eexists. split; [reflexivity|]. simpl. auto.
Qed.

Lemma StopUDPForward_post s listenAddr listenPort :
  mu (fw s) = false ->
  exists r s',
    StopUDPForward listenAddr listenPort s = Returns r s'
    /\ mu (fw s') = false
    /\ tcpListeners (fw s') = tcpListeners (fw s)
    /\ match r with
       | None =>
           is_Some (udpListeners (fw s) !! udp_key listenAddr listenPort)
           /\ udpListeners (fw s')
              = delete (udp_key listenAddr listenPort) (udpListeners (fw s))
       | Some _ => udpListeners (fw s') = udpListeners (fw s)
       end.
Proof.
  intros Hmu.
  destruct (udpListeners (fw s) !! udp_key listenAddr listenPort) as [c|] eqn:Hk.
  - destruct (UDPConn_Close c (os s)) as [[e|] w] eqn:Hc.
    + rewrite (StopUDPForward_close_failed _ _ _ _ _ _ Hmu Hk Hc).
      do 2 eexists. split; [reflexivity|]. simpl. auto.
    + rewrite (StopUDPForward_stopped _ _ _ _ _ Hmu Hk Hc).
      do 2 eexists. split; [reflexivity|]. simpl. eauto 10.
  - rewrite (StopUDPForward_not_running _ _ _ Hmu Hk).
    do 2 eexists. split; [reflexivity|]. simpl. auto.
Qed.

End RegistryPost.

Section RegistryExtras.
Context {W : Type} {net : Net W}.
Implicit Types (s : State W) (listenAddr listenPort targetAddr targetPort : string).

(** X1.  On a free key, a start whose bind succeeds followed by a stop
    whose close succeeds returns ok and puts the forwarder back exactly
    as it was: no entry is left behind in either map. *)
Theorem start_then_stop_restores s listenAddr listenPort targetAddr targetPort :
  mu (fw s) = false ->
  (forall l w w',
     tcpListeners (fw s) !! tcp_key listenAddr listenPort = None ->
     net_Listen "tcp" (host_port listenAddr listenPort) (os s) = (Ok l, w) ->
     Listener_Close l w = (None, w') ->
     exists s',
       (StartTCPForward listenAddr listenPort targetAddr targetPort ;;;
        StopTCPForward listenAddr listenPort)%go s = Returns None s'
       /\ fw s' = fw s /\ os s' = w')
  /\
  (forall a w c w' w'',
     udpListeners (fw s) !! udp_key listenAddr listenPort = None ->
     net_ResolveUDPAddr "udp" (host_port listenAddr listenPort) (os s) = (Ok a, w) ->
     net_ListenUDP "udp" a w = (Ok c, w') ->
     UDPConn_Close c w' = (None, w'') ->
     exists s',
       (StartUDPForward listenAddr listenPort targetAddr targetPort ;;;
        StopUDPForward listenAddr listenPort)%go s = Returns None s'
       /\ fw s' = fw s /\ os s' = w'').
Proof.
  intros Hmu. split.
  - intros l w w' Hk Hl Hc. unfold bind.
    rewrite (StartTCPForward_started _ _ _ _ _ _ _ Hmu Hk Hl).
    erewrite StopTCPForward_stopped;
      [ | reflexivity | simpl; apply lookup_insert_eq | exact Hc ].
    eexists. split; [reflexivity|]. simpl.
    rewrite delete_insert_id by exact Hk.
    destruct s as [[tl ul m] w0 t]; simpl in *; subst; auto.
  - intros a w c w' w'' Hk Hr Hl Hc. unfold bind.
    rewrite (StartUDPForward_started _ _ _ _ _ _ _ _ _ Hmu Hk Hr Hl).
    erewrite StopUDPForward_stopped;
      [ | reflexivity | simpl; apply lookup_insert_eq | exact Hc ].
    eexists. split; [reflexivity|]. simpl.
    rewrite delete_insert_id by exact Hk.
    destruct s as [[tl ul m] w0 t]; simpl in *; subst; auto.
Qed.

(** X2.  An operation touches only the entry of its own key in the map of
    its own protocol: a TCP start or stop leaves the UDP map and every
    other TCP key as they were, a UDP start or stop leaves the TCP map and
    every other UDP key as they were, and the status queries change
    neither the forwarder nor the network state. *)
Theorem operations_touch_own_key_only s listenAddr listenPort targetAddr targetPort :
  mu (fw s) = false ->
  (forall r s',
     StartTCPForward listenAddr listenPort targetAddr targetPort s = Returns r s' ->
     udpListeners (fw s') = udpListeners (fw s)
     /\ forall k, k <> tcp_key listenAddr listenPort ->
                  tcpListeners (fw s') !! k = tcpListeners (fw s) !! k)
  /\
  (forall r s',
     StopTCPForward listenAddr listenPort s = Returns r s' ->
     udpListeners (fw s') = udpListeners (fw s)
     /\ forall k, k <> tcp_key listenAddr listenPort ->
                  tcpListeners (fw s') !! k = tcpListeners (fw s) !! k)
  /\
  (forall r s',
     StartUDPForward listenAddr listenPort targetAddr targetPort s = Returns r s' ->
     tcpListeners (fw s') = tcpListeners (fw s)
     /\ forall k, k <> udp_key listenAddr listenPort ->
                  udpListeners (fw s') !! k = udpListeners (fw s) !! k)
  /\
  (forall r s',
     StopUDPForward listenAddr listenPort s = Returns r s' ->
     tcpListeners (fw s') = tcpListeners (fw s)
     /\ forall k, k <> udp_key listenAddr listenPort ->
                  udpListeners (fw s') !! k = udpListeners (fw s) !! k)
  /\
  (forall b s',
     IsTCPRunning listenAddr listenPort s = Returns b s' ->
     fw s' = fw s /\ os s' = os s)
  /\
  (forall b s',
     IsUDPRunning listenAddr listenPort s = Returns b s' ->
     fw s' = fw s /\ os s' = os s).
Proof.
  intros Hmu. repeat apply conj.
  - intros r s' H.
    destruct (StartTCPForward_post s listenAddr listenPort targetAddr targetPort Hmu)
      as (r0 & s0 & H0 & _ & Hu & Ht).
    rewrite H0 in H. injection H as <- <-. split; [exact Hu|].
    intros k Hne. destruct r0 as [e|].
    + rewrite Ht. reflexivity.
    + destruct Ht as (_ & l & ->). apply lookup_insert_ne. congruence.
  - intros r s' H.
    destruct (StopTCPForward_post s listenAddr listenPort Hmu)
      as (r0 & s0 & H0 & _ & Hu & Ht).
    rewrite H0 in H. injection H as <- <-. split; [exact Hu|].
    intros k Hne. destruct r0 as [e|].
    + rewrite Ht. reflexivity.
    + destruct Ht as (_ & ->). apply lookup_delete_ne. congruence.
  - intros r s' H.
    destruct (StartUDPForward_post s listenAddr listenPort targetAddr targetPort Hmu)
      as (r0 & s0 & H0 & _ & Hu & Ht).
    rewrite H0 in H. injection H as <- <-. split; [exact Hu|].
    intros k Hne. destruct r0 as [e|].
    + rewrite Ht. reflexivity.
    + destruct Ht as (_ & c & ->). apply lookup_insert_ne. congruence.
  - intros r s' H.
    destruct (StopUDPForward_post s listenAddr listenPort Hmu)
      as (r0 & s0 & H0 & _ & Hu & Ht).
    rewrite H0 in H. injection H as <- <-. split; [exact Hu|].
    intros k Hne. destruct r0 as [e|].
    + rewrite Ht. reflexivity.
    + destruct Ht as (_ & ->). apply lookup_delete_ne. congruence.
  - intros b s'. rewrite IsTCPRunning_eq by exact Hmu. intros [= _ <-]. auto.
  - intros b s'. rewrite IsUDPRunning_eq by exact Hmu. intros [= _ <-]. auto.
Qed.

(** X3.  A session whose close has failed is stuck: the stop returns
    CloseFailed, and a start on the same endpoint right after it is
    refused as AlreadyRunning without a bind being attempted, the old
    listener still registered. *)
Theorem failed_close_blocks_restart s listenAddr listenPort targetAddr targetPort :
  mu (fw s) = false ->
  (forall l e w,
     tcpListeners (fw s) !! tcp_key listenAddr listenPort = Some l ->
     Listener_Close l (os s) = (Some e, w) ->
     exists s1 s2,
       StopTCPForward listenAddr listenPort s = Returns (Some (CloseFailed TCP e)) s1
       /\ StartTCPForward listenAddr listenPort targetAddr targetPort s1
          = Returns (Some (AlreadyRunning TCP listenAddr listenPort)) s2
       /\ fw s2 = fw s
       /\ io_calls (emitted s s2) = [IOListenerClose l])
  /\
  (forall c e w,
     udpListeners (fw s) !! udp_key listenAddr listenPort = Some c ->
     UDPConn_Close c (os s) = (Some e, w) ->
     exists s1 s2,
       StopUDPForward listenAddr listenPort s = Returns (Some (CloseFailed UDP e)) s1
       /\ StartUDPForward listenAddr listenPort targetAddr targetPort s1
          = Returns (Some (AlreadyRunning UDP listenAddr listenPort)) s2
       /\ fw s2 = fw s
       /\ io_calls (emitted s s2) = [IOUDPConnClose c]).
Proof.
  intros Hmu. split.
  - intros l e w Hk Hc.
    do 2 eexists.
    split; [exact (StopTCPForward_close_failed _ _ _ _ _ _ Hmu Hk Hc)|].
    split; [apply StartTCPForward_running with (l := l); [exact Hmu | exact Hk]|].
    simpl. split; [reflexivity|]. rewrite <- app_assoc, emitted_app. reflexivity.
  - intros c e w Hk Hc.
    do 2 eexists.
    split; [exact (StopUDPForward_close_failed _ _ _ _ _ _ Hmu Hk Hc)|].
    split; [apply StartUDPForward_running with (c := c); [exact Hmu | exact Hk]|].
    simpl. split; [reflexivity|]. rewrite <- app_assoc, emitted_app. reflexivity.
Qed.

End RegistryExtras.

Lemma size_delete_present {A} (m : gmap string A) (k : string) :
  is_Some (m !! k) -> S (size (delete k m)) = size m.
Proof.
  intros [x Hx]. rewrite <- (insert_id m k x Hx) at 2.
  rewrite <- insert_delete_eq.
  rewrite map_size_insert_None by apply lookup_delete_eq. reflexivity.
Qed.

Section CallSequences.
Context {W : Type} {net : Net W}.
Implicit Types (s : State W).

Lemma call_post (c : Call) s :
  mu (fw s) = false ->
  exists r s',
    call c s = Returns r s'
    /\ mu (fw s') = false
    /\ forall p,
         sessions p (fw s') + (if is_stop p c && succeeded r then 1 else 0)
         = sessions p (fw s) + (if is_start p c && succeeded r then 1 else 0).
Proof.
  intros Hmu. destruct c as [la lp ta tp | la lp | la lp ta tp | la lp | la lp | la lp];
    unfold call, bind, ret.
  - destruct (StartTCPForward_post s la lp ta tp Hmu) as (r & s' & -> & Hm & Hu & Ht).
    do 2 eexists. split; [reflexivity|]. split; [exact Hm|].
    intros []; simpl; rewrite ?Hu; [|lia].
    destruct r as [e|]; simpl.
    + rewrite Ht. lia.
    + destruct Ht as (Hk & l & ->). rewrite map_size_insert_None by exact Hk. lia.
  - destruct (StopTCPForward_post s la lp Hmu) as (r & s' & -> & Hm & Hu & Ht).
    do 2 eexists. split; [reflexivity|]. split; [exact Hm|].
    intros []; simpl; rewrite ?Hu; [|lia].
    destruct r as [e|]; simpl.
    + rewrite Ht. lia.
    + destruct Ht as (Hk & ->). rewrite <- (size_delete_present _ _ Hk). lia.
  - destruct (StartUDPForward_post s la lp ta tp Hmu) as (r & s' & -> & Hm & Hu & Ht).
    do 2 eexists. split; [reflexivity|]. split; [exact Hm|].
    intros []; simpl; rewrite ?Hu; [lia|].
    destruct r as [e|]; simpl.
    + rewrite Ht. lia.
    + destruct Ht as (Hk & l & ->). rewrite map_size_insert_None by exact Hk. lia.
  - destruct (StopUDPForward_post s la lp Hmu) as (r & s' & -> & Hm & Hu & Ht).
    do 2 eexists. split; [reflexivity|]. split; [exact Hm|].
    intros []; simpl; rewrite ?Hu; [lia|].
    destruct r as [e|]; simpl.
    + rewrite Ht. lia.
    + destruct Ht as (Hk & ->). rewrite <- (size_delete_present _ _ Hk). lia.
  - rewrite IsTCPRunning_eq by exact Hmu.
    do 2 eexists. split; [reflexivity|]. split; [exact Hmu|]. intros []; simpl; lia.
  - rewrite IsUDPRunning_eq by exact Hmu.
    do 2 eexists. split; [reflexivity|]. split; [exact Hmu|]. intros []; simpl; lia.
Qed.

(** X4.  Whatever sequence of start, stop and status calls is made on a
    forwarder whose mutex is free, every call returns, with the mutex free
    again, and the bookkeeping balances: per protocol, the number of
    sessions at the end plus the stops that returned ok equals the number
    at the beginning plus the starts that returned ok. *)
Theorem sessions_balance (cs : list Call) : forall s,
  mu (fw s) = false ->
  exists rs s',
    calls cs s = Returns rs s'
    /\ length rs = length cs
    /\ mu (fw s') = false
    /\ forall p,
         sessions p (fw s') + count_stopped p cs rs
         = sessions p (fw s) + count_started p cs rs.
Proof.
  induction cs as [|c cs IH]; intros s Hmu.
  - exists [], s. simpl. repeat split; auto.
  - destruct (call_post c s Hmu) as (r & s1 & Hc & Hm1 & Hb1).
    destruct (IH s1 Hm1) as (rs & s' & Hcs & Hlen & Hm' & Hb).
    exists (r :: rs), s'. simpl. unfold bind, ret. rewrite Hc, Hcs.
    split; [reflexivity|]. split; [simpl; congruence|]. split; [exact Hm'|].
    intros p. specialize (Hb1 p). specialize (Hb p). lia.
Qed.

End CallSequences.

Lemma sessions_balance_witness :
  exists rs s',
    calls [CallStartTCPForward "127.0.0.1" "8080" "10.0.0.1" "80";
           CallStartTCPForward "127.0.0.1" "8080" "10.0.0.1" "80";
           CallStartUDPForward "127.0.0.1" "8080" "10.0.0.1" "80";
           CallIsTCPRunning "127.0.0.1" "8080";
           CallStopTCPForward "127.0.0.1" "8080";
           CallStopTCPForward "127.0.0.1" "8080"] (init sim_empty)
    = Returns rs s'
    /\ sessions TCP (fw s') = 0 /\ sessions UDP (fw s') = 1.
Proof.
  destruct (sessions_balance
              [CallStartTCPForward "127.0.0.1" "8080" "10.0.0.1" "80";
               CallStartTCPForward "127.0.0.1" "8080" "10.0.0.1" "80";
               CallStartUDPForward "127.0.0.1" "8080" "10.0.0.1" "80";
               CallIsTCPRunning "127.0.0.1" "8080";
               CallStopTCPForward "127.0.0.1" "8080";
               CallStopTCPForward "127.0.0.1" "8080"] (init sim_empty))
    as (rs & s' & H & _ & _ & Hb); [reflexivity|].
  exists rs, s'. split; [exact H|].
  vm_compute in H. injection H as <- <-. split; vm_compute; reflexivity.
Defined.

Lemma start_then_stop_restores_witness :
  exists s',
    (StartTCPForward "127.0.0.1" "8080" "10.0.0.1" "80" ;;;
     StopTCPForward "127.0.0.1" "8080")%go (init sim_empty) = Returns None s'
    /\ fw s' = fw (init sim_empty).
Proof.
  destruct (start_then_stop_restores (init sim_empty)
              "127.0.0.1" "8080" "10.0.0.1" "80") as (H & _); [reflexivity|].
  destruct (H (ListenerFD 3) (mkSim 4 [(3, ("tcp", "127.0.0.1", 8080%N))] []) (mkSim 4 [] []))
    as (s' & H1 & H2 & _); try (vm_compute; reflexivity).
  exists s'; split; assumption.
Defined.

Lemma operations_touch_own_key_only_witness :
  exists r s',
    StartTCPForward "127.0.0.1" "8080" "10.0.0.1" "80" (init sim_empty) = Returns r s'
    /\ udpListeners (fw s') = udpListeners (fw (init sim_empty))
    /\ tcpListeners (fw s') !! tcp_key "127.0.0.1" "9090" = None.
Proof.
  destruct (operations_touch_own_key_only (init sim_empty)
              "127.0.0.1" "8080" "10.0.0.1" "80") as (H & _); [reflexivity|].
  destruct (StartTCPForward "127.0.0.1" "8080" "10.0.0.1" "80" (init sim_empty))
    as [r s'| |] eqn:E; [|discriminate E..].
  destruct (H r s' eq_refl) as [Hu Hk].
  exists r, s'. split; [reflexivity|]. split; [exact Hu|].
  rewrite Hk by (vm_compute; discriminate). reflexivity.
Defined.

Lemma failed_close_blocks_restart_witness :
  exists s1 s2,
    StopTCPForward "127.0.0.1" "8080"
      (mkState (mkForwarder {[ tcp_key "127.0.0.1" "8080" := ListenerFD 3 ]} ∅ false)
               (mkSim 4 [(3, ("tcp", "127.0.0.1", 8080%N))] [3]) [])
    = Returns (Some (CloseFailed TCP (NetError "close: input/output error"))) s1
    /\ StartTCPForward "127.0.0.1" "8080" "10.0.0.1" "80" s1
       = Returns (Some (AlreadyRunning TCP "127.0.0.1" "8080")) s2.
Proof.
  destruct (failed_close_blocks_restart
              (mkState (mkForwarder {[ tcp_key "127.0.0.1" "8080" := ListenerFD 3 ]} ∅ false)
                       (mkSim 4 [(3, ("tcp", "127.0.0.1", 8080%N))] [3]) [])
              "127.0.0.1" "8080" "10.0.0.1" "80") as (H & _); [reflexivity|].
  destruct (H (ListenerFD 3) (NetError "close: input/output error")
              (mkSim 4 [(3, ("tcp", "127.0.0.1", 8080%N))] [3]))
    as (s1 & s2 & H1 & H2 & _); try (vm_compute; reflexivity).
  exists s1, s2; split; assumption.
Defined.

(** * The accept loop *)

Section AcceptLoop.
Import TCPAccept.
Variable listener : Listener.



End AcceptLoop.

(** * Bytes through the pump *)

Section PumpBytes.
Import TCPRelay PumpData.
Variable target : string.

Lemma handler_step_bytes d h ev h' :
  dialed_inv h ->
  handler_step target h ev = Some h' ->
  if is_failed_write d ev
  then written d (pump h') = written d (pump h) /\ task d (pump h') = Exited
       /\ read_of d ev = []
  else written d (pump h') ++ in_flight d (pump h')
       = (written d (pump h) ++ in_flight d (pump h)) ++ read_of d ev.
Proof.
  unfold dialed_inv, handler_step, written, in_flight.
  destruct h as [st co tco [sd ds dw sw] lg]; simpl.
  destruct st; [intros [] | | intros _; discriminate].
  intros (-> & -> & Hw).
  destruct ev as [e | [] data [e|] | [] [e|]]; simpl; try discriminate;
    destruct sd, ds; simpl in *; try discriminate;
    try (destruct (0 <? length data)%nat eqn:Hn;
         [|apply Nat.ltb_ge in Hn; destruct data; [|simpl in Hn; lia]]);
    intros [= <-]; destruct d; simpl; rewrite ?app_nil_r; auto.
Qed.

Lemma handler_step_exited d h ev h' :
  dialed_inv h ->
  task d (pump h) = Exited ->
  handler_step target h ev = Some h' ->
  written d (pump h') = written d (pump h) /\ read_of d ev = []
  /\ is_failed_write d ev = false /\ task d (pump h') = Exited.
Proof.
  unfold dialed_inv, handler_step, written.
  destruct h as [st co tco [sd ds dw sw] lg]; simpl.
  destruct st; [intros [] | | intros _ _; discriminate].
  intros _ Hex.
  destruct ev as [e | [] data [e|] | [] [e|]], d, sd, ds; simpl in *;
    try discriminate;
    try (destruct (0 <? length data)%nat); intros [= <-]; simpl; auto.
Qed.

Lemma handler_run_exited d evs : forall h h',
  dialed_inv h ->
  task d (pump h) = Exited ->
  handler_run target h evs = Some h' ->
  written d (pump h') = written d (pump h) /\ bytes_read d evs = []
  /\ write_failed d evs = false.
Proof.
  induction evs as [|ev evs IH]; simpl; intros h h' Hinv Hex.
  - intros [= <-]. auto.
  - destruct (handler_step target h ev) as [h1|] eqn:Hs; [|discriminate].
    intros Hr.
    destruct (handler_step_inv target _ _ _ Hinv Hs) as [Hinv1 _].
    destruct (handler_step_exited d _ _ _ Hinv Hex Hs) as (Hw1 & Hr1 & Hf1 & Hex1).
    destruct (IH _ _ Hinv1 Hex1 Hr) as (Hw & Hb & Hf).
    rewrite Hw, Hw1, Hr1, Hb, Hf1, Hf. auto.
Qed.

Lemma handler_run_bytes d evs : forall h h',
  dialed_inv h ->
  handler_run target h evs = Some h' ->
  written d (pump h') `prefix_of`
    (written d (pump h) ++ in_flight d (pump h)) ++ bytes_read d evs
  /\ (write_failed d evs = false ->
      written d (pump h') ++ in_flight d (pump h')
      = (written d (pump h) ++ in_flight d (pump h)) ++ bytes_read d evs).
Proof.
  induction evs as [|ev evs IH]; simpl; intros h h' Hinv.
  - intros [= <-]. rewrite app_nil_r. split; [apply prefix_app_r; reflexivity | auto].
  - destruct (handler_step target h ev) as [h1|] eqn:Hs; [|discriminate].
    intros Hr.
    destruct (handler_step_inv target _ _ _ Hinv Hs) as [Hinv1 _].
    pose proof (handler_step_bytes d _ _ _ Hinv Hs) as Hstep.
    destruct (is_failed_write d ev) eqn:Hf.
    + destruct Hstep as (Hw1 & Hex1 & Hr1).
      destruct (handler_run_exited d _ _ _ Hinv1 Hex1 Hr) as (Hw & Hb & _).
      rewrite Hw, Hw1, Hr1, Hb. simpl. split; [|discriminate].
      rewrite app_nil_r. apply prefix_app_r. reflexivity.
    + destruct (IH _ _ Hinv1 Hr) as [IHp IHe]. rewrite Hstep in IHp, IHe.
      rewrite <- !app_assoc in *. simpl. split; [exact IHp | exact IHe].
Qed.

(** X6.  The pump relays bytes unchanged and in order, each direction for
    itself.  What a direction has delivered is always a prefix of what its
    reads have handed over without an error; and as long as no write of
    that direction has failed nothing is lost: the bytes delivered,
    followed by the chunk being written, are exactly the bytes read.
    (Bytes a read returns together with an error are dropped.) *)
Theorem pump_relays_in_order (evs : list ConnEvent) (h : Handler) :
  handler_run target accepted (DialReturns None :: evs) = Some h ->
  forall d,
    written d (pump h) `prefix_of` bytes_read d evs
    /\ (write_failed d evs = false ->
        written d (pump h) ++ in_flight d (pump h) = bytes_read d evs).
Proof.
  simpl. intros Hr d.
  apply (handler_run_bytes d) in Hr; [|repeat split].
  destruct d; exact Hr.
Qed.

End PumpBytes.

(** * The life of a connection handler *)

Section HandlerLife.
Import TCPRelay.
Variable target : string.

Lemma handler_run_logged (evs : list ConnEvent) : forall h h',
  stage h <> Dialing ->
  handler_run target h evs = Some h' ->
  logged h' = logged h.
Proof.
  induction evs as [|ev evs IH]; simpl; intros h h' Hd.
  - intros [= <-]. reflexivity.
  - destruct (handler_step target h ev) as [h1|] eqn:Hs; [|discriminate].
    intros Hr. unfold handler_step in Hs.
    destruct (stage h) eqn:Hst; [congruence | | discriminate].
    destruct (forwardData_step (pump h) ev) as [p|]; [|discriminate].
    destruct (wait_returns p); injection Hs as <-;
      (rewrite (IH _ _) with (2 := Hr); [reflexivity | simpl; discriminate]).
Qed.

(** X7.  The handler of an accepted connection leaks nothing.  Before
    the dial has returned it holds the accepted connection alone.  When
    the dial fails it logs, closes the accepted connection, relays
    nothing and is over.  When the dial succeeds it is inside
    [forwardData], with both connections open, for as long as one of the
    two copy tasks is still in its loop; [forwardData] returns when both
    tasks have left, that is when each direction has seen a read or a
    write of its own fail, and at that moment the two deferred closes
    run: the handler is over and both connections are closed.  So on
    every path the accepted connection is closed exactly when the
    handler is over, the target connection is open exactly while the
    handler is inside [forwardData], and a handler that is over does
    nothing more. *)
Theorem handler_never_leaks (evs : list ConnEvent) (h : Handler) :
  handler_run target accepted evs = Some h ->
  (conn_open h = false <-> stage h = Finished)
  /\ (targetConn_open h = true <-> stage h = Forwarding)
  /\ (stage h = Finished -> forall ev, handler_step target h ev = None)
  /\ (forall e evs',
        evs = DialReturns (Some e) :: evs' ->
        evs' = [] /\ stage h = Finished /\ pump h = forwardData_start
        /\ logged h = ["Error connecting to target " +:+ target])
  /\ (evs = [] -> h = accepted)
  /\ (forall evs',
        evs = DialReturns None :: evs' ->
        wait_returns (pump h)
          = dir_failed SrcToDst evs' && dir_failed DstToSrc evs'
        /\ stage h = (if wait_returns (pump h) then Finished else Forwarding)
        /\ conn_open h = negb (wait_returns (pump h))
        /\ targetConn_open h = negb (wait_returns (pump h))
        /\ logged h = [])
  /\ (stage h = Dialing <-> evs = []).
Proof.
  intros Hr.
  assert (Hfin : stage h = Finished -> forall ev, handler_step target h ev = None).
  { intros Hs ev. unfold handler_step. rewrite Hs. reflexivity. }
  destruct evs as [|ev evs'].
  - injection Hr as <-. simpl.
    split; [split; discriminate|]. split; [split; discriminate|].
    split; [discriminate|]. split; [discriminate|]. split; [reflexivity|].
    split; [discriminate|]. split; reflexivity.
  - destruct ev as [[e|] | d data err | d err]; simpl in Hr; try discriminate.
    + destruct evs' as [|ev' evs'']; [|discriminate Hr].
      injection Hr as <-. simpl.
      split; [split; reflexivity|]. split; [split; discriminate|].
      split; [intros _ ev; reflexivity|].
      split; [intros e0 evs0 [= <- <-]; auto|].
      split; [discriminate|]. split; [discriminate|]. split; discriminate.
    + assert (Hlog : logged h = []).
      { apply handler_run_logged in Hr; [exact Hr | simpl; discriminate]. }
      apply handler_run_inv in Hr as [Hinv Hex]; [|repeat split].
      assert (Hw : wait_returns (pump h)
                   = dir_failed SrcToDst evs' && dir_failed DstToSrc evs').
      { unfold wait_returns.
        pose proof (Hex SrcToDst) as H1. pose proof (Hex DstToSrc) as H2.
        simpl in H1, H2. rewrite H1, H2. reflexivity. }
      unfold dialed_inv in Hinv.
      destruct (stage h) eqn:Hs; [destruct Hinv | |];
        destruct Hinv as (Hc & Ht & Hwr); rewrite Hc, Ht;
        (split; [split; (reflexivity || discriminate)|]);
        (split; [split; (reflexivity || discriminate)|]);
        (split; [exact Hfin|]);
        (split; [intros e0 evs0; discriminate|]);
        (split; [discriminate|]);
        (split; [|split; discriminate]);
        intros evs0 [= <-]; rewrite <- Hw, Hwr; auto.
Qed.

End HandlerLife.

Lemma pump_relays_in_order_witness :
  exists h,
    TCPRelay.handler_run "10.0.0.1:80" TCPRelay.accepted
      [TCPRelay.DialReturns None;
       TCPRelay.ReadReturns TCPRelay.SrcToDst [Byte.x68; Byte.x69] None;
       TCPRelay.WriteReturns TCPRelay.SrcToDst None;
       TCPRelay.ReadReturns TCPRelay.DstToSrc [Byte.x6f] None;
       TCPRelay.ReadReturns TCPRelay.SrcToDst [Byte.x21] None]
    = Some h
    /\ PumpData.written TCPRelay.SrcToDst (TCPRelay.pump h)
         ++ PumpData.in_flight TCPRelay.SrcToDst (TCPRelay.pump h)
       = [Byte.x68; Byte.x69; Byte.x21].
Proof.
  destruct (TCPRelay.handler_run "10.0.0.1:80" TCPRelay.accepted
      [TCPRelay.DialReturns None;
       TCPRelay.ReadReturns TCPRelay.SrcToDst [Byte.x68; Byte.x69] None;
       TCPRelay.WriteReturns TCPRelay.SrcToDst None;
       TCPRelay.ReadReturns TCPRelay.DstToSrc [Byte.x6f] None;
       TCPRelay.ReadReturns TCPRelay.SrcToDst [Byte.x21] None]) as [h|] eqn:E;
    [|discriminate E].
  exists h. split; [reflexivity|].
  destruct (pump_relays_in_order "10.0.0.1:80" _ h E TCPRelay.SrcToDst) as [_ H].
  apply H. reflexivity.
Defined.

Lemma handler_never_leaks_witness :
  (exists h,
     TCPRelay.handler_run "10.0.0.1:80" TCPRelay.accepted
       [TCPRelay.DialReturns (Some (NetError "connection refused"))] = Some h
     /\ TCPRelay.conn_open h = false
     /\ TCPRelay.logged h = ["Error connecting to target 10.0.0.1:80"])
  /\
  (exists h,
     TCPRelay.handler_run "10.0.0.1:80" TCPRelay.accepted
       [TCPRelay.DialReturns None;
        TCPRelay.ReadReturns TCPRelay.SrcToDst [Byte.x68; Byte.x69] None;
        TCPRelay.WriteReturns TCPRelay.SrcToDst None;
        TCPRelay.ReadReturns TCPRelay.SrcToDst [] (Some TCPRelay.io_EOF);
        TCPRelay.ReadReturns TCPRelay.DstToSrc [] (Some TCPRelay.io_EOF)]
     = Some h
     /\ TCPRelay.stage h = TCPRelay.Finished
     /\ TCPRelay.conn_open h = false
     /\ TCPRelay.targetConn_open h = false)
  /\
  (exists h,
     TCPRelay.handler_run "10.0.0.1:80" TCPRelay.accepted
       [TCPRelay.DialReturns None;
        TCPRelay.ReadReturns TCPRelay.SrcToDst [] (Some TCPRelay.io_EOF)]
     = Some h
     /\ TCPRelay.stage h = TCPRelay.Forwarding
     /\ TCPRelay.conn_open h = true
     /\ TCPRelay.targetConn_open h = true).
Proof.
  split; [|split].
  - destruct (TCPRelay.handler_run "10.0.0.1:80" TCPRelay.accepted
        [TCPRelay.DialReturns (Some (NetError "connection refused"))]) as [h|] eqn:E;
      [|discriminate E].
    exists h. split; [reflexivity|].
    destruct (handler_never_leaks "10.0.0.1:80" _ h E) as (H & _ & _ & H4 & _).
    destruct (H4 _ _ eq_refl) as (_ & Hs & _ & Hl).
    split; [apply H; exact Hs | exact Hl].
  - destruct (TCPRelay.handler_run "10.0.0.1:80" TCPRelay.accepted
        [TCPRelay.DialReturns None;
         TCPRelay.ReadReturns TCPRelay.SrcToDst [Byte.x68; Byte.x69] None;
         TCPRelay.WriteReturns TCPRelay.SrcToDst None;
         TCPRelay.ReadReturns TCPRelay.SrcToDst [] (Some TCPRelay.io_EOF);
         TCPRelay.ReadReturns TCPRelay.DstToSrc [] (Some TCPRelay.io_EOF)])
      as [h|] eqn:E; [|discriminate E].
    exists h. split; [reflexivity|].
    destruct (handler_never_leaks "10.0.0.1:80" _ h E) as (_ & _ & _ & _ & _ & H & _).
    destruct (H _ eq_refl) as (Hw & Hs & Hc & Ht & _).
    rewrite Hs, Hc, Ht, Hw. vm_compute. auto.
  - destruct (TCPRelay.handler_run "10.0.0.1:80" TCPRelay.accepted
        [TCPRelay.DialReturns None;
         TCPRelay.ReadReturns TCPRelay.SrcToDst [] (Some TCPRelay.io_EOF)])
      as [h|] eqn:E; [|discriminate E].
    exists h. split; [reflexivity|].
    destruct (handler_never_leaks "10.0.0.1:80" _ h E) as (_ & _ & _ & _ & _ & H & _).
    destruct (H _ eq_refl) as (Hw & Hs & Hc & Ht & _).
    rewrite Hs, Hc, Ht, Hw. vm_compute. auto.
Defined.

(** * Rules and templates *)

Lemma contains_elem_of (id : string) (ids : list string) :
  contains id ids = true <-> id ∈ ids.
Proof.
  induction ids as [|x ids IH]; simpl.
  - split; [discriminate | intros H; inversion H].
  - destruct (String.eqb id x) eqn:E.
    + apply String.eqb_eq in E as ->. split; [intros _; left | reflexivity].
    + apply String.eqb_neq in E. rewrite IH. split; [right; assumption|].
      intros H. inversion H; subst; [contradiction | assumption].
Qed.

Lemma contains_false (id : string) (ids : list string) :
  contains id ids = false <-> id ∉ ids.
Proof.
  rewrite <- contains_elem_of. destruct (contains id ids); split; congruence.
Qed.

Lemma keep_rules_filter (ids : list string) (rs : list Rule) :
  keep_rules ids rs = filter (fun r => ID r ∉ ids) rs.
Proof.
  induction rs as [|r rs IH]; simpl; [reflexivity|].
  destruct (contains (ID r) ids) eqn:E.
  - apply contains_elem_of in E. rewrite filter_cons_False by auto. exact IH.
  - apply contains_false in E. rewrite filter_cons_True by auto. rewrite IH. reflexivity.
Qed.

Lemma keep_ids_filter (ids : list string) (l : list string) :
  keep_ids ids l = filter (fun id => id ∉ ids) l.
Proof.
  induction l as [|x l IH]; simpl; [reflexivity|].
  destruct (contains x ids) eqn:E.
  - apply contains_elem_of in E. rewrite filter_cons_False by auto. exact IH.
  - apply contains_false in E. rewrite filter_cons_True by auto. rewrite IH. reflexivity.
Qed.

Lemma max_Seq_bounds (rs : list Rule) : forall m,
  (m <= max_Seq m rs)%Z
  /\ Forall (fun r => (Seq r <= max_Seq m rs)%Z) rs
  /\ (forall b, (m < b)%Z -> Forall (fun r => (Seq r < b)%Z) rs -> (max_Seq m rs < b)%Z).
Proof.
  induction rs as [|r rs IH]; intros m; simpl.
  - split; [lia|]. split; [constructor|]. auto.
  - destruct (IH (if (Seq r >? m)%Z then Seq r else m)) as (H1 & H2 & H3).
    destruct (Z.gtb_spec (Seq r) m) as [Hgt|Hle].
    + split; [lia|]. split; [constructor; [lia | exact H2]|].
      intros b Hb Hall. inversion Hall; subst. apply H3; assumption.
    + split; [lia|]. split; [constructor; [lia | exact H2]|].
      intros b Hb Hall. inversion Hall; subst. apply H3; assumption.
Qed.

Lemma int_wrap_id (z : Z) : (int_min <= z <= int_max)%Z -> int_wrap z = z.
Proof.
  unfold int_wrap, int_min, int_max. intros H.
  rewrite Z.mod_small by lia. lia.
Qed.

Lemma find_rule_Some (id : string) (rs : list Rule) (r : Rule) :
  find_rule id rs = Some r -> r ∈ rs /\ ID r = id.
Proof.
  induction rs as [|x rs IH]; simpl; [discriminate|].
  destruct (String.eqb (ID x) id) eqn:E.
  - intros [= <-]. apply String.eqb_eq in E. split; [left | exact E].
  - intros H. destruct (IH H). split; [right; assumption | assumption].
Qed.

Lemma find_rule_None (id : string) (rs : list Rule) :
  find_rule id rs = None <-> id ∉ map ID rs.
Proof.
  induction rs as [|x rs IH]; simpl.
  - split; [intros _ H; inversion H | reflexivity].
  - destruct (String.eqb (ID x) id) eqn:E.
    + apply String.eqb_eq in E. split; [discriminate|].
      intros H. exfalso. apply H. rewrite E. left.
    + apply String.eqb_neq in E. rewrite IH. rewrite not_elem_of_cons.
      split; [intros H; split; [congruence | exact H] | intros [_ H]; exact H].
Qed.

Lemma find_template_Some (name : string) (ts : list Template) (t : Template) :
  find_template name ts = Some t -> t ∈ ts /\ Name t = name.
Proof.
  induction ts as [|x ts IH]; simpl; [discriminate|].
  destruct (String.eqb (Name x) name) eqn:E.
  - intros [= <-]. apply String.eqb_eq in E. split; [left | exact E].
  - intros H. destruct (IH H). split; [right; assumption | assumption].
Qed.

Lemma find_template_None (name : string) (ts : list Template) :
  find_template name ts = None <-> name ∉ map Name ts.
Proof.
  induction ts as [|x ts IH]; simpl.
  - split; [intros _ H; inversion H | reflexivity].
  - destruct (String.eqb (Name x) name) eqn:E.
    + apply String.eqb_eq in E. split; [discriminate|].
      intros H. exfalso. apply H. rewrite E. left.
    + apply String.eqb_neq in E. rewrite IH. rewrite not_elem_of_cons.
      split; [intros H; split; [congruence | exact H] | intros [_ H]; exact H].
Qed.

Lemma elem_of_map {A C} (f : A -> C) (l : list A) (y : C) :
  y ∈ map f l <-> exists x, y = f x /\ x ∈ l.
Proof. exact (list_elem_of_fmap f l y). Qed.

Section HandlerFacts.
Context {D B : Type} {store : Store D B}.
Implicit Types (g : Globals D).

Lemma apiAddRule_rules (id : string) g :
  Forall (fun r => (Seq r < int_max)%Z) (rules g) ->
  rules (apiAddRule "POST" id g).2
  = rules g ++ [mkRule id (max_Seq 0 (rules g) + 1) "" "" "" ""]
  /\ (0 <= max_Seq 0 (rules g))%Z
  /\ Forall (fun r => (Seq r <= max_Seq 0 (rules g))%Z) (rules g).
Proof.
  intros Hlt.
  destruct (max_Seq_bounds (rules g) 0%Z) as (H0 & Hle & Hb).
  assert (Hmax : (max_Seq 0 (rules g) < int_max)%Z).
  { apply Hb; [unfold int_max; lia | exact Hlt]. }
  simpl. rewrite int_wrap_id by (unfold int_min, int_max in *; lia).
  auto.
Qed.

(** X8.  A POST to [apiAddRule] appends exactly one rule, with the given
    fresh ID and empty endpoint fields, after the existing rules, and
    leaves the templates alone.  As long as no existing sequence number is
    the largest [int], the new rule's number is at least 1 and strictly
    above every existing one, so sequence numbers that were distinct stay
    distinct; it is 1 when there is no rule. *)
Theorem add_rule_appends_next_seq (id : string) g :
  Forall (fun r => (Seq r < int_max)%Z) (rules g) ->
  exists seq,
    (apiAddRule "POST" id g).1 = json_success
    /\ rules (apiAddRule "POST" id g).2 = rules g ++ [mkRule id seq "" "" "" ""]
    /\ templates (apiAddRule "POST" id g).2 = templates g
    /\ (1 <= seq)%Z
    /\ Forall (fun r => (Seq r < seq)%Z) (rules g)
    /\ (rules g = [] -> seq = 1%Z)
    /\ (NoDup (map Seq (rules g)) ->
        NoDup (map Seq (rules (apiAddRule "POST" id g).2))).
Proof.
  intros Hlt. exists (int_wrap (max_Seq 0 (rules g) + 1)).
  destruct (max_Seq_bounds (rules g) 0%Z) as (H0 & Hle & Hb).
  assert (Hmax : (max_Seq 0 (rules g) < int_max)%Z).
  { apply Hb; [unfold int_max; lia | exact Hlt]. }
  assert (Hw : int_wrap (max_Seq 0 (rules g) + 1) = (max_Seq 0 (rules g) + 1)%Z).
  { apply int_wrap_id. unfold int_min, int_max in *. lia. }
  simpl. rewrite Hw.
  split; [reflexivity|]. split; [reflexivity|]. split; [reflexivity|].
  split; [lia|]. split.
  { eapply Forall_impl; [exact Hle|]. simpl. intros r Hr. lia. }
  split.
  { intros ->. reflexivity. }
  intros Hnd. rewrite map_app. simpl. apply NoDup_app.
  split; [exact Hnd|]. split; [|apply NoDup_singleton].
  intros z Hz Hz'. apply list_elem_of_singleton in Hz'. subst z.
  apply elem_of_map in Hz as (r & Hr & Hin).
  rewrite Forall_forall in Hle. specialize (Hle r Hin). lia.
Qed.

(** X9.  A POST to [apiDeleteRules] keeps, in their order, exactly the
    rules whose ID is not among the given IDs, and strips those IDs from
    the rule list of every template, whose name, creation time and
    position stay.  Afterwards no rule and no template entry carries a
    deleted ID; and when every template entry named an existing rule
    before, every one still does. *)
Theorem delete_rules_removes_everywhere (ids : list string) g :
  (apiDeleteRules "POST" (Ok ids) g).1 = json_success
  /\ rules (apiDeleteRules "POST" (Ok ids) g).2
     = filter (fun r => ID r ∉ ids) (rules g)
  /\ map Name (templates (apiDeleteRules "POST" (Ok ids) g).2) = map Name (templates g)
  /\ map CreatedAt (templates (apiDeleteRules "POST" (Ok ids) g).2)
     = map CreatedAt (templates g)
  /\ map Rules (templates (apiDeleteRules "POST" (Ok ids) g).2)
     = map (fun t => filter (fun id => id ∉ ids) (Rules t)) (templates g)
  /\ (forall r, r ∈ rules (apiDeleteRules "POST" (Ok ids) g).2 -> ID r ∉ ids)
  /\ (forall t id, t ∈ templates (apiDeleteRules "POST" (Ok ids) g).2 ->
                   id ∈ Rules t -> id ∉ ids)
  /\ ((forall t id, t ∈ templates g -> id ∈ Rules t -> id ∈ map ID (rules g)) ->
      forall t id, t ∈ templates (apiDeleteRules "POST" (Ok ids) g).2 ->
                   id ∈ Rules t ->
                   id ∈ map ID (rules (apiDeleteRules "POST" (Ok ids) g).2)).
Proof.
  simpl. rewrite keep_rules_filter.
  assert (Hst : forall ts t, t ∈ strip_templates ids ts ->
            exists t0, t0 ∈ ts /\ Rules t = filter (fun id => id ∉ ids) (Rules t0)).
  { induction ts as [|x ts IH]; simpl; intros t Ht; [inversion Ht|].
    apply elem_of_cons in Ht as [-> | Ht].
    - exists x. split; [left|]. simpl. apply keep_ids_filter.
    - destruct (IH t Ht) as (t0 & H0 & H1). exists t0. split; [right; exact H0 | exact H1]. }
  split; [reflexivity|]. split; [reflexivity|].
  split; [induction (templates g) as [|x ts IH]; simpl; congruence|].
  split; [induction (templates g) as [|x ts IH]; simpl; congruence|].
  split.
  { induction (templates g) as [|x ts IH]; simpl; [reflexivity|].
    rewrite keep_ids_filter, IH. reflexivity. }
  split.
  { intros r Hr. apply list_elem_of_filter in Hr as [Hr _]. exact Hr. }
  split.
  { intros t id Ht Hid. destruct (Hst _ _ Ht) as (t0 & _ & Heq).
    rewrite Heq in Hid. apply list_elem_of_filter in Hid as [Hid _]. exact Hid. }
  intros Href t id Ht Hid. destruct (Hst _ _ Ht) as (t0 & Ht0 & Heq).
  rewrite Heq in Hid. apply list_elem_of_filter in Hid as [Hnot Hid].
  specialize (Href t0 id Ht0 Hid).
  apply elem_of_map in Href as (r & -> & Hr).
  apply elem_of_map. exists r. split; [reflexivity|].
  apply list_elem_of_filter. split; assumption.
Qed.


Lemma update_rule_facts (req : UpdateRuleReq) (rs : list Rule) :
  map ID (update_rule req rs) = map ID rs
  /\ map Seq (update_rule req rs) = map Seq rs
  /\ (req_ID req ∉ map ID rs -> update_rule req rs = rs)
  /\ (forall rule, find_rule (req_ID req) rs = Some rule ->
        find_rule (req_ID req) (update_rule req rs)
        = Some (mkRule (ID rule) (Seq rule) (req_ListenAddr req) (req_ListenPort req)
                       (req_TargetAddr req) (req_TargetPort req)))
  /\ (forall id, id <> req_ID req ->
        find_rule id (update_rule req rs) = find_rule id rs).
Proof.
  induction rs as [|r rs (IH1 & IH2 & IH3 & IH4 & IH5)]; simpl.
  - repeat split; auto. discriminate.
  - destruct (String.eqb (ID r) (req_ID req)) eqn:E; simpl.
    + apply String.eqb_eq in E.
      split; [reflexivity|]. split; [reflexivity|]. split.
      { intros H. exfalso. apply H. rewrite E. left. }
      split.
      { intros rule [= <-]. rewrite E, String.eqb_refl. reflexivity. }
      intros id Hne. rewrite E.
      destruct (String.eqb (req_ID req) id) eqn:E'; [|reflexivity].
      apply String.eqb_eq in E'. congruence.
    + rewrite IH1, IH2. split; [reflexivity|]. split; [reflexivity|]. split.
      { intros H. apply not_elem_of_cons in H as [_ H]. rewrite IH3 by exact H.
        reflexivity. }
      split.
      { intros rule H. rewrite E. apply IH4. exact H. }
      intros id Hne. destruct (String.eqb (ID r) id); [reflexivity|]. apply IH5; exact Hne.
Qed.


Lemma add_new_ids_filter (existing : list string) (newIDs : list string) :
  forall cur,
    add_new_ids existing cur newIDs
    = cur ++ filter (fun id => id ∉ existing) newIDs.
Proof.
  induction newIDs as [|x l IH]; intros cur; simpl.
  - rewrite app_nil_r. reflexivity.
  - destruct (contains x existing) eqn:E.
    + apply contains_elem_of in E. rewrite filter_cons_False by auto. apply IH.
    + apply contains_false in E. rewrite filter_cons_True by auto.
      rewrite IH, <- app_assoc. reflexivity.
Qed.

Lemma extend_template_facts (name : string) (newIDs : list string) (ts : list Template) :
  match extend_template name newIDs ts with
  | None => find_template name ts = None
  | Some ts' =>
      exists t0,
        find_template name ts = Some t0
        /\ find_template name ts'
           = Some (mkTemplate (Name t0)
                     (Rules t0 ++ filter (fun id => id ∉ Rules t0) newIDs)
                     (CreatedAt t0))
        /\ map Name ts' = map Name ts
        /\ (forall n, n <> name -> find_template n ts' = find_template n ts)
  end.
Proof.
  induction ts as [|t ts IH]; simpl; [reflexivity|].
  destruct (String.eqb (Name t) name) eqn:E.
  - exists t. simpl. rewrite E, add_new_ids_filter.
    split; [reflexivity|]. split; [reflexivity|]. split; [reflexivity|].
    intros n Hn. apply String.eqb_eq in E. rewrite E.
    destruct (String.eqb name n) eqn:E'; [|reflexivity].
    apply String.eqb_eq in E'. congruence.
  - destruct (extend_template name newIDs ts) as [ts'|]; [|exact IH].
    destruct IH as (t0 & H1 & H2 & H3 & H4). exists t0. simpl. rewrite E.
    split; [exact H1|]. split; [exact H2|]. split; [congruence|].
    intros n Hn. rewrite (H4 n Hn). reflexivity.
Qed.



Lemma save_as_template_holds_ids_aux (name : string) (ids : list string) (now : string)
    g (t0 : Template) :
  find_template name (templates g) = Some t0 ->
  exists t,
    find_template name (templates (apiSaveAsTemplate "POST" (Ok (name, ids)) now g).2)
    = Some t
    /\ Rules t = Rules t0 ++ filter (fun id => id ∉ Rules t0) ids.
Proof.
  intros Hf. simpl. pose proof (extend_template_facts name ids (templates g)) as H.
  destruct (extend_template name ids (templates g)) as [ts'|].
  - destruct H as (t1 & H1 & H2 & _). rewrite Hf in H1. injection H1 as <-.
    eexists. split; [exact H2|]. reflexivity.
  - congruence.
Qed.

(** X12.  Extending an existing template with [apiSaveAsTemplate] leaves
    its ID list free of duplicates when it was so before and the request
    names no ID twice.  (Each requested ID is checked against the IDs the
    template held before the request, not against those the request has
    just added.) *)
Theorem save_as_template_no_duplicates (name : string) (ids : list string)
    (now : string) g (t0 : Template) :
  find_template name (templates g) = Some t0 ->
  NoDup (Rules t0) ->
  NoDup ids ->
  exists t,
    find_template name (templates (apiSaveAsTemplate "POST" (Ok (name, ids)) now g).2)
    = Some t
    /\ NoDup (Rules t)
    /\ (forall id, id ∈ Rules t <-> id ∈ Rules t0 \/ id ∈ ids).
Proof.
  intros Hf Hnd0 Hnd.
  destruct (save_as_template_holds_ids_aux name ids now g t0 Hf) as (t & Ht & Heq).
  exists t. split; [exact Ht|]. rewrite Heq. split.
  - apply NoDup_app. split; [exact Hnd0|]. split; [|apply NoDup_filter; exact Hnd].
    intros id Hid Hid'. apply list_elem_of_filter in Hid' as [Hnot _]. contradiction.
  - intros id. rewrite elem_of_app, list_elem_of_filter.
    destruct (decide (id ∈ Rules t0)); tauto.
Qed.


Lemma template_rules_facts (ruleIDs : list string) (rs : list Rule) :
  map ID (template_rules ruleIDs rs) = filter (fun id => id ∈ map ID rs) ruleIDs
  /\ Forall (fun r => find_rule (ID r) rs = Some r) (template_rules ruleIDs rs).
Proof.
  induction ruleIDs as [|id l [IH1 IH2]]; simpl; [split; [reflexivity | constructor]|].
  destruct (find_rule id rs) as [r|] eqn:E.
  - destruct (find_rule_Some _ _ _ E) as [Hin Hid].
    rewrite filter_cons_True by (apply elem_of_map; exists r; auto).
    simpl. rewrite IH1, Hid. split; [reflexivity|].
    constructor; [rewrite Hid; exact E | exact IH2].
  - apply find_rule_None in E. rewrite filter_cons_False by exact E.
    split; [exact IH1 | exact IH2].
Qed.

(** X13.  A POST to [apiApplyTemplate] only reads.  For a template that
    exists it returns, in the order of the template's ID list, the rule
    found under each ID - the first rule with that ID - and passes over
    the IDs that no rule has; every rule returned is a current rule.  For
    a name no template has it answers 404.  Rules, templates and disk are
    as before in both cases. *)
Theorem apply_template_resolves_ids (name : string) g :
  match find_template name (templates g) with
  | Some t =>
      exists rs,
        apiApplyTemplate "POST" (Ok name) g = (json_success_rules rs, g)
        /\ map ID rs = filter (fun id => id ∈ map ID (rules g)) (Rules t)
        /\ Forall (fun r => r ∈ rules g /\ find_rule (ID r) (rules g) = Some r) rs
  | None =>
      (apiApplyTemplate "POST" (Ok name) g).1 = http_Error "Template not found" 404
      /\ rules (apiApplyTemplate "POST" (Ok name) g).2 = rules g
      /\ templates (apiApplyTemplate "POST" (Ok name) g).2 = templates g
      /\ disk (apiApplyTemplate "POST" (Ok name) g).2 = disk g
  end.
Proof.
  unfold apiApplyTemplate. simpl.
  destruct (find_template name (templates g)) as [t|]; [|auto].
  destruct (template_rules_facts (Rules t) (rules g)) as [H1 H2].
  eexists. split; [reflexivity|]. split; [exact H1|].
  eapply Forall_impl; [exact H2|]. simpl. intros r Hr.
  split; [apply (find_rule_Some _ _ _ Hr) | exact Hr].
Qed.

Lemma drop_template_filter (name : string) (ts : list Template) :
  drop_template name ts = filter (fun t => Name t <> name) ts.
Proof.
  induction ts as [|t ts IH]; simpl; [reflexivity|].
  destruct (String.eqb (Name t) name) eqn:E; simpl.
  - apply String.eqb_eq in E. rewrite filter_cons_False by auto. exact IH.
  - apply String.eqb_neq in E. rewrite filter_cons_True by auto. rewrite IH. reflexivity.
Qed.

(** X14.  A POST to [apiDeleteTemplate] with a non-empty name removes
    every template of that name and keeps all others, in their order;
    afterwards the name is not found; the rules are untouched; a name no
    template has changes nothing and is still answered with success.
    With the empty name the reply is 400 and nothing at all changes. *)
Theorem delete_template_removes_name (name : string) g :
  (name <> "" ->
   (apiDeleteTemplate "POST" (Ok name) g).1 = json_success
   /\ templates (apiDeleteTemplate "POST" (Ok name) g).2
      = filter (fun t => Name t <> name) (templates g)
   /\ find_template name (templates (apiDeleteTemplate "POST" (Ok name) g).2) = None
   /\ rules (apiDeleteTemplate "POST" (Ok name) g).2 = rules g
   /\ (name ∉ map Name (templates g) ->
       templates (apiDeleteTemplate "POST" (Ok name) g).2 = templates g))
  /\ apiDeleteTemplate "POST" (Ok "") g
     = (http_Error "Template name is required" 400, g).
Proof.
  split; [|reflexivity].
  intros Hne. unfold apiDeleteTemplate. simpl.
  apply String.eqb_neq in Hne. rewrite Hne. simpl. rewrite drop_template_filter.
  split; [reflexivity|]. split; [reflexivity|]. split.
  { apply find_template_None. intros H. apply elem_of_map in H as (t & Hn & Ht).
    apply list_elem_of_filter in Ht as [Ht _]. congruence. }
  split; [reflexivity|].
  intros Hnot. induction (templates g) as [|t ts IH]; [reflexivity|].
  simpl in Hnot. apply not_elem_of_cons in Hnot as [H1 H2].
  rewrite filter_cons_True by congruence. rewrite IH by exact H2. reflexivity.
Qed.

Lemma rename_template_facts (oldName newName : string) (ts : list Template) :
  match rename_template oldName newName ts with
  | None => oldName ∉ map Name ts
  | Some ts' =>
      map Rules ts' = map Rules ts
      /\ map CreatedAt ts' = map CreatedAt ts
      /\ exists l1 t l2,
           ts = l1 ++ t :: l2 /\ Name t = oldName /\ (oldName ∉ map Name l1)
           /\ ts' = l1 ++ mkTemplate newName (Rules t) (CreatedAt t) :: l2
  end.
Proof.
  induction ts as [|t ts IH]; simpl.
  - intros H; inversion H.
  - destruct (String.eqb (Name t) oldName) eqn:E.
    + apply String.eqb_eq in E. split; [reflexivity|]. split; [reflexivity|].
      exists [], t, ts. simpl. repeat split; auto. intros H; inversion H.
    + apply String.eqb_neq in E.
      destruct (rename_template oldName newName ts) as [ts'|].
      * destruct IH as (H1 & H2 & l1 & t1 & l2 & -> & Hn & Hl1 & ->).
        simpl. split; [congruence|]. split; [congruence|].
        exists (t :: l1), t1, l2. simpl. repeat split; auto.
        apply not_elem_of_cons. split; [congruence | exact Hl1].
      * apply not_elem_of_cons. split; [congruence | exact IH].
Qed.

(** X15.  A POST to [apiUpdateTemplate] with two non-empty names renames
    the first template called [oldName], and that one only: the list of
    templates splits into the templates before it, none of them called
    [oldName], the template itself and the templates after it, and the
    new list is the same but for the name of that one template; a later
    template that is also called [oldName] keeps its name.  Every
    template keeps its rule IDs, creation time and position.  The
    handler does not look whether [newName] is taken; names that were
    distinct stay distinct provided no template is called [newName] yet,
    and then the template is found under the new name and no longer
    under the old.  When no template is called [oldName] the reply is
    404 and rules, templates and disk are as before. *)
Theorem update_template_renames_first (oldName newName : string) g :
  oldName <> "" -> newName <> "" ->
  match rename_template oldName newName (templates g) with
  | Some ts =>
      (apiUpdateTemplate "POST" (Ok (oldName, newName)) g).1 = json_success
      /\ templates (apiUpdateTemplate "POST" (Ok (oldName, newName)) g).2 = ts
      /\ rules (apiUpdateTemplate "POST" (Ok (oldName, newName)) g).2 = rules g
      /\ map Rules ts = map Rules (templates g)
      /\ map CreatedAt ts = map CreatedAt (templates g)
      /\ (exists t0, find_template oldName (templates g) = Some t0
            /\ (NoDup (map Name (templates g)) -> newName ∉ map Name (templates g) ->
                NoDup (map Name ts)
                /\ find_template newName ts
                   = Some (mkTemplate newName (Rules t0) (CreatedAt t0))
                /\ find_template oldName ts = None))
      /\ (exists l1 t l2,
            templates g = l1 ++ t :: l2
            /\ Name t = oldName
            /\ (oldName ∉ map Name l1)
            /\ ts = l1 ++ mkTemplate newName (Rules t) (CreatedAt t) :: l2)
  | None =>
      (oldName ∉ map Name (templates g))
      /\ (apiUpdateTemplate "POST" (Ok (oldName, newName)) g).1
         = http_Error "Template not found" 404
      /\ rules (apiUpdateTemplate "POST" (Ok (oldName, newName)) g).2 = rules g
      /\ templates (apiUpdateTemplate "POST" (Ok (oldName, newName)) g).2 = templates g
      /\ disk (apiUpdateTemplate "POST" (Ok (oldName, newName)) g).2 = disk g
  end.
Proof.
  intros Ho Hn. unfold apiUpdateTemplate. simpl.
  apply String.eqb_neq in Ho, Hn. rewrite Ho, Hn. simpl.
  pose proof (rename_template_facts oldName newName (templates g)) as H.
  destruct (rename_template oldName newName (templates g)) as [ts|]; [|auto 10].
  destruct H as (H1 & H2 & l1 & t & l2 & Heq & Hname & Hl1 & ->).
  simpl. split; [reflexivity|]. split; [reflexivity|]. split; [reflexivity|].
  split; [exact H1|]. split; [exact H2|].
  assert (Hfind : forall n (x : Template) l, n ∉ map Name l1 -> Name x = n ->
            find_template n (l1 ++ x :: l) = Some x).
  { intros n x l. clear. induction l1 as [|y l1' IH]; simpl; intros Hnot Hx.
    - rewrite Hx, String.eqb_refl. reflexivity.
    - apply not_elem_of_cons in Hnot as [Hy Hnot].
      destruct (String.eqb (Name y) n) eqn:E; [apply String.eqb_eq in E; congruence|].
      apply IH; assumption. }
  split; [|exists l1, t, l2; auto].
  exists t. rewrite Heq. split; [apply Hfind; assumption|].
  rewrite !map_app. simpl. rewrite Hname. intros Hnd Hnew.
  apply NoDup_app in Hnd as (Hnd1 & Hdisj & Hnd2).
  apply NoDup_cons in Hnd2 as [Hold2 Hnd2].
  apply not_elem_of_app in Hnew as [Hnew1 Hnew2].
  apply not_elem_of_cons in Hnew2 as [Hno Hnew2].
  split.
  { apply NoDup_app. split; [exact Hnd1|]. split.
    - intros n Hn1 Hn2. apply elem_of_cons in Hn2 as [-> | Hn2]; [contradiction|].
      apply (Hdisj n Hn1). right. exact Hn2.
    - apply NoDup_cons. split; assumption. }
  split; [apply Hfind; [exact Hnew1 | reflexivity]|].
  apply find_template_None. rewrite map_app. simpl.
  apply not_elem_of_app. split; [exact Hl1|].
  apply not_elem_of_cons. split; [congruence | exact Hold2].
Qed.



Lemma NoDup_map_filter {A C} (f : A -> C) (P : A -> Prop) `{forall x, Decision (P x)}
    (l : list A) :
  NoDup (map f l) -> NoDup (map f (filter P l)).
Proof.
  induction l as [|x l IH]; simpl; [auto|].
  intros Hnd. apply NoDup_cons in Hnd as [Hx Hnd].
  destruct (decide (P x)) as [Hp|Hp].
  - rewrite filter_cons_True by exact Hp. simpl. apply NoDup_cons.
    split; [|apply IH; exact Hnd].
    intros Hin. apply Hx. apply elem_of_map in Hin as (y & Hy & Hin).
    apply list_elem_of_filter in Hin as [_ Hin].
    apply elem_of_map. exists y. auto.
  - rewrite filter_cons_False by exact Hp. apply IH; exact Hnd.
Qed.

(** X23.  Rule identity is an invariant of the rule handlers.  If the
    rules have pairwise distinct IDs and pairwise distinct sequence
    numbers, they still have after [apiAddRule] (given an ID no rule has
    yet, and no sequence number at the largest [int]), after
    [apiUpdateRule] and after [apiDeleteRules]. *)
Theorem rule_identity_is_kept (id : string) (req : UpdateRuleReq) (ids : list string) g :
  NoDup (map ID (rules g)) ->
  NoDup (map Seq (rules g)) ->
  Forall (fun r => (Seq r < int_max)%Z) (rules g) ->
  id ∉ map ID (rules g) ->
  forall g',
    g' ∈ [(apiAddRule "POST" id g).2;
          (apiUpdateRule "POST" (Ok req) g).2;
          (apiDeleteRules "POST" (Ok ids) g).2] ->
    NoDup (map ID (rules g')) /\ NoDup (map Seq (rules g')).
Proof.
  intros HnID HnSeq Hlt Hfresh g' Hg'.
  apply elem_of_cons in Hg' as [-> | Hg'].
  { destruct (apiAddRule_rules id g Hlt) as (Hr & H0 & Hle).
    rewrite Hr, !map_app. simpl. split.
    - apply NoDup_app. split; [exact HnID|]. split; [|apply NoDup_singleton].
      intros x Hx Hx'. apply list_elem_of_singleton in Hx'. subst x. contradiction.
    - apply NoDup_app. split; [exact HnSeq|]. split; [|apply NoDup_singleton].
      intros z Hz Hz'. apply list_elem_of_singleton in Hz'. subst z.
      apply elem_of_map in Hz as (r & Hr' & Hin).
      rewrite Forall_forall in Hle. specialize (Hle r Hin). lia. }
  apply elem_of_cons in Hg' as [-> | Hg'].
  { destruct (update_rule_facts req (rules g)) as (H1 & H2 & _).
    simpl. rewrite H1, H2. split; assumption. }
  apply elem_of_cons in Hg' as [-> | Hg']; [|inversion Hg'].
  simpl. rewrite keep_rules_filter. split; apply NoDup_map_filter; assumption.
Qed.

End HandlerFacts.

(** * Templates driving the registry *)

Section TemplateForwardFacts.
Context {W : Type} {net : Net W}.
Implicit Types (s : State W).

Lemma start_rule_post (ruleID : string) (rs : list Rule) s :
  mu (fw s) = false ->
  exists s',
    start_rule ruleID rs s = Returns tt s'
    /\ mu (fw s') = false
    /\ tcpListeners (fw s) ⊆ tcpListeners (fw s')
    /\ udpListeners (fw s) ⊆ udpListeners (fw s')
    /\ (forall k, is_Some (tcpListeners (fw s') !! k) ->
          is_Some (tcpListeners (fw s) !! k)
          \/ exists r, find_rule ruleID rs = Some r
                       /\ k = tcp_key (ListenAddr r) (ListenPort r))
    /\ (forall k, is_Some (udpListeners (fw s') !! k) ->
          is_Some (udpListeners (fw s) !! k)
          \/ exists r, find_rule ruleID rs = Some r
                       /\ k = udp_key (ListenAddr r) (ListenPort r)).
Proof.
  intros Hmu. induction rs as [|rule rest IH]; simpl.
  - exists s. unfold ret. repeat split; auto.
  - destruct (String.eqb (ID rule) ruleID); [|exact IH].
    unfold bind, ret.
    destruct (StartTCPForward_post s (ListenAddr rule) (ListenPort rule)
                (TargetAddr rule) (TargetPort rule) Hmu)
      as (r1 & s1 & -> & Hm1 & Hu1 & Ht1).
    destruct (StartUDPForward_post s1 (ListenAddr rule) (ListenPort rule)
                (TargetAddr rule) (TargetPort rule) Hm1)
      as (r2 & s2 & -> & Hm2 & Ht2 & Hu2).
    exists s2. split; [reflexivity|]. split; [exact Hm2|].
    rewrite Ht2.
    assert (HT : tcpListeners (fw s) ⊆ tcpListeners (fw s1)
                 /\ forall k, is_Some (tcpListeners (fw s1) !! k) ->
                      is_Some (tcpListeners (fw s) !! k)
                      \/ k = tcp_key (ListenAddr rule) (ListenPort rule)).
    { destruct r1 as [e|].
      - rewrite Ht1. split; [reflexivity | auto].
      - destruct Ht1 as (Hk & l & ->). split; [apply insert_subseteq; exact Hk|].
        intros k Hs.
        destruct (decide (k = tcp_key (ListenAddr rule) (ListenPort rule))) as [->|Hne];
          [right; reflexivity|].
        left. rewrite lookup_insert_ne in Hs by congruence. exact Hs. }
    assert (HU : udpListeners (fw s) ⊆ udpListeners (fw s2)
                 /\ forall k, is_Some (udpListeners (fw s2) !! k) ->
                      is_Some (udpListeners (fw s) !! k)
                      \/ k = udp_key (ListenAddr rule) (ListenPort rule)).
    { rewrite <- Hu1. destruct r2 as [e|].
      - rewrite Hu2. split; [reflexivity | auto].
      - destruct Hu2 as (Hk & c & ->). split; [apply insert_subseteq; exact Hk|].
        intros k Hs.
        destruct (decide (k = udp_key (ListenAddr rule) (ListenPort rule))) as [->|Hne];
          [right; reflexivity|].
        left. rewrite lookup_insert_ne in Hs by congruence. exact Hs. }
    destruct HT as [HT1 HT2], HU as [HU1 HU2].
    split; [exact HT1|]. split; [exact HU1|]. split.
    + intros k Hs. destruct (HT2 k Hs) as [H|H]; [left; exact H|].
      right. exists rule. split; [reflexivity | exact H].
    + intros k Hs. destruct (HU2 k Hs) as [H|H]; [left; exact H|].
      right. exists rule. split; [reflexivity | exact H].
Qed.

Lemma start_rules_post (ruleIDs : list string) (rs : list Rule) : forall s,
  mu (fw s) = false ->
  exists s',
    start_rules ruleIDs rs s = Returns tt s'
    /\ mu (fw s') = false
    /\ tcpListeners (fw s) ⊆ tcpListeners (fw s')
    /\ udpListeners (fw s) ⊆ udpListeners (fw s')
    /\ (forall k, is_Some (tcpListeners (fw s') !! k) ->
          is_Some (tcpListeners (fw s) !! k)
          \/ k ∈ tcp_keys (template_rules ruleIDs rs))
    /\ (forall k, is_Some (udpListeners (fw s') !! k) ->
          is_Some (udpListeners (fw s) !! k)
          \/ k ∈ udp_keys (template_rules ruleIDs rs)).
Proof.
  induction ruleIDs as [|id ids IH]; intros s Hmu; simpl.
  - exists s. unfold ret. repeat split; auto.
  - unfold bind.
    destruct (start_rule_post id rs s Hmu) as (s1 & -> & Hm1 & Ht1 & Hu1 & Hkt1 & Hku1).
    destruct (IH s1 Hm1) as (s' & -> & Hm' & Ht' & Hu' & Hkt' & Hku').
    exists s'. split; [reflexivity|]. split; [exact Hm'|].
    split; [etransitivity; eassumption|]. split; [etransitivity; eassumption|].
    split.
    + intros k Hs. destruct (Hkt' k Hs) as [H|H].
      * destruct (Hkt1 k H) as [H1|(r & Hr & ->)]; [left; exact H1|].
        right. rewrite Hr. left.
      * right. destruct (find_rule id rs); [right; exact H | exact H].
    + intros k Hs. destruct (Hku' k Hs) as [H|H].
      * destruct (Hku1 k H) as [H1|(r & Hr & ->)]; [left; exact H1|].
        right. rewrite Hr. left.
      * right. destruct (find_rule id rs); [right; exact H | exact H].
Qed.

(** X17.  A POST to [apiStartTemplateForward] for an existing template
    starts TCP and UDP for each of the template's rules that exists, and
    answers success whatever the starts return.  It returns with the
    mutex free; every session that was registered is still registered
    with the same listener; and a key registered afterwards that was not
    before is the key of one of the template's rules.  For a name no
    template has it answers 404 and touches neither the forwarder nor the
    network. *)
Theorem start_template_only_adds (name : string) (ts : list Template) (rs : list Rule) s :
  mu (fw s) = false ->
  match find_template name ts with
  | Some t =>
      exists s',
        apiStartTemplateForward "POST" (Ok name) ts rs s = Returns json_success s'
        /\ mu (fw s') = false
        /\ tcpListeners (fw s) ⊆ tcpListeners (fw s')
        /\ udpListeners (fw s) ⊆ udpListeners (fw s')
        /\ (forall k, is_Some (tcpListeners (fw s') !! k) ->
              is_Some (tcpListeners (fw s) !! k)
              \/ k ∈ tcp_keys (template_rules (Rules t) rs))
        /\ (forall k, is_Some (udpListeners (fw s') !! k) ->
              is_Some (udpListeners (fw s) !! k)
              \/ k ∈ udp_keys (template_rules (Rules t) rs))
  | None =>
      exists s',
        apiStartTemplateForward "POST" (Ok name) ts rs s
          = Returns (http_Error "Template not found" 404) s'
        /\ fw s' = fw s /\ os s' = os s /\ io_calls (emitted s s') = []
  end.
Proof.
  intros Hmu. unfold apiStartTemplateForward. simpl.
  destruct (find_template name ts) as [t|].
  - unfold bind, ret.
    destruct (start_rules_post (Rules t) rs s Hmu) as (s' & -> & H).
    exists s'. split; [reflexivity | exact H].
  - unfold bind, ret, log_Printf, emit. eexists. split; [reflexivity|].
    rewrite emitted_app. simpl. auto.
Qed.

Lemma stop_rule_post (ruleID : string) (rs : list Rule) s :
  mu (fw s) = false ->
  exists s',
    stop_rule ruleID rs s = Returns tt s'
    /\ mu (fw s') = false
    /\ tcpListeners (fw s') ⊆ tcpListeners (fw s)
    /\ udpListeners (fw s') ⊆ udpListeners (fw s)
    /\ (forall k,
          (forall r, find_rule ruleID rs = Some r ->
                     k <> tcp_key (ListenAddr r) (ListenPort r)) ->
          tcpListeners (fw s') !! k = tcpListeners (fw s) !! k)
    /\ (forall k,
          (forall r, find_rule ruleID rs = Some r ->
                     k <> udp_key (ListenAddr r) (ListenPort r)) ->
          udpListeners (fw s') !! k = udpListeners (fw s) !! k).
Proof.
  intros Hmu. induction rs as [|rule rest IH]; simpl.
  - exists s. unfold ret. repeat split; auto.
  - destruct (String.eqb (ID rule) ruleID); [|exact IH].
    unfold bind, ret.
    destruct (StopTCPForward_post s (ListenAddr rule) (ListenPort rule) Hmu)
      as (r1 & s1 & -> & Hm1 & Hu1 & Ht1).
    destruct (StopUDPForward_post s1 (ListenAddr rule) (ListenPort rule) Hm1)
      as (r2 & s2 & -> & Hm2 & Ht2 & Hu2).
    exists s2. split; [reflexivity|]. split; [exact Hm2|].
    rewrite Ht2.
    assert (HT : tcpListeners (fw s1) ⊆ tcpListeners (fw s)
                 /\ forall k, k <> tcp_key (ListenAddr rule) (ListenPort rule) ->
                      tcpListeners (fw s1) !! k = tcpListeners (fw s) !! k).
    { destruct r1 as [e|].
      - rewrite Ht1. split; [reflexivity | reflexivity].
      - destruct Ht1 as (_ & ->). split; [apply delete_subseteq|].
        intros k Hne. apply lookup_delete_ne. congruence. }
    assert (HU : udpListeners (fw s2) ⊆ udpListeners (fw s)
                 /\ forall k, k <> udp_key (ListenAddr rule) (ListenPort rule) ->
                      udpListeners (fw s2) !! k = udpListeners (fw s) !! k).
    { rewrite <- Hu1. destruct r2 as [e|].
      - rewrite Hu2. split; [reflexivity | reflexivity].
      - destruct Hu2 as (_ & ->). split; [apply delete_subseteq|].
        intros k Hne. apply lookup_delete_ne. congruence. }
    destruct HT as [HT1 HT2], HU as [HU1 HU2].
    split; [exact HT1|]. split; [exact HU1|]. split.
    + intros k Hk. apply HT2. apply Hk. reflexivity.
    + intros k Hk. apply HU2. apply Hk. reflexivity.
Qed.

Lemma stop_rules_post (ruleIDs : list string) (rs : list Rule) : forall s,
  mu (fw s) = false ->
  exists s',
    stop_rules ruleIDs rs s = Returns tt s'
    /\ mu (fw s') = false
    /\ tcpListeners (fw s') ⊆ tcpListeners (fw s)
    /\ udpListeners (fw s') ⊆ udpListeners (fw s)
    /\ (forall k, k ∉ tcp_keys (template_rules ruleIDs rs) ->
          tcpListeners (fw s') !! k = tcpListeners (fw s) !! k)
    /\ (forall k, k ∉ udp_keys (template_rules ruleIDs rs) ->
          udpListeners (fw s') !! k = udpListeners (fw s) !! k).
Proof.
  induction ruleIDs as [|id ids IH]; intros s Hmu; simpl.
  - exists s. unfold ret. repeat split; auto.
  - unfold bind.
    destruct (stop_rule_post id rs s Hmu) as (s1 & -> & Hm1 & Ht1 & Hu1 & Hkt1 & Hku1).
    destruct (IH s1 Hm1) as (s' & -> & Hm' & Ht' & Hu' & Hkt' & Hku').
    exists s'. split; [reflexivity|]. split; [exact Hm'|].
    split; [etransitivity; eassumption|]. split; [etransitivity; eassumption|].
    split.
    + intros k Hk. destruct (find_rule id rs) as [r0|] eqn:Hf.
      * simpl in Hk. apply not_elem_of_cons in Hk as [Hne Hk].
        rewrite (Hkt' k Hk). apply Hkt1. intros r [= <-]. exact Hne.
      * rewrite (Hkt' k Hk). apply Hkt1. intros r Hr; discriminate Hr.
    + intros k Hk. destruct (find_rule id rs) as [r0|] eqn:Hf.
      * simpl in Hk. apply not_elem_of_cons in Hk as [Hne Hk].
        rewrite (Hku' k Hk). apply Hku1. intros r [= <-]. exact Hne.
      * rewrite (Hku' k Hk). apply Hku1. intros r Hr; discriminate Hr.
Qed.

(** X18.  A POST to [apiStopTemplateForward] for an existing template
    stops TCP and UDP for each of the template's rules that exists, and
    answers success whatever the stops return.  It returns with the mutex
    free, registers nothing, and leaves alone every session whose key is
    not the key of one of the template's rules.  For a name no template
    has it answers 404 and touches neither the forwarder nor the
    network. *)
Theorem stop_template_only_removes (name : string) (ts : list Template) (rs : list Rule) s :
  mu (fw s) = false ->
  match find_template name ts with
  | Some t =>
      exists s',
        apiStopTemplateForward "POST" (Ok name) ts rs s = Returns json_success s'
        /\ mu (fw s') = false
        /\ tcpListeners (fw s') ⊆ tcpListeners (fw s)
        /\ udpListeners (fw s') ⊆ udpListeners (fw s)
        /\ (forall k, k ∉ tcp_keys (template_rules (Rules t) rs) ->
              tcpListeners (fw s') !! k = tcpListeners (fw s) !! k)
        /\ (forall k, k ∉ udp_keys (template_rules (Rules t) rs) ->
              udpListeners (fw s') !! k = udpListeners (fw s) !! k)
  | None =>
      exists s',
        apiStopTemplateForward "POST" (Ok name) ts rs s
          = Returns (http_Error "Template not found" 404) s'
        /\ fw s' = fw s /\ os s' = os s /\ io_calls (emitted s s') = []
  end.
Proof.
  intros Hmu. unfold apiStopTemplateForward. simpl.
  destruct (find_template name ts) as [t|].
  - unfold bind, ret.
    destruct (stop_rules_post (Rules t) rs s Hmu) as (s' & -> & H).
    exists s'. split; [reflexivity | exact H].
  - unfold bind, ret, log_Printf, emit. eexists. split; [reflexivity|].
    rewrite emitted_app. simpl. auto.
Qed.

End TemplateForwardFacts.

(** * Storage *)

Section StorageFacts.
Context {D B : Type} {store : Store D B}.
Implicit Types (s : Storage) (d : D) (g : Globals D).

Lemma saveAppData_ok s (a : AppData.t) d d' lg :
  codec_round_trip -> write_then_read ->
  saveAppData s a d = (None, d', lg) ->
  loadAppData s d' = Ok a.
Proof.
  intros Hc Hw. unfold saveAppData, loadAppData.
  destruct (json_MarshalIndent a) as [b|e] eqn:Hm; [|discriminate].
  destruct (os_WriteFile (dataFile s) b d) as [[e|] d1] eqn:Hwr; [discriminate|].
  intros [= <- _]. destruct (Hw _ _ _ _ Hwr) as [H1 H2].
  rewrite H1, H2, (Hc _ _ Hm). reflexivity.
Qed.

Lemma SaveRules_ok s (rs : list Rule) d d' lg :
  codec_round_trip -> write_then_read ->
  SaveRules s rs d = (None, d', lg) ->
  exists a, loadAppData s d = Ok a
            /\ loadAppData s d' = Ok (AppData.mk rs (AppData.Templates a)).
Proof.
  intros Hc Hw. unfold SaveRules.
  destruct (loadAppData s d) as [a|e]; [|discriminate].
  intros Hs. exists a. split; [reflexivity|]. exact (saveAppData_ok _ _ _ _ _ Hc Hw Hs).
Qed.

Lemma SaveTemplates_ok s (ts : list Template) d d' lg :
  codec_round_trip -> write_then_read ->
  SaveTemplates s ts d = (None, d', lg) ->
  exists a, loadAppData s d = Ok a
            /\ loadAppData s d' = Ok (AppData.mk (AppData.Rules a) ts).
Proof.
  intros Hc Hw. unfold SaveTemplates.
  destruct (loadAppData s d) as [a|e]; [|discriminate].
  intros Hs. exists a. split; [reflexivity|]. exact (saveAppData_ok _ _ _ _ _ Hc Hw Hs).
Qed.

(** X19.  On a store whose codec round-trips and whose written files read
    back, a [SaveRules] that returns no error is seen by the next load:
    [LoadRules] returns exactly the rules saved, and [LoadTemplates]
    returns what it returned before the save.  Likewise [SaveTemplates]
    is seen by [LoadTemplates] and leaves the stored rules alone. *)
Theorem save_then_load s d d' lg :
  codec_round_trip -> write_then_read ->
  (forall rs, SaveRules s rs d = (None, d', lg) ->
     LoadRules s d' = (Ok rs, [LogLoadedRules (length rs)])
     /\ LoadTemplates s d' = LoadTemplates s d)
  /\
  (forall ts, SaveTemplates s ts d = (None, d', lg) ->
     LoadTemplates s d' = (Ok ts, [LogLoadedTemplates (length ts)])
     /\ LoadRules s d' = LoadRules s d).
Proof.
  intros Hc Hw. split.
  - intros rs. unfold SaveRules, LoadRules, LoadTemplates.
    destruct (loadAppData s d) as [a|e]; [|discriminate].
    intros Hs. rewrite (saveAppData_ok _ _ _ _ _ Hc Hw Hs). simpl. auto.
  - intros ts. unfold SaveTemplates, LoadRules, LoadTemplates.
    destruct (loadAppData s d) as [a|e]; [|discriminate].
    intros Hs. rewrite (saveAppData_ok _ _ _ _ _ Hc Hw Hs). simpl. auto.
Qed.

(** X20.  When the data file does not exist, loading is not an error:
    [LoadRules] and [LoadTemplates] return empty lists without reading
    anything, and [loadConfig] leaves both package variables empty and
    the disk as it is.  A save then starts from empty data: what
    [SaveRules] writes holds the given rules and no template. *)
Theorem missing_file_is_empty g :
  os_Stat_IsNotExist (dataFile (storage g)) (disk g) = true ->
  LoadRules (storage g) (disk g) = (Ok [], [LogLoadedRules 0])
  /\ LoadTemplates (storage g) (disk g) = (Ok [], [LogLoadedTemplates 0])
  /\ rules (loadConfig g) = []
  /\ templates (loadConfig g) = []
  /\ disk (loadConfig g) = disk g
  /\ (forall rs, SaveRules (storage g) rs (disk g)
                 = saveAppData (storage g) (AppData.mk rs []) (disk g))
  /\ (forall ts, SaveTemplates (storage g) ts (disk g)
                 = saveAppData (storage g) (AppData.mk [] ts) (disk g)).
Proof.
  intros H.
  assert (Hl : loadAppData (storage g) (disk g) = Ok (AppData.mk [] [])).
  { unfold loadAppData. rewrite H. reflexivity. }
  unfold loadConfig, LoadRules, LoadTemplates, SaveRules, SaveTemplates. simpl.
  rewrite !Hl. simpl. rewrite !Hl. simpl. auto 10.
Qed.

(** X21.  When the data file exists but cannot be read, or its contents
    do not unmarshal, nothing can be saved: [SaveRules] and
    [SaveTemplates] return the load error and leave the disk untouched.
    [loadConfig] then falls back to empty lists.  A handler such as
    [apiAddRule] still changes the rules in memory and answers success;
    only a log line tells that the save failed. *)
Theorem unreadable_file_blocks_saving g (e : error) (id : string) :
  loadAppData (storage g) (disk g) = Err e ->
  (forall rs, SaveRules (storage g) rs (disk g) = (Some e, disk g, []))
  /\ (forall ts, SaveTemplates (storage g) ts (disk g) = (Some e, disk g, []))
  /\ rules (loadConfig g) = [] /\ templates (loadConfig g) = []
  /\ (apiAddRule "POST" id g).1 = json_success
  /\ length (rules (apiAddRule "POST" id g).2) = S (length (rules g))
  /\ disk (apiAddRule "POST" id g).2 = disk g
  /\ logs (apiAddRule "POST" id g).2
     = logs g ++ [LogText ("Failed to save rules: " +:+ Error e)].
Proof.
  intros H. unfold apiAddRule, save_rules, loadConfig, LoadRules, LoadTemplates,
    SaveRules, SaveTemplates. simpl. rewrite !H. simpl. rewrite !H. simpl.
  repeat (split; [reflexivity|]). split; [rewrite length_app; simpl; lia|].
  split; reflexivity.
Qed.


Lemma loadConfig_loads g :
  (forall rs, (LoadRules (storage g) (disk g)).1 = Ok rs -> rules (loadConfig g) = rs)
  /\ (forall ts, (LoadTemplates (storage g) (disk g)).1 = Ok ts ->
        templates (loadConfig g) = ts).
Proof.
  unfold loadConfig. simpl. split.
  - intros rs H. rewrite H. simpl.
    destruct (LoadTemplates (storage g) (disk g)).1; reflexivity.
  - intros ts H.
    destruct (LoadRules (storage g) (disk g)).1; simpl; rewrite H; reflexivity.
Qed.

Lemma save_rules_synced g :
  codec_round_trip -> write_then_read -> never_fails ->
  loadable (storage g) (disk g) ->
  (LoadRules (storage g) (disk (save_rules g))).1 = Ok (rules g)
  /\ (LoadTemplates (storage g) (disk (save_rules g))).1
     = (LoadTemplates (storage g) (disk g)).1
  /\ loadable (storage g) (disk (save_rules g)).
Proof.
  intros Hc Hw [Hm Hwr] Hl. unfold loadable in *.
  unfold save_rules. simpl.
  destruct (SaveRules (storage g) (rules g) (disk g)) as [[err d'] lg] eqn:Hs. simpl.
  assert (err = None) as ->.
  { revert Hs. unfold SaveRules, saveAppData.
    destruct (loadAppData (storage g) (disk g)) as [a|e]; [|discriminate Hl].
    specialize (Hm (AppData.mk (rules g) (AppData.Templates a))).
    destruct (json_MarshalIndent _) as [b|e]; [|discriminate Hm].
    specialize (Hwr (dataFile (storage g)) b (disk g)).
    destruct (os_WriteFile _ b (disk g)) as [[e|] d1]; [discriminate Hwr|].
    intros [= <- _ _]. reflexivity. }
  destruct (SaveRules_ok _ _ _ _ _ Hc Hw Hs) as (a & Ha & Ha').
  unfold LoadRules, LoadTemplates. rewrite Ha, Ha'. simpl. auto.
Qed.

Lemma save_templates_synced g :
  codec_round_trip -> write_then_read -> never_fails ->
  loadable (storage g) (disk g) ->
  (LoadTemplates (storage g) (disk (save_templates g))).1 = Ok (templates g)
  /\ (LoadRules (storage g) (disk (save_templates g))).1
     = (LoadRules (storage g) (disk g)).1
  /\ loadable (storage g) (disk (save_templates g)).
Proof.
  intros Hc Hw [Hm Hwr] Hl. unfold loadable in *.
  unfold save_templates. simpl.
  destruct (SaveTemplates (storage g) (templates g) (disk g)) as [[err d'] lg] eqn:Hs.
  simpl.
  assert (err = None) as ->.
  { revert Hs. unfold SaveTemplates, saveAppData.
    destruct (loadAppData (storage g) (disk g)) as [a|e]; [|discriminate Hl].
    specialize (Hm (AppData.mk (AppData.Rules a) (templates g))).
    destruct (json_MarshalIndent _) as [b|e]; [|discriminate Hm].
    specialize (Hwr (dataFile (storage g)) b (disk g)).
    destruct (os_WriteFile _ b (disk g)) as [[e|] d1]; [discriminate Hwr|].
    intros [= <- _ _]. reflexivity. }
  destruct (SaveTemplates_ok _ _ _ _ _ Hc Hw Hs) as (a & Ha & Ha').
  unfold LoadRules, LoadTemplates. rewrite Ha, Ha'. simpl. auto.
Qed.

(** X22.  On a store that round-trips, reads back what was written and
    never fails to marshal or write, and whose data file loads, every
    change a handler makes is on disk when the handler returns: reloading
    the configuration after [apiAddRule], [apiUpdateRule] or
    [apiDeleteRules] gives the rules the handler left in memory, and after
    [apiDeleteRules], [apiSaveAsTemplate] or [apiDeleteTemplate] the
    templates it left in memory. *)
Theorem handlers_write_through g (id now name : string) (ids : list string)
    (req : UpdateRuleReq) :
  codec_round_trip -> write_then_read -> never_fails ->
  loadable (storage g) (disk g) ->
  rules (loadConfig (apiAddRule "POST" id g).2) = rules (apiAddRule "POST" id g).2
  /\ rules (loadConfig (apiUpdateRule "POST" (Ok req) g).2)
     = rules (apiUpdateRule "POST" (Ok req) g).2
  /\ rules (loadConfig (apiDeleteRules "POST" (Ok ids) g).2)
     = rules (apiDeleteRules "POST" (Ok ids) g).2
  /\ templates (loadConfig (apiDeleteRules "POST" (Ok ids) g).2)
     = templates (apiDeleteRules "POST" (Ok ids) g).2
  /\ templates (loadConfig (apiSaveAsTemplate "POST" (Ok (name, ids)) now g).2)
     = templates (apiSaveAsTemplate "POST" (Ok (name, ids)) now g).2
  /\ (name <> "" ->
      templates (loadConfig (apiDeleteTemplate "POST" (Ok name) g).2)
      = templates (apiDeleteTemplate "POST" (Ok name) g).2).
Proof.
  intros Hc Hw Hn Hl.
  assert (HR : forall g0, loadable (storage g0) (disk g0) ->
            rules (loadConfig (save_rules g0)) = rules g0).
  { intros g0 H0. destruct (save_rules_synced g0 Hc Hw Hn H0) as (H1 & _ & _).
    apply (loadConfig_loads (save_rules g0)). exact H1. }
  assert (HT : forall g0, loadable (storage g0) (disk g0) ->
            templates (loadConfig (save_templates g0)) = templates g0).
  { intros g0 H0. destruct (save_templates_synced g0 Hc Hw Hn H0) as (H1 & _ & _).
    apply (loadConfig_loads (save_templates g0)). exact H1. }
  split; [apply (HR (set_rules _ g)); exact Hl|].
  split; [apply (HR (set_rules _ g)); exact Hl|].
  split.
  { unfold apiDeleteRules. simpl.
    set (g1 := save_rules (set_rules (keep_rules ids (rules g)) g)).
    destruct (save_rules_synced (set_rules (keep_rules ids (rules g)) g) Hc Hw Hn Hl)
      as (H1 & _ & H3).
    destruct (save_templates_synced (set_templates (strip_templates ids (templates g)) g1)
                Hc Hw Hn H3) as (_ & H5 & _).
    apply (loadConfig_loads (save_templates
             (set_templates (strip_templates ids (templates g)) g1))).
    simpl in *. rewrite H5. exact H1. }
  split.
  { unfold apiDeleteRules. simpl.
    destruct (save_rules_synced (set_rules (keep_rules ids (rules g)) g) Hc Hw Hn Hl)
      as (_ & _ & H3).
    apply (HT (set_templates _ (save_rules (set_rules (keep_rules ids (rules g)) g)))).
    exact H3. }
  split; [apply (HT (set_templates _ g)); exact Hl|].
  intros Hne. unfold apiDeleteTemplate. simpl.
  apply String.eqb_neq in Hne. rewrite Hne. simpl.
  apply (HT (set_templates _ g)); exact Hl.
Qed.

End StorageFacts.

(** * The sample store and sample runs *)

Lemma MemStore_round_trip : @codec_round_trip _ _ MemStore.
Proof. intros a b [= <-]. reflexivity. Qed.

Lemma MemStore_write_then_read : @write_then_read _ _ MemStore.
Proof.
  intros path b d d' [= <-]. simpl. rewrite String.eqb_refl. split; reflexivity.
Qed.

Lemma MemStore_never_fails : @never_fails _ _ MemStore.
Proof. split; intros; reflexivity. Qed.

Lemma add_rule_appends_next_seq_witness :
  exists seq,
    rules (apiAddRule "POST" "id-2"
             (mkGlobals (mkStorage "db/data.json")
                [mkRule "id-1" 7 "0.0.0.0" "8080" "10.0.0.1" "80"] [] [] [])).2
    = [mkRule "id-1" 7 "0.0.0.0" "8080" "10.0.0.1" "80";
       mkRule "id-2" seq "" "" "" ""]
    /\ (7 < seq)%Z.
Proof.
  destruct (add_rule_appends_next_seq (store := MemStore) "id-2"
              (mkGlobals (mkStorage "db/data.json")
                 [mkRule "id-1" 7 "0.0.0.0" "8080" "10.0.0.1" "80"] [] [] []))
    as (seq & _ & H1 & _ & _ & H2 & _).
  - apply Forall_cons_2; [unfold int_max; simpl; lia | apply Forall_nil_2].
  - exists seq. split; [exact H1|]. simpl in H2.
    apply Forall_cons_1 in H2 as [H2 _]. exact H2.
Defined.

Lemma save_as_template_no_duplicates_witness :
  exists t,
    find_template "web"
      (templates (apiSaveAsTemplate "POST" (Ok ("web", ["id-2"; "id-1"; "id-3"])) "2024-01-02 03:04:05"
         (mkGlobals (mkStorage "db/data.json") []
            [mkTemplate "web" ["id-1"] "2024-01-01 00:00:00"] [] [])).2)
    = Some t
    /\ NoDup (Rules t).
Proof.
  destruct (save_as_template_no_duplicates (store := MemStore)
              "web" ["id-2"; "id-1"; "id-3"] "2024-01-02 03:04:05"
              (mkGlobals (mkStorage "db/data.json") []
                 [mkTemplate "web" ["id-1"] "2024-01-01 00:00:00"] [] [])
              (mkTemplate "web" ["id-1"] "2024-01-01 00:00:00"))
    as (t & H1 & H2 & _).
  - reflexivity.
  - simpl. apply NoDup_singleton.
  - repeat (apply NoDup_cons_2; [rewrite ?not_elem_of_cons; repeat split;
                                  try discriminate; apply not_elem_of_nil|]).
    apply NoDup_nil_2.
  - exists t. split; assumption.
Defined.

Lemma update_template_renames_first_witness :
  templates (apiUpdateTemplate "POST" (Ok ("web", "www"))
               (mkGlobals (mkStorage "db/data.json") []
                  [mkTemplate "db" [] "2024-01-01 00:00:00";
                   mkTemplate "web" ["id-1"] "2024-01-01 00:00:01";
                   mkTemplate "web" ["id-2"] "2024-01-01 00:00:02"] [] [])).2
  = [mkTemplate "db" [] "2024-01-01 00:00:00";
     mkTemplate "www" ["id-1"] "2024-01-01 00:00:01";
     mkTemplate "web" ["id-2"] "2024-01-01 00:00:02"]
  /\ exists l1 t l2,
       [mkTemplate "db" [] "2024-01-01 00:00:00";
        mkTemplate "web" ["id-1"] "2024-01-01 00:00:01";
        mkTemplate "web" ["id-2"] "2024-01-01 00:00:02"] = l1 ++ t :: l2
       /\ Name t = "web"
       /\ ("web" ∉ map Name l1)
       /\ [mkTemplate "db" [] "2024-01-01 00:00:00";
           mkTemplate "www" ["id-1"] "2024-01-01 00:00:01";
           mkTemplate "web" ["id-2"] "2024-01-01 00:00:02"]
          = l1 ++ mkTemplate "www" (Rules t) (CreatedAt t) :: l2.
Proof.
  pose proof (update_template_renames_first (store := MemStore) "web" "www"
                (mkGlobals (mkStorage "db/data.json") []
                   [mkTemplate "db" [] "2024-01-01 00:00:00";
                    mkTemplate "web" ["id-1"] "2024-01-01 00:00:01";
                    mkTemplate "web" ["id-2"] "2024-01-01 00:00:02"] [] [])) as H.
  simpl in H. destruct H as (_ & H & _ & _ & _ & _ & H'); [discriminate | discriminate |].
  split; [exact H | exact H'].
Defined.


Lemma start_template_only_adds_witness :
  exists s',
    apiStartTemplateForward "POST" (Ok "web")
      [mkTemplate "web" ["id-1"; "gone"] "2024-01-01 00:00:00"]
      [mkRule "id-1" 1 "127.0.0.1" "8080" "10.0.0.1" "80"] (init sim_empty)
    = Returns json_success s'
    /\ mu (fw s') = false.
Proof.
  pose proof (start_template_only_adds "web"
                [mkTemplate "web" ["id-1"; "gone"] "2024-01-01 00:00:00"]
                [mkRule "id-1" 1 "127.0.0.1" "8080" "10.0.0.1" "80"]
                (init sim_empty) eq_refl) as H.
  simpl in H. destruct H as (s' & H1 & H2 & _). exists s'. split; assumption.
Defined.

Lemma stop_template_only_removes_witness :
  exists s',
    apiStopTemplateForward "POST" (Ok "web")
      [mkTemplate "web" ["id-1"; "gone"] "2024-01-01 00:00:00"]
      [mkRule "id-1" 1 "127.0.0.1" "8080" "10.0.0.1" "80"] (init sim_empty)
    = Returns json_success s'
    /\ mu (fw s') = false.
Proof.
  pose proof (stop_template_only_removes "web"
                [mkTemplate "web" ["id-1"; "gone"] "2024-01-01 00:00:00"]
                [mkRule "id-1" 1 "127.0.0.1" "8080" "10.0.0.1" "80"]
                (init sim_empty) eq_refl) as H.
  simpl in H. destruct H as (s' & H1 & H2 & _). exists s'. split; assumption.
Defined.

Lemma save_then_load_witness :
  LoadRules (mkStorage "db/data.json")
    [("db/data.json",
      Marshalled (AppData.mk [mkRule "id-1" 1 "0.0.0.0" "8080" "10.0.0.1" "80"] []))]
  = (Ok [mkRule "id-1" 1 "0.0.0.0" "8080" "10.0.0.1" "80"], [LogLoadedRules 1]).
Proof.
  destruct (save_then_load (store := MemStore) (mkStorage "db/data.json") []
              [("db/data.json",
                Marshalled (AppData.mk [mkRule "id-1" 1 "0.0.0.0" "8080" "10.0.0.1" "80"] []))]
              [LogSaved 1 0] MemStore_round_trip MemStore_write_then_read) as [H _].
  destruct (H [mkRule "id-1" 1 "0.0.0.0" "8080" "10.0.0.1" "80"]) as [H1 _];
    [reflexivity | exact H1].
Defined.

Lemma missing_file_is_empty_witness :
  rules (loadConfig fresh_globals) = [] /\ templates (loadConfig fresh_globals) = [].
Proof.
  destruct (missing_file_is_empty (store := MemStore) fresh_globals)
    as (_ & _ & H1 & H2 & _); [reflexivity | split; assumption].
Defined.

Lemma unreadable_file_blocks_saving_witness :
  disk (apiAddRule "POST" "id-1"
          (mkGlobals (mkStorage "db/data.json") [] [] [("db/data.json", Garbage)] [])).2
  = [("db/data.json", Garbage)].
Proof.
  destruct (unreadable_file_blocks_saving (store := MemStore)
              (mkGlobals (mkStorage "db/data.json") [] [] [("db/data.json", Garbage)] [])
              (Wrapf "failed to unmarshal app data" (NetError "invalid character"))
              "id-1") as (_ & _ & _ & _ & _ & _ & H & _);
    [reflexivity | exact H].
Defined.

Lemma handlers_write_through_witness :
  rules (loadConfig (apiAddRule "POST" "id-1" fresh_globals).2)
  = rules (apiAddRule "POST" "id-1" fresh_globals).2.
Proof.
  destruct (handlers_write_through (store := MemStore) fresh_globals
              "id-1" "2024-01-01 00:00:00" "web" []
              (mkUpdateRuleReq "id-1" "" "" "" "")
              MemStore_round_trip MemStore_write_then_read MemStore_never_fails)
    as (H & _); [reflexivity | exact H].
Defined.

Lemma rule_identity_is_kept_witness :
  NoDup (map ID (rules (apiAddRule "POST" "id-2"
                          (mkGlobals (mkStorage "db/data.json")
                             [mkRule "id-1" 7 "0.0.0.0" "8080" "10.0.0.1" "80"]
                             [] [] [])).2)).
Proof.
  destruct (rule_identity_is_kept (store := MemStore) "id-2"
              (mkUpdateRuleReq "id-1" "" "" "" "") []
              (mkGlobals (mkStorage "db/data.json")
                 [mkRule "id-1" 7 "0.0.0.0" "8080" "10.0.0.1" "80"] [] [] []))
    with (g' := (apiAddRule "POST" "id-2"
                   (mkGlobals (mkStorage "db/data.json")
                      [mkRule "id-1" 7 "0.0.0.0" "8080" "10.0.0.1" "80"] [] [] [])).2)
    as [H _].
  - simpl. apply NoDup_singleton.
  - simpl. apply NoDup_singleton.
  - apply Forall_cons_2; [unfold int_max; simpl; lia | apply Forall_nil_2].
  - simpl. rewrite list_elem_of_singleton. discriminate.
  - left.
  - exact H.
Defined.

(** * The reply task *)

Section ReplyTask.
Import UDPRelay UDPReply.
Variables (conn : UDPConn) (target clientAddr : UDPAddr).

(** X24.  The reply task dials the target once and sends at most one
    datagram, and only through the relay's own socket to the address of
    the client whose datagram launched it.  When the dial fails nothing
    is sent, nothing is closed and the task is over.  When the dial
    succeeds and the read returns a response, the task sends it,
    unchanged if it fits the 65535-byte buffer and cut to the buffer
    otherwise, then closes the socket it dialed, last of all, and is
    over, whether the send failed or not.  When the read returns an
    error nothing is sent and the dialed socket is closed.  When no
    response ever arrives the read, which has no deadline, never
    returns: nothing is sent, the task stays in the read and the socket
    it dialed is never closed.  So the dialed socket is closed exactly
    when the task is over after a dial that succeeded. *)
Theorem reply_goes_to_sender (env : Answers) :
  dials (reply_task conn target clientAddr env).1 = [target]
  /\ match dialed env with
     | Err e =>
         reply_task conn target clientAddr env
         = ([QDialUDP target; QLog "Error connecting to target for response" e], Done)
         /\ sends (reply_task conn target clientAddr env).1 = []
         /\ closes (reply_task conn target clientAddr env).1 = []
     | Ok tc =>
         match response env with
         | Response dg =>
             sends (reply_task conn target clientAddr env).1
             = [(conn, take buf_len dg, clientAddr)]
             /\ (length dg <= buf_len ->
                 sends (reply_task conn target clientAddr env).1
                 = [(conn, dg, clientAddr)])
             /\ closes (reply_task conn target clientAddr env).1 = [tc]
             /\ last (reply_task conn target clientAddr env).1 = Some (QClose tc)
             /\ (reply_task conn target clientAddr env).2 = Done
         | ReadError _ =>
             reply_task conn target clientAddr env
             = ([QDialUDP target; QRead tc; QClose tc], Done)
             /\ sends (reply_task conn target clientAddr env).1 = []
             /\ closes (reply_task conn target clientAddr env).1 = [tc]
             /\ last (reply_task conn target clientAddr env).1 = Some (QClose tc)
         | NoResponse =>
             reply_task conn target clientAddr env
             = ([QDialUDP target; QRead tc], WaitingInRead tc)
             /\ sends (reply_task conn target clientAddr env).1 = []
             /\ closes (reply_task conn target clientAddr env).1 = []
         end
     end
  /\ (forall tc, dialed env = Ok tc ->
        (closes (reply_task conn target clientAddr env).1 = [tc]
         <-> (reply_task conn target clientAddr env).2 = Done)
        /\ ((reply_task conn target clientAddr env).2 = WaitingInRead tc
            <-> response env = NoResponse)).
Proof.
  unfold reply_task.
  destruct (dialed env) as [tc|e].
  2:{ split; [reflexivity|]. split; [repeat split|]. intros tc; discriminate. }
  destruct (response env) as [dg|e|].
  2:{ split; [reflexivity|]. split; [repeat split|].
      intros tc0 [= <-]. split; split; (reflexivity || discriminate). }
  2:{ split; [reflexivity|]. split; [repeat split|].
      intros tc0 [= <-]. split; split; (reflexivity || discriminate). }
  destruct (ReadFromUDP_spec (make buf_len) dg) as [_ Ht].
  assert (Hlen : length (make buf_len) = buf_len) by apply length_replicate.
  rewrite Hlen in Ht.
  destruct (ReadFromUDP (make buf_len) dg) as [n buf']. cbn [fst snd] in *.
  rewrite Ht. generalize dependent buf_len. intros L _ _.
  destruct (write_err env); cbn;
    (split; [reflexivity|]);
    (split;
     [ split; [reflexivity|];
       (split; [intros Hfit; rewrite take_ge by exact Hfit; reflexivity|]);
       split; [reflexivity|]; split; reflexivity
     | intros tc0 [= <-]; split; split; (reflexivity || discriminate) ]).
Qed.

End ReplyTask.

Lemma reply_goes_to_sender_witness :
  UDPReply.reply_task (UDPConnFD 3) (mkUDPAddr "10.0.0.1" 53)
    (mkUDPAddr "192.168.1.5" 40000)
    (UDPReply.mkAnswers (Ok (UDPConnFD 7)) UDPReply.NoResponse None)
  = ([UDPReply.QDialUDP (mkUDPAddr "10.0.0.1" 53); UDPReply.QRead (UDPConnFD 7)],
     UDPReply.WaitingInRead (UDPConnFD 7))
  /\ UDPReply.closes
       (UDPReply.reply_task (UDPConnFD 3) (mkUDPAddr "10.0.0.1" 53)
          (mkUDPAddr "192.168.1.5" 40000)
          (UDPReply.mkAnswers (Ok (UDPConnFD 7)) UDPReply.NoResponse None)).1 = [].
Proof.
  destruct (reply_goes_to_sender (UDPConnFD 3) (mkUDPAddr "10.0.0.1" 53)
              (mkUDPAddr "192.168.1.5" 40000)
              (UDPReply.mkAnswers (Ok (UDPConnFD 7)) UDPReply.NoResponse None))
    as (_ & H & _).
  simpl in H. destruct H as (H1 & _ & H2). split; [exact H1 | exact H2].
Defined.
